(** * HWC tone mapper: sessions, intermediate buffers and their life cycle

    A shallow embedding of [composer/hwc_tonemapper.cpp] (namespace [sdm]):
    the [ToneMapSession] object with its pool of intermediate buffers, and the
    [HWCToneMapper] that matches layers to sessions per frame
    ([HandleToneMap]), reconciles them after commit ([PostCommit]) and tears
    them down ([Terminate]).

    Conventions.
    - C++ integers are [Z]; the casts [INT], [UINT32] and the wrap-around of
      unsigned counters are written out where the source has them.
    - A [std::vector] is a [list]; [vector::at] is [at_], which throws
      [out_of_range].  Positions of iterators and [uint32_t] loop counters are
      list positions, which is exact for vectors of fewer than [2^32] entries.
    - The objects behind pointers that the tone mapper owns exclusively
      (sessions, buffer records) are modelled by value.  The services it only
      talks to (gralloc, the GPU tone mapper factory, fences) live in a
      [World] that is threaded through every call. *)

From stdpp Require Import gmap list.
From Stdlib Require Import ZArith Lia.

Local Open Scope Z_scope.

(** ** Integers and containers *)

Definition UINT32 (z : Z) : Z := z mod 2 ^ 32.
Definition INT (z : Z) : Z := (z + 2 ^ 31) mod 2 ^ 32 - 2 ^ 31.
Definition UINT8 (z : Z) : Z := z mod 2 ^ 8.

Inductive Exn := out_of_range | null_pointer.

Inductive Result (A : Type) : Type :=
| Ok (a : A)
| Throw (e : Exn).
Arguments Ok {A} a.
Arguments Throw {A} e.

#[global] Instance Result_bind : MBind Result := λ A B k r,
  match r with
  | Ok a => k a
  | Throw e => Throw e
  end.

(** [std::vector::at]: bounds-checked access. *)
Definition at_ {A} (v : list A) (i : Z) : Result A :=
  if 0 <=? i then
    match v !! Z.to_nat i with
    | Some x => Ok x
    | None => Throw out_of_range
    end
  else Throw out_of_range.

(** ** SDM types used by the tone mapper

    The declarations are in headers outside this file; the records carry the
    members that [hwc_tonemapper.cpp] reads or writes, and the neighbouring
    members of [LayerBuffer] that a frame condition has to speak about. *)

Inductive DisplayError :=
| kErrorNone
| kErrorUndefined
| kErrorNotSupported
| kErrorParameters
| kErrorMemory
| kErrorResources.

#[global] Instance DisplayError_eq_dec : EqDecision DisplayError.
Proof. solve_decision. Defined.

Inductive LayerComposition :=
| kCompositionGPU
| kCompositionSDE
| kCompositionCursor
| kCompositionGPUTarget.

#[global] Instance LayerComposition_eq_dec : EqDecision LayerComposition.
Proof. solve_decision. Defined.

Inductive ToneMapType := TONEMAP_FORWARD | TONEMAP_INVERSE.

#[global] Instance ToneMapType_eq_dec : EqDecision ToneMapType.
Proof. solve_decision. Defined.

(** Enumerations that are only copied and compared are kept as their codes. *)
Definition ColorPrimaries := Z.
Definition GammaTransfer := Z.
Definition LayerBufferFormat := Z.

Record PrimariesTransfer := {
  primaries : ColorPrimaries;
  pt_transfer : GammaTransfer
}.

#[global] Instance PrimariesTransfer_eq_dec : EqDecision PrimariesTransfer.
Proof. solve_decision. Defined.

(** [shared_ptr<Fence>].  The tone mapper never looks inside a fence, so a
    fence is the term that says how it was obtained. *)
Inductive FencePtr :=
| NullFence
| PipelineFence (id : positive)
| Fence_Merge (a b : FencePtr)
| Fence_Create (raw : Z).

Record ColorMetaData := {
  colorPrimaries : ColorPrimaries;
  transfer : GammaTransfer
}.

Record LayerBufferPlane := {
  fd : Z;
  offset : Z;
  stride : Z
}.

Record LayerBufferFlags := {
  hdr : bool;
  lb_secure : bool;
  video : bool
}.

Record LayerBuffer := {
  width : Z;
  height : Z;
  unaligned_width : Z;
  unaligned_height : Z;
  size : Z;
  format : LayerBufferFormat;
  color_metadata : ColorMetaData;
  planes0 : LayerBufferPlane;
  planes1 : LayerBufferPlane;
  planes2 : LayerBufferPlane;
  planes3 : LayerBufferPlane;
  acquire_fence : FencePtr;
  release_fence : FencePtr;
  flags : LayerBufferFlags;
  buffer_id : Z;
  handle_id : Z
}.

Record LayerRequestFlags := {
  tone_map : bool;
  secure : bool
}.

Record LayerRequest := {
  rq_flags : LayerRequestFlags;
  rq_format : LayerBufferFormat;
  rq_width : Z;
  rq_height : Z
}.

(** [lutEntries] and [gridEntries] are pointers: [None] is [NULL]. *)
Record Lut3d := {
  lutEntries : option positive;
  dim : Z;
  validGridEntries : bool;
  gridEntries : option positive;
  gridSize : Z
}.

Record Layer := {
  composition : LayerComposition;
  input_buffer : LayerBuffer;
  request : LayerRequest;
  lut_3d : Lut3d
}.

Record LayerStack := {
  layers : list Layer;
  blend_cs : PrimariesTransfer
}.

Record BufferConfig := {
  bc_width : Z;
  bc_height : Z;
  bc_format : LayerBufferFormat;
  bc_secure : bool;
  gfx_client : bool
}.

Record AllocatedBufferInfo := {
  ab_fd : Z;
  ab_size : Z;
  ab_id : Z
}.

(** [private_data] is the native handle of the allocation, [None] when the
    slot holds none. *)
Record BufferInfo := {
  buffer_config : BufferConfig;
  alloc_buffer_info : AllocatedBufferInfo;
  private_data : option positive
}.

Definition kFormatInvalid : LayerBufferFormat := 4294967295.

(** A default-constructed [BufferInfo]: no handle.  The tone mapper writes
    the configuration, and the allocator the allocation data, before either
    is read. *)
Definition BufferInfo_default : BufferInfo :=
  {| buffer_config := {| bc_width := 0; bc_height := 0; bc_format := kFormatInvalid;
                         bc_secure := false; gfx_client := false |};
     alloc_buffer_info := {| ab_fd := -1; ab_size := 0; ab_id := 0 |};
     private_data := None |}.

(** ** The world outside the tone mapper *)

(** What gralloc keeps for a live allocation. *)
Record GrallocBuffer := {
  gb_config : BufferConfig;
  gb_unaligned_width : Z;
  gb_unaligned_height : Z
}.

(** The arguments an engine was created with by [TonemapperFactory_GetInstance]. *)
Record EngineConfig := {
  ec_type : ToneMapType;
  ec_lutEntries : option positive;
  ec_dim : Z;
  ec_gridEntries : option positive;
  ec_gridSize : Z;
  ec_secure : bool
}.

Record BlitCall := {
  blit_engine : positive;
  blit_dst : option positive;
  blit_src : Z;
  blit_wait : FencePtr
}.

Inductive AllocOutcome :=
| AllocOk (info : AllocatedBufferInfo) (unaligned_w unaligned_h : Z)
| AllocFail (e : DisplayError).

(** What the environment answers to one dump attempt of
    [DumpToneMapOutput]: the error of [MapBuffer], whether the base pointer
    it stored is non-null, and whether [fopen] of the dump file succeeds. *)
Record MapAnswer := {
  map_error : DisplayError;
  map_base_ptr : bool;
  map_fopen : bool
}.

(** The live resources ([w_buffers], [w_engines]), the log of blits and
    dumps, and what the services will answer to the coming calls: the
    scripts are consumed one entry per call, so that every run of the
    services is some choice of scripts. *)
Record World := {
  w_buffers : gmap positive GrallocBuffer;
  w_engines : gmap positive EngineConfig;
  w_blits : list BlitCall;
  w_dumps : list (option positive * Z);
  w_alloc_script : list AllocOutcome;
  w_factory_script : list bool;
  w_blit_script : list Z;
  w_map_script : list MapAnswer
}.

Definition set_buffers (b : gmap positive GrallocBuffer) (w : World) : World :=
  {| w_buffers := b; w_engines := w_engines w; w_blits := w_blits w;
     w_dumps := w_dumps w; w_alloc_script := w_alloc_script w;
     w_factory_script := w_factory_script w; w_blit_script := w_blit_script w;
     w_map_script := w_map_script w |}.

Definition set_engines (e : gmap positive EngineConfig) (w : World) : World :=
  {| w_buffers := w_buffers w; w_engines := e; w_blits := w_blits w;
     w_dumps := w_dumps w; w_alloc_script := w_alloc_script w;
     w_factory_script := w_factory_script w; w_blit_script := w_blit_script w;
     w_map_script := w_map_script w |}.

Definition set_blits (b : list BlitCall) (w : World) : World :=
  {| w_buffers := w_buffers w; w_engines := w_engines w; w_blits := b;
     w_dumps := w_dumps w; w_alloc_script := w_alloc_script w;
     w_factory_script := w_factory_script w; w_blit_script := w_blit_script w;
     w_map_script := w_map_script w |}.

Definition set_dumps (d : list (option positive * Z)) (w : World) : World :=
  {| w_buffers := w_buffers w; w_engines := w_engines w; w_blits := w_blits w;
     w_dumps := d; w_alloc_script := w_alloc_script w;
     w_factory_script := w_factory_script w; w_blit_script := w_blit_script w;
     w_map_script := w_map_script w |}.

Definition set_alloc_script (s : list AllocOutcome) (w : World) : World :=
  {| w_buffers := w_buffers w; w_engines := w_engines w; w_blits := w_blits w;
     w_dumps := w_dumps w; w_alloc_script := s;
     w_factory_script := w_factory_script w; w_blit_script := w_blit_script w;
     w_map_script := w_map_script w |}.

Definition set_factory_script (s : list bool) (w : World) : World :=
  {| w_buffers := w_buffers w; w_engines := w_engines w; w_blits := w_blits w;
     w_dumps := w_dumps w; w_alloc_script := w_alloc_script w;
     w_factory_script := s; w_blit_script := w_blit_script w;
     w_map_script := w_map_script w |}.

Definition set_blit_script (s : list Z) (w : World) : World :=
  {| w_buffers := w_buffers w; w_engines := w_engines w; w_blits := w_blits w;
     w_dumps := w_dumps w; w_alloc_script := w_alloc_script w;
     w_factory_script := w_factory_script w; w_blit_script := s;
     w_map_script := w_map_script w |}.

Definition set_map_script (s : list MapAnswer) (w : World) : World :=
  {| w_buffers := w_buffers w; w_engines := w_engines w; w_blits := w_blits w;
     w_dumps := w_dumps w; w_alloc_script := w_alloc_script w;
     w_factory_script := w_factory_script w; w_blit_script := w_blit_script w;
     w_map_script := s |}.

(** Modelled from the spec: [HWCBufferAllocator::AllocateBuffer], whose body
    is not in this file ("Allocate(config) -> BufferHandle | AllocationError").
    A successful call hands out a handle that no live allocation has, records
    the configuration it was asked for and fills the allocation data; a failed
    call returns an error and leaves the record as it was.  With nothing left
    to answer, or with an answer that carries no error, the allocator is
    exhausted ([kErrorMemory]). *)
Definition AllocateBuffer (bi : BufferInfo) (w : World)
  : DisplayError * BufferInfo * World :=
  match w_alloc_script w with
  | [] => (kErrorMemory, bi, w)
  | AllocFail e :: rest =>
      (match e with kErrorNone => kErrorMemory | _ => e end,
       bi, set_alloc_script rest w)
  | AllocOk info uw uh :: rest =>
      let h := fresh (dom (w_buffers w)) in
      (kErrorNone,
       {| buffer_config := buffer_config bi;
          alloc_buffer_info := info;
          private_data := Some h |},
       set_alloc_script rest
         (set_buffers (<[h := {| gb_config := buffer_config bi;
                                 gb_unaligned_width := uw;
                                 gb_unaligned_height := uh |}]> (w_buffers w)) w))
  end.

(** Modelled from the spec: [HWCBufferAllocator::FreeBuffer] ("Free(handle)";
    a freed slot is empty, so that freeing is idempotent).  The allocation
    behind the handle is released and the record's handle is cleared. *)
Definition FreeBuffer (bi : BufferInfo) (w : World) : BufferInfo * World :=
  match private_data bi with
  | Some h =>
      ({| buffer_config := buffer_config bi;
          alloc_buffer_info := alloc_buffer_info bi;
          private_data := None |},
       set_buffers (delete h (w_buffers w)) w)
  | None => (bi, w)
  end.

(** Modelled from the spec: [GetUnalignedWidth] and [GetUnalignedHeight]
    ("GetUnalignedWidth/Height(handle) -> uint32"): what gralloc reports for
    the handle; [0] for a handle it does not know. *)
Definition GetUnalignedWidth (w : World) (handle : option positive) : Z :=
  match handle with
  | Some h => from_option gb_unaligned_width 0 (w_buffers w !! h)
  | None => 0
  end.

Definition GetUnalignedHeight (w : World) (handle : option positive) : Z :=
  match handle with
  | Some h => from_option gb_unaligned_height 0 (w_buffers w !! h)
  | None => 0
  end.

(** Modelled from the spec: [TonemapperFactory_GetInstance]
    ("Create(type, lutData, lutDim, gridEntries, gridSize, secure) ->
    EngineHandle | null"). *)
Definition TonemapperFactory_GetInstance (cfg : EngineConfig) (w : World)
  : option positive * World :=
  match w_factory_script w with
  | true :: rest =>
      let e := fresh (dom (w_engines w)) in
      (Some e, set_factory_script rest (set_engines (<[e := cfg]> (w_engines w)) w))
  | false :: rest => (None, set_factory_script rest w)
  | [] => (None, w)
  end.

(** Modelled from the spec: the engine's [blit]
    ("Blit(dst, src, waitFence) -> rawFenceInt").  The call is logged; the
    raw fence is the engine's to choose, [-1] when it has none. *)
Definition Tonemapper_blit (c : BlitCall) (w : World) : Z * World :=
  match w_blit_script w with
  | raw :: rest => (raw, set_blit_script rest (set_blits (w_blits w ++ [c]) w))
  | [] => (-1, set_blits (w_blits w ++ [c]) w)
  end.

(** [delete gpu_tone_mapper_]; deleting a null pointer does nothing. *)
Definition Tonemapper_delete (e : option positive) (w : World) : World :=
  match e with
  | Some h => set_engines (delete h (w_engines w)) w
  | None => w
  end.

(** ** ToneMapSession *)

Record ToneMapConfig := {
  type : ToneMapType;
  tc_blend_cs : PrimariesTransfer;
  tc_transfer : GammaTransfer;
  tc_secure : bool;
  tc_format : LayerBufferFormat
}.

Record ToneMapSession := {
  tone_map_config_ : ToneMapConfig;
  buffer_info_ : list BufferInfo;
  current_buffer_index_ : Z;
  gpu_tone_mapper_ : option positive;
  release_fence_ : list FencePtr;
  acquired_ : bool;
  layer_index_ : Z
}.

Definition set_tone_map_config (c : ToneMapConfig) (s : ToneMapSession) :=
  {| tone_map_config_ := c; buffer_info_ := buffer_info_ s;
     current_buffer_index_ := current_buffer_index_ s;
     gpu_tone_mapper_ := gpu_tone_mapper_ s; release_fence_ := release_fence_ s;
     acquired_ := acquired_ s; layer_index_ := layer_index_ s |}.

Definition set_buffer_info (b : list BufferInfo) (s : ToneMapSession) :=
  {| tone_map_config_ := tone_map_config_ s; buffer_info_ := b;
     current_buffer_index_ := current_buffer_index_ s;
     gpu_tone_mapper_ := gpu_tone_mapper_ s; release_fence_ := release_fence_ s;
     acquired_ := acquired_ s; layer_index_ := layer_index_ s |}.

Definition set_current_buffer_index (i : Z) (s : ToneMapSession) :=
  {| tone_map_config_ := tone_map_config_ s; buffer_info_ := buffer_info_ s;
     current_buffer_index_ := i;
     gpu_tone_mapper_ := gpu_tone_mapper_ s; release_fence_ := release_fence_ s;
     acquired_ := acquired_ s; layer_index_ := layer_index_ s |}.

Definition set_gpu_tone_mapper (e : option positive) (s : ToneMapSession) :=
  {| tone_map_config_ := tone_map_config_ s; buffer_info_ := buffer_info_ s;
     current_buffer_index_ := current_buffer_index_ s;
     gpu_tone_mapper_ := e; release_fence_ := release_fence_ s;
     acquired_ := acquired_ s; layer_index_ := layer_index_ s |}.

Definition set_release_fence (f : list FencePtr) (s : ToneMapSession) :=
  {| tone_map_config_ := tone_map_config_ s; buffer_info_ := buffer_info_ s;
     current_buffer_index_ := current_buffer_index_ s;
     gpu_tone_mapper_ := gpu_tone_mapper_ s; release_fence_ := f;
     acquired_ := acquired_ s; layer_index_ := layer_index_ s |}.

Definition set_acquired (a : bool) (s : ToneMapSession) :=
  {| tone_map_config_ := tone_map_config_ s; buffer_info_ := buffer_info_ s;
     current_buffer_index_ := current_buffer_index_ s;
     gpu_tone_mapper_ := gpu_tone_mapper_ s; release_fence_ := release_fence_ s;
     acquired_ := a; layer_index_ := layer_index_ s |}.

Definition set_layer_index (i : Z) (s : ToneMapSession) :=
  {| tone_map_config_ := tone_map_config_ s; buffer_info_ := buffer_info_ s;
     current_buffer_index_ := current_buffer_index_ s;
     gpu_tone_mapper_ := gpu_tone_mapper_ s; release_fence_ := release_fence_ s;
     acquired_ := acquired_ s; layer_index_ := i |}.

Definition set_input_buffer (b : LayerBuffer) (l : Layer) : Layer :=
  {| composition := composition l; input_buffer := b;
     request := request l; lut_3d := lut_3d l |}.

(** Unchecked [operator[]] on the session's arrays; the model reads a
    default outside the array. *)
Definition buffer_info_at (s : ToneMapSession) (i : nat) : BufferInfo :=
  default BufferInfo_default (buffer_info_ s !! i).

Definition release_fence_at (s : ToneMapSession) (i : nat) : FencePtr :=
  default NullFence (release_fence_ s !! i).

Definition tonemap_type_of (buffer : LayerBuffer) : ToneMapType :=
  if hdr (flags buffer) then TONEMAP_FORWARD else TONEMAP_INVERSE.

Section ToneMapper.

(** [ToneMapSession::kNumIntermediateBuffers], a [uint8_t] constant whose
    value is set in the header. *)
Variable kNumIntermediateBuffers : nat.

(** Modelled from the spec: the member initialisers of [ToneMapSession],
    which are in the header (a new session has its cursor on the initial
    slot, no engine and no release fence, is not acquired and is bound to no
    layer; its configuration is set before it is read).  The constructor
    itself is [buffer_info_.resize(kNumIntermediateBuffers)]. *)
Definition ToneMapSession_new : ToneMapSession :=
  {| tone_map_config_ := {| type := TONEMAP_FORWARD;
                            tc_blend_cs := {| primaries := 0; pt_transfer := 0 |};
                            tc_transfer := 0; tc_secure := false; tc_format := 0 |};
     buffer_info_ := replicate kNumIntermediateBuffers BufferInfo_default;
     current_buffer_index_ := 0;
     gpu_tone_mapper_ := None;
     release_fence_ := replicate kNumIntermediateBuffers NullFence;
     acquired_ := false;
     layer_index_ := -1 |}.

(** [OnTask], case [kCodeGetInstance] (the cases of [OnTask] are those of a
    build without [TARGET_HEADLESS]; [PerformTask] runs the task to its end
    before it returns). *)
Definition OnTask_GetInstance (layer : Layer) (s : ToneMapSession) (w : World)
  : ToneMapSession * World :=
  let lut := lut_3d layer in
  let grid_entries := if validGridEntries lut then gridEntries lut else None in
  let grid_size := if validGridEntries lut then INT (gridSize lut) else 0 in
  let '(e, w') :=
    TonemapperFactory_GetInstance
      {| ec_type := type (tone_map_config_ s);
         ec_lutEntries := lutEntries lut; ec_dim := dim lut;
         ec_gridEntries := grid_entries; ec_gridSize := grid_size;
         ec_secure := tc_secure (tone_map_config_ s) |} w in
  (set_gpu_tone_mapper e s, w').

(** [OnTask], case [kCodeBlit]: the destination is the buffer under the
    cursor, the source the layer's buffer; the result is
    [Fence::Create(fence, "tonemap")]. *)
Definition OnTask_Blit (layer : Layer) (merged : FencePtr) (s : ToneMapSession)
  (w : World) : Result (FencePtr * World) :=
  let buffer_index := Z.to_nat (current_buffer_index_ s) in
  let dst_hnd := private_data (buffer_info_at s buffer_index) in
  let src_hnd := buffer_id (input_buffer layer) in
  match gpu_tone_mapper_ s with
  | None => Throw null_pointer
  | Some e =>
      let '(fence, w') :=
        Tonemapper_blit {| blit_engine := e; blit_dst := dst_hnd;
                           blit_src := src_hnd; blit_wait := merged |} w in
      Ok (Fence_Create fence, w')
  end.

(** [n] counts the iterations that [for (uint8_t i = ...; i <
    kNumIntermediateBuffers; i++)] still has to make. *)
Fixpoint FreeIntermediateBuffers_loop (n i : nat) (s : ToneMapSession) (w : World)
  : ToneMapSession * World :=
  match n with
  | O => (s, w)
  | S n' =>
      let buffer_info := buffer_info_at s i in
      match private_data buffer_info with
      | Some _ =>
          let '(buffer_info', w') := FreeBuffer buffer_info w in
          FreeIntermediateBuffers_loop n' (S i)
            (set_buffer_info (<[i := buffer_info']> (buffer_info_ s)) s) w'
      | None => FreeIntermediateBuffers_loop n' (S i) s w
      end
  end.

Definition FreeIntermediateBuffers (s : ToneMapSession) (w : World)
  : ToneMapSession * World :=
  FreeIntermediateBuffers_loop kNumIntermediateBuffers 0 s w.

Definition request_config (layer : Layer) : BufferConfig :=
  {| bc_width := rq_width (request layer);
     bc_height := rq_height (request layer);
     bc_format := rq_format (request layer);
     bc_secure := secure (rq_flags (request layer));
     gfx_client := true |}.

Fixpoint AllocateIntermediateBuffers_loop (n i : nat) (layer : Layer)
  (s : ToneMapSession) (w : World) : DisplayError * ToneMapSession * World :=
  match n with
  | O => (kErrorNone, s, w)
  | S n' =>
      let buffer_info := buffer_info_at s i in
      let buffer_info :=
        {| buffer_config := request_config layer;
           alloc_buffer_info := alloc_buffer_info buffer_info;
           private_data := private_data buffer_info |} in
      let '(error, buffer_info, w') := AllocateBuffer buffer_info w in
      let s' := set_buffer_info (<[i := buffer_info]> (buffer_info_ s)) s in
      if decide (error = kErrorNone)
      then AllocateIntermediateBuffers_loop n' (S i) layer s' w'
      else let '(s'', w'') := FreeIntermediateBuffers s' w' in (error, s'', w'')
  end.

Definition AllocateIntermediateBuffers (layer : Layer) (s : ToneMapSession)
  (w : World) : DisplayError * ToneMapSession * World :=
  AllocateIntermediateBuffers_loop kNumIntermediateBuffers 0 layer s w.

(** The destructor: [kCodeDestroy] deletes the engine, then the buffers are
    freed and [buffer_info_] is cleared with the object. *)
Definition ToneMapSession_delete (s : ToneMapSession) (w : World) : World :=
  snd (FreeIntermediateBuffers s (Tonemapper_delete (gpu_tone_mapper_ s) w)).

(** A member function that is not [const] returns the session with its
    result. *)
Definition UpdateBuffer (acquire_fence' : FencePtr) (buffer : LayerBuffer)
  (s : ToneMapSession) : ToneMapSession * LayerBuffer :=
  let cur := alloc_buffer_info
               (buffer_info_at s (Z.to_nat (current_buffer_index_ s))) in
  (s,
   {| width := width buffer; height := height buffer;
      unaligned_width := unaligned_width buffer;
      unaligned_height := unaligned_height buffer;
      size := ab_size cur;
      format := format buffer;
      color_metadata := color_metadata buffer;
      planes0 := {| fd := ab_fd cur; offset := offset (planes0 buffer);
                    stride := stride (planes0 buffer) |};
      planes1 := planes1 buffer; planes2 := planes2 buffer;
      planes3 := planes3 buffer;
      acquire_fence := acquire_fence';
      release_fence := release_fence buffer;
      flags := flags buffer;
      buffer_id := buffer_id buffer;
      handle_id := ab_id cur |}).

Definition SetReleaseFence (fd' : FencePtr) (s : ToneMapSession) : ToneMapSession :=
  set_release_fence
    (<[Z.to_nat (current_buffer_index_ s) := fd']> (release_fence_ s)) s.

Definition SetToneMapConfig (layer : Layer) (blend_cs' : PrimariesTransfer)
  (s : ToneMapSession) : ToneMapSession :=
  set_tone_map_config
    {| type := tonemap_type_of (input_buffer layer);
       tc_blend_cs := blend_cs';
       tc_transfer := transfer (color_metadata (input_buffer layer));
       tc_secure := secure (rq_flags (request layer));
       tc_format := rq_format (request layer) |} s.

Definition IsSameToneMapConfig (w : World) (layer : Layer)
  (blend_cs' : PrimariesTransfer) (s : ToneMapSession) : bool :=
  let buffer := input_buffer layer in
  let handle := private_data (buffer_info_at s 0) in
  let tonemap_type := tonemap_type_of buffer in
  let handle_unaligned_width := GetUnalignedWidth w handle in
  let handle_unaligned_height := GetUnalignedHeight w handle in
  bool_decide (tonemap_type = type (tone_map_config_ s))
  && bool_decide (blend_cs' = tc_blend_cs (tone_map_config_ s))
  && (transfer (color_metadata buffer) =? tc_transfer (tone_map_config_ s))
  && bool_decide (secure (rq_flags (request layer)) = tc_secure (tone_map_config_ s))
  && (rq_format (request layer) =? tc_format (tone_map_config_ s))
  && (rq_width (request layer) =? handle_unaligned_width)
  && (rq_height (request layer) =? handle_unaligned_height).

(** ** HWCToneMapper *)

Record HWCToneMapper := {
  tone_map_sessions_ : list ToneMapSession;
  fb_session_index_ : Z;
  dump_frame_count_ : Z;
  dump_frame_index_ : Z
}.

Definition set_sessions (v : list ToneMapSession) (m : HWCToneMapper) :=
  {| tone_map_sessions_ := v; fb_session_index_ := fb_session_index_ m;
     dump_frame_count_ := dump_frame_count_ m;
     dump_frame_index_ := dump_frame_index_ m |}.

Definition set_fb_session_index (i : Z) (m : HWCToneMapper) :=
  {| tone_map_sessions_ := tone_map_sessions_ m; fb_session_index_ := i;
     dump_frame_count_ := dump_frame_count_ m;
     dump_frame_index_ := dump_frame_index_ m |}.

Definition set_dump (count index : Z) (m : HWCToneMapper) :=
  {| tone_map_sessions_ := tone_map_sessions_ m;
     fb_session_index_ := fb_session_index_ m;
     dump_frame_count_ := count; dump_frame_index_ := index |}.

Definition SetFrameDumpConfig (count : Z) (m : HWCToneMapper) : HWCToneMapper :=
  set_dump count 0 m.

(** [DumpToneMapOutput], as far as the tone mapper's own state goes.
    Nothing happens when no dump is pending or [MapBuffer] fails (also when
    the environment has no answer left).  Otherwise the two counters move,
    and the frame is written to the dump file, under the frame index of
    before, only if the base pointer is non-null and [fopen] succeeds. *)
Definition DumpToneMapOutput (session : ToneMapSession) (acquire_fd : FencePtr)
  (m : HWCToneMapper) (w : World) : HWCToneMapper * World :=
  if dump_frame_count_ m =? 0 then (m, w)
  else
    let target_buffer :=
      private_data (buffer_info_at session (Z.to_nat (current_buffer_index_ session))) in
    match w_map_script w with
    | [] => (m, w)
    | answer :: rest =>
        let w1 := set_map_script rest w in
        if decide (map_error answer = kErrorNone) then
          let w2 :=
            if map_base_ptr answer && map_fopen answer
            then set_dumps (w_dumps w ++ [(target_buffer, dump_frame_index_ m)]) w1
            else w1 in
          (set_dump (UINT32 (dump_frame_count_ m - 1))
                    (UINT32 (dump_frame_index_ m + 1)) m,
           w2)
        else (m, w1)
    end.

(** The scan of [AcquireToneMapSession] for a session to use again: the
    position of the first one that is not acquired and has the same
    configuration, with that session advanced and acquired. *)
Fixpoint AcquireToneMapSession_scan (w : World) (layer : Layer)
  (blend_cs' : PrimariesTransfer) (i : nat) (rest : list ToneMapSession)
  : option (nat * ToneMapSession) :=
  match rest with
  | [] => None
  | tonemap_session :: rest' =>
      if negb (acquired_ tonemap_session)
         && IsSameToneMapConfig w layer blend_cs' tonemap_session
      then Some (i,
                 set_acquired true
                   (set_current_buffer_index
                      (UINT8 (Z.rem (current_buffer_index_ tonemap_session + 1)
                                    (Z.of_nat kNumIntermediateBuffers)))
                      tonemap_session))
      else AcquireToneMapSession_scan w layer blend_cs' (S i) rest'
  end.

(** [session_index] is the value behind the out-parameter, which is written
    only on success.  [new] does not return null, so the branch for a null
    session is never taken. *)
Definition AcquireToneMapSession (layer : Layer) (session_index : Z)
  (blend_cs' : PrimariesTransfer) (m : HWCToneMapper) (w : World)
  : DisplayError * Z * HWCToneMapper * World :=
  if bool_decide (lutEntries (lut_3d layer) = None) || (dim (lut_3d layer) =? 0)
  then (kErrorParameters, session_index, m, w)
  else
    match AcquireToneMapSession_scan w layer blend_cs' 0 (tone_map_sessions_ m) with
    | Some (i, tonemap_session) =>
        (kErrorNone, UINT32 (Z.of_nat i),
         set_sessions (<[i := tonemap_session]> (tone_map_sessions_ m)) m, w)
    | None =>
        let session := SetToneMapConfig layer blend_cs' ToneMapSession_new in
        let '(session, w1) := OnTask_GetInstance layer session w in
        match gpu_tone_mapper_ session with
        | None => (kErrorNotSupported, session_index, m, ToneMapSession_delete session w1)
        | Some _ =>
            let '(error, session, w2) := AllocateIntermediateBuffers layer session w1 in
            if decide (error = kErrorNone)
            then
              let session := set_acquired true session in
              let v := tone_map_sessions_ m ++ [session] in
              (kErrorNone, UINT32 (Z.of_nat (length v) - 1), set_sessions v m, w2)
            else (error, session_index, m, ToneMapSession_delete session w2)
        end
    end.

Definition ToneMap (layer : Layer) (session : ToneMapSession) (m : HWCToneMapper)
  (w : World) : Result (Layer * ToneMapSession * HWCToneMapper * World) :=
  let buffer_index := Z.to_nat (current_buffer_index_ session) in
  let merged := Fence_Merge (release_fence_at session buffer_index)
                            (acquire_fence (input_buffer layer)) in
  '(fence, w1) ← OnTask_Blit layer merged session w;
  let '(m', w2) := DumpToneMapOutput session fence m w1 in
  let '(session', buffer) := UpdateBuffer fence (input_buffer layer) session in
  Ok (set_input_buffer buffer layer, session', m', w2).

(** [n] counts the sessions still in the vector: each turn of
    [while (!tone_map_sessions_.empty())] deletes and pops the last one. *)
Fixpoint Terminate_loop (n : nat) (v : list ToneMapSession) (w : World)
  : list ToneMapSession * World :=
  match n with
  | O => (v, w)
  | S n' =>
      match last v with
      | Some back => Terminate_loop n' (removelast v) (ToneMapSession_delete back w)
      | None => (v, w)
      end
  end.

Definition Terminate (m : HWCToneMapper) (w : World) : HWCToneMapper * World :=
  if negb (length (tone_map_sessions_ m) =? 0)%nat then
    let '(v, w') :=
      Terminate_loop (length (tone_map_sessions_ m)) (tone_map_sessions_ m) w in
    (set_fb_session_index (-1) (set_sessions v m), w')
  else (m, w).

(** What one turn of the loop of [HandleToneMap] does next. *)
Inductive Flow :=
| Continue (gpu_count : Z)
| Return (status : Z).

(** The part of a turn after [AcquireToneMapSession]: the error check, the
    blit and the binding of the session to layer [i]. *)
Definition HandleToneMap_acquired (i : nat) (gpu_count : Z) (layer : Layer)
  (error : DisplayError) (session_index : Z) (m : HWCToneMapper) (w : World)
  : Result (Flow * Layer * HWCToneMapper * World) :=
  if decide (error = kErrorNone) then
    session ← at_ (tone_map_sessions_ m) session_index;
    '(layer', session, m', w') ← ToneMap layer session m w;
    let session := set_layer_index (INT (Z.of_nat i)) session in
    Ok (Continue gpu_count, layer',
        set_sessions (<[Z.to_nat session_index := session]> (tone_map_sessions_ m')) m',
        w')
  else
    let '(m', w') := Terminate m w in
    Ok (Return (-1), layer, m', w').

(** One turn of the loop of [HandleToneMap], for the layer at index [i]. *)
Definition HandleToneMap_layer (blend_cs' : PrimariesTransfer) (i : nat)
  (gpu_count : Z) (layer : Layer) (m : HWCToneMapper) (w : World)
  : Result (Flow * Layer * HWCToneMapper * World) :=
  let session_index := 0 in
  let gpu_count :=
    if decide (composition layer = kCompositionGPU)
    then UINT32 (gpu_count + 1) else gpu_count in
  if tone_map (rq_flags (request layer)) then
    match composition layer with
    | kCompositionGPUTarget =>
        if (gpu_count =? 0)
           && (negb (length (tone_map_sessions_ m) =? 0)%nat
               && (0 <=? fb_session_index_ m))
        then
          fb_tone_map_session ←
            at_ (tone_map_sessions_ m) (UINT32 (fb_session_index_ m));
          let '(fb_tone_map_session, buffer) :=
            UpdateBuffer NullFence (input_buffer layer) fb_tone_map_session in
          let fb_tone_map_session :=
            set_acquired true
              (set_layer_index (INT (Z.of_nat i)) fb_tone_map_session) in
          Ok (Return 0, set_input_buffer buffer layer,
              set_sessions (<[Z.to_nat (UINT32 (fb_session_index_ m))
                              := fb_tone_map_session]> (tone_map_sessions_ m)) m,
              w)
        else
          let '(error, session_index, m1, w1) :=
            AcquireToneMapSession layer session_index blend_cs' m w in
          let m1 := set_fb_session_index (INT session_index) m1 in
          HandleToneMap_acquired i gpu_count layer error session_index m1 w1
    | _ =>
        let '(error, session_index, m1, w1) :=
          AcquireToneMapSession layer session_index blend_cs' m w in
        HandleToneMap_acquired i gpu_count layer error session_index m1 w1
    end
  else Ok (Continue gpu_count, layer, m, w).

(** The loop of [HandleToneMap]: [done] are the layers already visited (as
    the visit left them), [todo] the layers from index [length done] on. *)
Fixpoint HandleToneMap_loop (blend_cs' : PrimariesTransfer) (done : list Layer)
  (gpu_count : Z) (todo : list Layer) (m : HWCToneMapper) (w : World)
  : Result (Z * list Layer * HWCToneMapper * World) :=
  match todo with
  | [] => Ok (0, done, m, w)
  | layer :: rest =>
      r ← HandleToneMap_layer blend_cs' (length done) gpu_count layer m w;
      match r with
      | (Continue gpu_count', layer', m', w') =>
          HandleToneMap_loop blend_cs' (done ++ [layer']) gpu_count' rest m' w'
      | (Return status, layer', m', w') =>
          Ok (status, done ++ layer' :: rest, m', w')
      end
  end.

Definition HandleToneMap (layer_stack : LayerStack) (m : HWCToneMapper) (w : World)
  : Result (Z * LayerStack * HWCToneMapper * World) :=
  '(status, layers', m', w') ←
    HandleToneMap_loop (blend_cs layer_stack) [] 0 (layers layer_stack) m w;
  Ok (status, {| layers := layers'; blend_cs := blend_cs layer_stack |}, m', w').

(** The loop of [PostCommit]: the vector is [kept ++ rest] and the iterator
    stands on the head of [rest], which is the session that
    [at(session_index)] returns. *)
Fixpoint PostCommit_loop (layers' : list Layer) (kept rest : list ToneMapSession)
  (fb : Z) (w : World) : Result (list ToneMapSession * Z * World) :=
  match rest with
  | [] => Ok (kept, fb, w)
  | session :: rest' =>
      let session_index := UINT32 (Z.of_nat (length kept)) in
      if acquired_ session then
        layer ← at_ layers' (UINT32 (layer_index_ session));
        let layer_buffer := input_buffer layer in
        let session := SetReleaseFence (release_fence layer_buffer) session in
        let session := set_acquired false session in
        PostCommit_loop layers' (kept ++ [session]) rest' fb w
      else
        let w' := ToneMapSession_delete session w in
        let deleted_session := INT session_index in
        let fb' :=
          if deleted_session =? fb then -1
          else if deleted_session <? fb then fb - 1
          else fb in
        PostCommit_loop layers' kept rest' fb' w'
  end.

Definition PostCommit (layer_stack : LayerStack) (m : HWCToneMapper) (w : World)
  : Result (HWCToneMapper * World) :=
  '(v, fb, w') ←
    PostCommit_loop (layers layer_stack) [] (tone_map_sessions_ m)
                    (fb_session_index_ m) w;
  Ok (set_fb_session_index fb (set_sessions v m), w').

End ToneMapper.

(** * Properties *)

(** ** Casts *)

Lemma INT_small z : -2 ^ 31 <= z < 2 ^ 31 → INT z = z.
Proof. intros H. unfold INT. rewrite Z.mod_small; lia. Qed.

Lemma UINT32_small z : 0 <= z < 2 ^ 32 → UINT32 z = z.
Proof. intros H. unfold UINT32. apply Z.mod_small; lia. Qed.

Lemma INT_UINT32_small z : 0 <= z < 2 ^ 31 → INT (UINT32 z) = z.
Proof. intros H. rewrite UINT32_small by lia. apply INT_small; lia. Qed.

(** ** The session's predicates and buffer records *)

(** C3.  [IsSameToneMapConfig] answers [true] exactly when the direction
    derived from the layer's HDR flag, the blend colour space, the transfer
    function, the secure flag and the requested format equal the session's
    configuration and the requested width and height equal the unaligned
    width and height that the allocator reports for the handle of the
    session's first buffer; it answers [false] exactly when one of the seven
    differs. *)
Theorem IsSameToneMapConfig_iff (w : World) (layer : Layer)
  (cs : PrimariesTransfer) (s : ToneMapSession) :
  let cfg := tone_map_config_ s in
  let handle := private_data (buffer_info_at s 0) in
  (IsSameToneMapConfig w layer cs s = true ↔
     (if hdr (flags (input_buffer layer)) then TONEMAP_FORWARD else TONEMAP_INVERSE)
     = type cfg
     ∧ cs = tc_blend_cs cfg
     ∧ transfer (color_metadata (input_buffer layer)) = tc_transfer cfg
     ∧ secure (rq_flags (request layer)) = tc_secure cfg
     ∧ rq_format (request layer) = tc_format cfg
     ∧ rq_width (request layer) = GetUnalignedWidth w handle
     ∧ rq_height (request layer) = GetUnalignedHeight w handle)
  ∧ (IsSameToneMapConfig w layer cs s = false ↔
     (if hdr (flags (input_buffer layer)) then TONEMAP_FORWARD else TONEMAP_INVERSE)
     ≠ type cfg
     ∨ cs ≠ tc_blend_cs cfg
     ∨ transfer (color_metadata (input_buffer layer)) ≠ tc_transfer cfg
     ∨ secure (rq_flags (request layer)) ≠ tc_secure cfg
     ∨ rq_format (request layer) ≠ tc_format cfg
     ∨ rq_width (request layer) ≠ GetUnalignedWidth w handle
     ∨ rq_height (request layer) ≠ GetUnalignedHeight w handle).
Proof.
  intros cfg handle.
  change (if hdr (flags (input_buffer layer)) then TONEMAP_FORWARD else TONEMAP_INVERSE)
    with (tonemap_type_of (input_buffer layer)).
  unfold IsSameToneMapConfig. fold cfg. fold handle.
  split.
  - rewrite !andb_true_iff, !bool_decide_eq_true, !Z.eqb_eq. tauto.
  - rewrite !andb_false_iff, !bool_decide_eq_false, !Z.eqb_neq. tauto.
Qed.

(** C10.  [UpdateBuffer] writes four members of the layer's buffer record:
    the acquire fence (the fence given) and the size, the descriptor of
    plane 0 and the handle id (those of the buffer under the session's
    cursor).  Every other member of the record, and the session, are as
    before. *)
Theorem UpdateBuffer_frame (fence : FencePtr) (buffer : LayerBuffer)
  (s : ToneMapSession) :
  let cur := alloc_buffer_info
               (buffer_info_at s (Z.to_nat (current_buffer_index_ s))) in
  let s' := (UpdateBuffer fence buffer s).1 in
  let buffer' := (UpdateBuffer fence buffer s).2 in
  s' = s
  ∧ acquire_fence buffer' = fence
  ∧ size buffer' = ab_size cur
  ∧ fd (planes0 buffer') = ab_fd cur
  ∧ handle_id buffer' = ab_id cur
  ∧ width buffer' = width buffer
  ∧ height buffer' = height buffer
  ∧ unaligned_width buffer' = unaligned_width buffer
  ∧ unaligned_height buffer' = unaligned_height buffer
  ∧ format buffer' = format buffer
  ∧ color_metadata buffer' = color_metadata buffer
  ∧ offset (planes0 buffer') = offset (planes0 buffer)
  ∧ stride (planes0 buffer') = stride (planes0 buffer)
  ∧ planes1 buffer' = planes1 buffer
  ∧ planes2 buffer' = planes2 buffer
  ∧ planes3 buffer' = planes3 buffer
  ∧ release_fence buffer' = release_fence buffer
  ∧ flags buffer' = flags buffer
  ∧ buffer_id buffer' = buffer_id buffer.
Proof. cbv zeta. unfold UpdateBuffer. simpl. repeat split. Qed.

Section Properties.

Variable N : nat.

(** ** Terminate *)

Lemma Terminate_loop_all (v : list ToneMapSession) :
  ∀ w, Terminate_loop N (length v) v w = ([], foldr (ToneMapSession_delete N) w v).
Proof.
  induction v as [|back v IH] using rev_ind; intros w; [reflexivity|].
  rewrite length_app, Nat.add_comm. simpl.
  rewrite last_snoc, removelast_last, IH, foldr_app. reflexivity.
Qed.

(** C9, as the code has it.  After [Terminate] the collection is empty and
    every session that was live has been deleted, the last one first.  The
    remembered frame-buffer index is [-1] when the collection held a session
    at the call; when it was empty already, [Terminate] does nothing and the
    index keeps its value. *)
Theorem Terminate_spec (m : HWCToneMapper) (w : World) :
  tone_map_sessions_ (Terminate N m w).1 = []
  ∧ (Terminate N m w).2 = foldr (ToneMapSession_delete N) w (tone_map_sessions_ m)
  ∧ fb_session_index_ (Terminate N m w).1
    = (if decide (tone_map_sessions_ m = []) then fb_session_index_ m else -1)
  ∧ dump_frame_count_ (Terminate N m w).1 = dump_frame_count_ m
  ∧ dump_frame_index_ (Terminate N m w).1 = dump_frame_index_ m.
Proof.
  unfold Terminate. destruct (tone_map_sessions_ m) as [|s v] eqn:Hv.
  - simpl. rewrite Hv. repeat split.
  - rewrite Terminate_loop_all.
    change (negb (length (s :: v) =? 0)%nat) with true. cbv iota.
    rewrite decide_False by discriminate. repeat split.
Qed.

End Properties.

(** ** Buffers held by a session and buffers live in gralloc *)

Definition clear_slot (b : BufferInfo) : BufferInfo :=
  {| buffer_config := buffer_config b;
     alloc_buffer_info := alloc_buffer_info b;
     private_data := None |}.

(** The handles in a pool, slot by slot. *)
Definition held (bs : list BufferInfo) : list positive := omap private_data bs.

Definition release_all (hs : list positive) (live : gmap positive GrallocBuffer)
  : gmap positive GrallocBuffer :=
  foldl (λ live h, delete h live) live hs.

Lemma set_buffers_id w : set_buffers (w_buffers w) w = w.
Proof. by destruct w. Qed.

Lemma set_buffer_info_id s : set_buffer_info (buffer_info_ s) s = s.
Proof. by destruct s. Qed.

Lemma clear_slot_empty b : private_data b = None → clear_slot b = b.
Proof. destruct b; simpl; intros ->; reflexivity. Qed.

Lemma lookup_release_all hs : ∀ live h,
  release_all hs live !! h = if decide (h ∈ hs) then None else live !! h.
Proof.
  induction hs as [|a hs IH]; intros live h.
  - destruct (decide (h ∈ [])) as [Hin|_]; [|done]. by apply elem_of_nil in Hin.
  - change (release_all (a :: hs) live) with (release_all hs (delete a live)).
    rewrite IH.
    destruct (decide (h ∈ hs)) as [Hin|Hin];
      destruct (decide (h ∈ a :: hs)) as [Hin'|Hin']; try done.
    + exfalso. apply Hin'. by right.
    + apply elem_of_cons in Hin' as [->|?]; [|done]. apply lookup_delete_eq.
    + apply lookup_delete_ne. intros ->. apply Hin'. by left.
Qed.

Lemma held_app bs1 bs2 : held (bs1 ++ bs2) = held bs1 ++ held bs2.
Proof. apply omap_app. Qed.

Section Pool.

Variable N : nat.

Lemma FreeIntermediateBuffers_loop_spec (n : nat) : ∀ (i : nat) s w,
  (i + n = length (buffer_info_ s))%nat →
  FreeIntermediateBuffers_loop n i s w
  = (set_buffer_info
       (take i (buffer_info_ s) ++ (clear_slot <$> drop i (buffer_info_ s))) s,
     set_buffers (release_all (held (drop i (buffer_info_ s))) (w_buffers w)) w).
Proof.
  induction n as [|n IH]; intros i s w Hlen; simpl.
  - rewrite drop_ge, take_ge by lia. simpl.
    rewrite app_nil_r, set_buffer_info_id, set_buffers_id. reflexivity.
  - destruct (lookup_lt_is_Some_2 (buffer_info_ s) i) as [b Hb]; [lia|].
    unfold buffer_info_at. rewrite Hb. cbn [default from_option id].
    rewrite (drop_S _ _ _ Hb), fmap_cons.
    unfold held. cbn [omap list_omap]. fold (held (drop (S i) (buffer_info_ s))).
    destruct (private_data b) as [h|] eqn:Hpd.
    + unfold FreeBuffer. rewrite Hpd. fold (clear_slot b).
      rewrite IH by (cbn; rewrite length_insert; lia). cbn [buffer_info_ set_buffer_info].
      rewrite drop_insert_lt by lia.
      rewrite (take_S_r (<[i:=clear_slot b]> (buffer_info_ s)) i (clear_slot b))
        by (apply list_lookup_insert_eq; lia).
      rewrite take_insert_ge by lia. rewrite <- app_assoc. reflexivity.
    + rewrite IH by lia.
      rewrite (take_S_r _ _ _ Hb), <- app_assoc.
      rewrite (clear_slot_empty b Hpd). reflexivity.
Qed.

Lemma FreeIntermediateBuffers_spec s w :
  length (buffer_info_ s) = N →
  FreeIntermediateBuffers N s w
  = (set_buffer_info (clear_slot <$> buffer_info_ s) s,
     set_buffers (release_all (held (buffer_info_ s)) (w_buffers w)) w).
Proof.
  intros Hlen. unfold FreeIntermediateBuffers.
  rewrite FreeIntermediateBuffers_loop_spec by (simpl; lia). reflexivity.
Qed.

(** What the allocator answers to the call after [j] earlier ones. *)
Definition alloc_answer (o : option AllocOutcome) : DisplayError :=
  match o with
  | Some (AllocOk _ _ _) => kErrorNone
  | Some (AllocFail kErrorNone) => kErrorMemory
  | Some (AllocFail e) => e
  | None => kErrorMemory
  end.

Definition script_answer (script : list AllocOutcome) (j : nat) : DisplayError :=
  alloc_answer (script !! j).

Definition fresh_handle (w : World) : positive :=
  fresh (dom (w_buffers w) : gset positive).

Lemma fresh_handle_free w : w_buffers w !! fresh_handle w = None.
Proof.
  apply (not_elem_of_dom (D := gset positive)). unfold fresh_handle.
  apply is_fresh.
Qed.

Lemma AllocateBuffer_view bi w :
  (∃ info uw uh rest,
      w_alloc_script w = AllocOk info uw uh :: rest
      ∧ AllocateBuffer bi w
        = (kErrorNone,
           {| buffer_config := buffer_config bi; alloc_buffer_info := info;
              private_data := Some (fresh_handle w) |},
           set_alloc_script rest
             (set_buffers (<[fresh_handle w :=
                              {| gb_config := buffer_config bi;
                                 gb_unaligned_width := uw;
                                 gb_unaligned_height := uh |}]> (w_buffers w)) w)))
  ∨ (script_answer (w_alloc_script w) 0 ≠ kErrorNone
     ∧ AllocateBuffer bi w
       = (script_answer (w_alloc_script w) 0, bi,
          set_alloc_script (tail (w_alloc_script w)) w)).
Proof.
  unfold AllocateBuffer, script_answer.
  destruct w as [bufs engs blits dumps script fs bs ms]. simpl.
  destruct script as [|[info uw uh|e] rest]; simpl.
  - right. split; [discriminate | reflexivity].
  - left. eauto 10.
  - right. split; [by destruct e | by destruct e].
Qed.

Lemma release_all_snoc hs h live :
  release_all (hs ++ [h]) live = delete h (release_all hs live).
Proof. unfold release_all. by rewrite foldl_app. Qed.

Lemma release_all_fresh hs h g live :
  live !! h = None →
  delete h (release_all hs (<[h:=g]> live)) = release_all hs live.
Proof.
  intros Hfresh. apply map_eq. intros x.
  destruct (decide (x = h)) as [->|Hne].
  - rewrite lookup_delete_eq, lookup_release_all. by destruct (decide (h ∈ hs)).
  - rewrite lookup_delete_ne by done. rewrite !lookup_release_all.
    by rewrite lookup_insert_ne.
Qed.

Lemma held_nil_cons b bs : held (b :: bs) = [] → private_data b = None ∧ held bs = [].
Proof. unfold held. simpl. destruct (private_data b); [discriminate | done]. Qed.

Section Allocate.

Variable layer : Layer.

Let with_request (b : BufferInfo) : BufferInfo :=
  {| buffer_config := request_config layer;
     alloc_buffer_info := alloc_buffer_info b;
     private_data := private_data b |}.

(** A failed [AllocateIntermediateBuffers] leaves every slot empty, and
    what is live afterwards was live before and is in none of the slots
    that the loop had passed. *)
Lemma AllocateIntermediateBuffers_loop_rollback (n : nat) : ∀ (i : nat) s w err s' w',
  (i + n = N)%nat → length (buffer_info_ s) = N →
  AllocateIntermediateBuffers_loop N n i layer s w = (err, s', w') →
  err ≠ kErrorNone →
  length (buffer_info_ s') = N
  ∧ Forall (λ b, private_data b = None) (buffer_info_ s')
  ∧ (∀ h b, w_buffers w' !! h = Some b →
            w_buffers w !! h = Some b ∧ h ∉ held (take i (buffer_info_ s)))
  ∧ (held (drop i (buffer_info_ s)) = [] →
     w_buffers w' = release_all (held (take i (buffer_info_ s))) (w_buffers w))
  ∧ w_engines w' = w_engines w ∧ w_blits w' = w_blits w.
Proof.
  induction n as [|n IH]; intros i s w err s' w' Hin Hlen Hrun Herr;
    simpl in Hrun.
  { by simplify_eq. }
  destruct (lookup_lt_is_Some_2 (buffer_info_ s) i) as [b Hb]; [lia|].
  unfold buffer_info_at in Hrun. rewrite Hb in Hrun. cbn [default from_option id] in Hrun.
  fold (with_request b) in Hrun.
  destruct (AllocateBuffer_view (with_request b) w)
    as [(info & uw & uh & rest & Hscript & ->)|[Hfail ->]] in Hrun.
  - (* slot [i] is allocated, the loop goes on *)
    rewrite decide_True in Hrun by done.
    apply IH in Hrun as (Hlen' & Hnone & Hlive & Hexact & Heng & Hblits);
      [|lia|by rewrite <- Hlen; cbn; rewrite length_insert|done].
    cbn [buffer_info_ set_buffer_info w_buffers set_alloc_script set_buffers
         w_engines w_blits] in *.
    rewrite (take_S_r _ i _ (list_lookup_insert_eq _ _ _ (lookup_lt_Some _ _ _ Hb)))
      in Hlive, Hexact.
    rewrite take_insert_ge, held_app in Hlive, Hexact by lia.
    rewrite drop_insert_lt in Hexact by lia.
    change (held [_]) with [fresh_handle w] in Hlive, Hexact.
    repeat split; try done.
    + destruct (Hlive h b0 H) as [Hl Hn].
      rewrite lookup_insert_ne in Hl; [done|]. intros <-. apply Hn.
      apply elem_of_app. right. by left.
    + destruct (Hlive h b0 H) as [_ Hn]. intros Hin'. apply Hn.
      apply elem_of_app. by left.
    + intros Hempty. rewrite (drop_S _ _ _ Hb) in Hempty.
      apply held_nil_cons in Hempty as [_ Hempty].
      rewrite (Hexact Hempty), release_all_snoc.
      apply release_all_fresh, fresh_handle_free.
  - (* the allocation for slot [i] fails: everything is freed *)
    rewrite decide_False in Hrun by done.
    rewrite FreeIntermediateBuffers_spec in Hrun
      by (rewrite <- Hlen; cbn; by rewrite length_insert).
    simplify_eq. cbn [buffer_info_ set_buffer_info w_buffers set_alloc_script set_buffers
         w_engines w_blits].
    assert (Hheld : held (<[i:=with_request b]> (buffer_info_ s))
                    = held (take i (buffer_info_ s))
                      ++ held (drop i (<[i:=with_request b]> (buffer_info_ s)))).
    { rewrite <- held_app. f_equal.
      rewrite <- (take_insert_ge (buffer_info_ s) i i (with_request b)) by lia.
      by rewrite take_drop. }
    repeat split; try done.
    + by rewrite length_fmap, length_insert.
    + apply Forall_fmap, Forall_true. done.
    + rewrite lookup_release_all in H. by destruct (decide (_ ∈ _)).
    + rewrite lookup_release_all in H. destruct (decide (_ ∈ _)) as [|Hn]; [done|].
      intros Hin'. apply Hn. rewrite Hheld. apply elem_of_app. by left.
    + intros Hempty. rewrite Hheld. f_equal.
      rewrite (drop_S _ _ _ Hb) in Hempty.
      apply held_nil_cons in Hempty as [Hpd Hempty].
      rewrite drop_insert_ge, Nat.sub_diag, (drop_S _ _ _ Hb) by lia.
      cbn. unfold held. cbn. rewrite Hpd. fold (held (drop (S i) (buffer_info_ s))).
      by rewrite Hempty, app_nil_r.
Qed.

(** Only the buffer records of the session change. *)
Lemma AllocateIntermediateBuffers_loop_session (n : nat) : ∀ (i : nat) s w err s' w',
  length (buffer_info_ s) = N →
  AllocateIntermediateBuffers_loop N n i layer s w = (err, s', w') →
  s' = set_buffer_info (buffer_info_ s') s.
Proof.
  induction n as [|n IH]; intros i s w err s' w' Hlen Hrun; simpl in Hrun.
  { simplify_eq. by rewrite set_buffer_info_id. }
  destruct (AllocateBuffer _ w) as [[e bi] w1].
  destruct (decide (e = kErrorNone)).
  - apply IH in Hrun; [|by cbn; rewrite length_insert]. rewrite Hrun at 1. reflexivity.
  - rewrite FreeIntermediateBuffers_spec in Hrun by (by cbn; rewrite length_insert).
    by simplify_eq.
Qed.

(** A successful [AllocateIntermediateBuffers] fills every slot from [i] on
    with a buffer of the requested configuration that was not live before,
    all of them different, and frees nothing. *)
Lemma AllocateIntermediateBuffers_loop_success (n : nat) : ∀ (i : nat) s w s' w',
  (i + n = N)%nat → length (buffer_info_ s) = N →
  AllocateIntermediateBuffers_loop N n i layer s w = (kErrorNone, s', w') →
  length (buffer_info_ s') = N
  ∧ take i (buffer_info_ s') = take i (buffer_info_ s)
  ∧ (∀ h g, w_buffers w !! h = Some g → w_buffers w' !! h = Some g)
  ∧ (∀ j, (i ≤ j < N)%nat → ∃ h info uw uh,
        buffer_info_ s' !! j
        = Some {| buffer_config := request_config layer;
                  alloc_buffer_info := info; private_data := Some h |}
        ∧ w_buffers w' !! h
          = Some {| gb_config := request_config layer;
                    gb_unaligned_width := uw; gb_unaligned_height := uh |}
        ∧ w_buffers w !! h = None)
  ∧ (∀ h, h ∈ held (drop i (buffer_info_ s')) → w_buffers w !! h = None)
  ∧ NoDup (held (drop i (buffer_info_ s')))
  ∧ w_engines w' = w_engines w ∧ w_blits w' = w_blits w.
Proof.
  induction n as [|n IH]; intros i s w s' w' Hin Hlen Hrun; simpl in Hrun.
  { simplify_eq. rewrite drop_ge by lia. repeat split; try done.
    - intros j Hj. lia.
    - intros h Hh. by apply elem_of_nil in Hh.
    - constructor. }
  destruct (lookup_lt_is_Some_2 (buffer_info_ s) i) as [b Hb]; [lia|].
  unfold buffer_info_at in Hrun. rewrite Hb in Hrun. cbn [default from_option id] in Hrun.
  fold (with_request b) in Hrun.
  destruct (AllocateBuffer_view (with_request b) w)
    as [(info & uw & uh & rest & Hscript & ->)|[Hfail ->]] in Hrun.
  2:{ rewrite decide_False in Hrun by done.
      destruct (FreeIntermediateBuffers _ _ _). by simplify_eq. }
  rewrite decide_True in Hrun by done.
  apply IH in Hrun as (Hlen' & Htake & Hmono & Hslots & Hfresh & Hnodup & Heng & Hblits);
    [|lia|by rewrite <- Hlen; cbn; rewrite length_insert].
  cbn [buffer_info_ set_buffer_info w_buffers set_alloc_script set_buffers
       w_engines w_blits] in *.
  assert (Hi : buffer_info_ s' !! i
               = Some {| buffer_config := request_config layer;
                         alloc_buffer_info := info;
                         private_data := Some (fresh_handle w) |}).
  { rewrite <- (lookup_take_lt _ (S i)) by lia. rewrite Htake.
    rewrite lookup_take_lt by lia. apply list_lookup_insert_eq.
    by eapply lookup_lt_Some. }
  assert (Hnew : w_buffers w' !! fresh_handle w
                 = Some {| gb_config := request_config layer;
                           gb_unaligned_width := uw; gb_unaligned_height := uh |}).
  { apply Hmono, lookup_insert_eq. }
  rewrite (drop_S _ _ _ Hi).
  change (held (?b :: ?bs)) with (fresh_handle w :: held bs).
  repeat split; try done.
  - apply (f_equal (take i)) in Htake. rewrite !take_take in Htake.
    rewrite Nat.min_l in Htake by lia. rewrite Htake.
    apply take_insert_ge. lia.
  - intros h g Hh. apply Hmono. rewrite lookup_insert_ne; [done|].
    intros <-. by rewrite fresh_handle_free in Hh.
  - intros j Hj. destruct (decide (j = i)) as [->|Hne].
    + exists (fresh_handle w), info, uw, uh. repeat split; try done.
      apply fresh_handle_free.
    + destruct (Hslots j) as (h & info' & uw' & uh' & Hs & Hl & Hf); [lia|].
      exists h, info', uw', uh'. repeat split; try done.
      by apply lookup_insert_None in Hf as [? _].
  - intros h [->|Hh]%elem_of_cons; [apply fresh_handle_free|].
    by apply Hfresh, lookup_insert_None in Hh as [? _].
  - constructor; [|done]. intros Hh. apply Hfresh in Hh.
    by rewrite lookup_insert_eq in Hh.
Qed.

Lemma AllocateIntermediateBuffers_loop_error (n : nat) : ∀ (i : nat) s w (k : nat),
  (k < n)%nat →
  (∀ j, (j < k)%nat → script_answer (w_alloc_script w) j = kErrorNone) →
  script_answer (w_alloc_script w) k ≠ kErrorNone →
  (AllocateIntermediateBuffers_loop N n i layer s w).1.1
  = script_answer (w_alloc_script w) k.
Proof.
  induction n as [|n IH]; intros i s w k Hk Hbefore Hat; [lia|]. simpl.
  destruct (AllocateBuffer_view (with_request (buffer_info_at s i)) w)
    as [(info & uw & uh & rest & Hscript & Heq)|[Hfail Heq]];
    unfold with_request in Heq; rewrite Heq; clear Heq.
  - rewrite decide_True by done. destruct k as [|k].
    { rewrite Hscript in Hat. by destruct Hat. }
    rewrite IH with (k := k); cbn [w_alloc_script set_alloc_script set_buffers];
      rewrite ?Hscript; try done; try lia.
    + intros j Hj. specialize (Hbefore (S j)). rewrite Hscript in Hbefore.
      apply Hbefore. lia.
    + by rewrite Hscript in Hat.
  - rewrite decide_False by done. destruct k as [|k].
    + by destruct (FreeIntermediateBuffers _ _ _).
    + destruct Hfail. apply Hbefore. lia.
Qed.

Lemma AllocateIntermediateBuffers_loop_ok (n : nat) : ∀ (i : nat) s w,
  (∀ j, (j < n)%nat → script_answer (w_alloc_script w) j = kErrorNone) →
  (AllocateIntermediateBuffers_loop N n i layer s w).1.1 = kErrorNone.
Proof.
  induction n as [|n IH]; intros i s w Hall; [reflexivity|]. simpl.
  destruct (AllocateBuffer_view (with_request (buffer_info_at s i)) w)
    as [(info & uw & uh & rest & Hscript & Heq)|[Hfail Heq]];
    unfold with_request in Heq; rewrite Heq; clear Heq.
  - rewrite decide_True by done. apply IH.
    cbn [w_alloc_script set_alloc_script set_buffers].
    intros j Hj. specialize (Hall (S j)). rewrite Hscript in Hall.
    apply Hall. lia.
  - destruct Hfail. apply Hall. lia.
Qed.

End Allocate.

Lemma held_empty bs : Forall (λ b, private_data b = None) bs → held bs = [].
Proof.
  induction 1 as [|b bs Hb _ IH]; [done|]. unfold held. cbn. by rewrite Hb.
Qed.

(** C4.  [AllocateIntermediateBuffers] is all or nothing.  When the [k]-th
    allocation of the call fails ([1 <= k <= kNumIntermediateBuffers], the
    earlier ones having succeeded), the call returns the allocator's error,
    leaves every slot of the session empty, and no buffer is live that was
    not live before the call; for a session whose slots were empty at the
    call, gralloc holds exactly the buffers it held before.  When all
    allocations succeed, the call returns [kErrorNone] and every slot holds
    a buffer of its own, newly allocated with the width, height, format and
    secure flag that the layer requests. *)
Theorem AllocateIntermediateBuffers_all_or_nothing (layer : Layer)
  (s : ToneMapSession) (w : World) :
  length (buffer_info_ s) = N →
  let script := w_alloc_script w in
  let r := AllocateIntermediateBuffers N layer s w in
  (∀ k : nat, (1 ≤ k ≤ N)%nat →
     (∀ j, (j < k - 1)%nat → script_answer script j = kErrorNone) →
     script_answer script (k - 1) ≠ kErrorNone →
     r.1.1 = script_answer script (k - 1)
     ∧ Forall (λ b, private_data b = None) (buffer_info_ r.1.2)
     ∧ (∀ h b, w_buffers r.2 !! h = Some b → w_buffers w !! h = Some b)
     ∧ (held (buffer_info_ s) = [] → w_buffers r.2 = w_buffers w))
  ∧ ((∀ j, (j < N)%nat → script_answer script j = kErrorNone) →
     r.1.1 = kErrorNone
     ∧ NoDup (held (buffer_info_ r.1.2))
     ∧ ∀ i, (i < N)%nat → ∃ h info uw uh,
         let config := {| bc_width := rq_width (request layer);
                          bc_height := rq_height (request layer);
                          bc_format := rq_format (request layer);
                          bc_secure := secure (rq_flags (request layer));
                          gfx_client := true |} in
         buffer_info_ r.1.2 !! i
         = Some {| buffer_config := config;
                   alloc_buffer_info := info; private_data := Some h |}
         ∧ w_buffers r.2 !! h
           = Some {| gb_config := config;
                     gb_unaligned_width := uw; gb_unaligned_height := uh |}
         ∧ w_buffers w !! h = None).
Proof.
  intros Hlen script r. subst script r. unfold AllocateIntermediateBuffers.
  destruct (AllocateIntermediateBuffers_loop N N 0 layer s w) as [[err s'] w'] eqn:Hrun.
  cbn [fst snd]. split.
  - intros k Hk Hbefore Hat.
    pose proof (AllocateIntermediateBuffers_loop_error layer N 0 s w (k - 1)) as Herr.
    rewrite Hrun in Herr. cbn [fst snd] in Herr.
    specialize (Herr ltac:(lia) Hbefore Hat). subst err.
    destruct (AllocateIntermediateBuffers_loop_rollback layer N 0 s w _ s' w'
                eq_refl Hlen Hrun Hat) as (_ & Hnone & Hlive & Hexact & _).
    repeat split; [done| |done].
    intros h b Hh. by apply Hlive in Hh as [? _].
  - intros Hall.
    pose proof (AllocateIntermediateBuffers_loop_ok layer N 0 s w Hall) as Herr.
    rewrite Hrun in Herr. cbn [fst snd] in Herr. subst err.
    destruct (AllocateIntermediateBuffers_loop_success layer N 0 s w s' w'
                eq_refl Hlen Hrun) as (_ & _ & _ & Hslots & _ & Hnodup & _).
    rewrite drop_0 in Hnodup. repeat split; try done.
    intros i Hi. apply Hslots. lia.
Qed.

End Pool.

(** ** Acquiring a session *)

(** A session can serve a layer again when no layer of this frame has it
    and its configuration is the layer's. *)
Definition reusable (w : World) (layer : Layer) (cs : PrimariesTransfer)
  (s : ToneMapSession) : Prop :=
  acquired_ s = false ∧ IsSameToneMapConfig w layer cs s = true.

#[global] Instance reusable_dec w layer cs s : Decision (reusable w layer cs s).
Proof. unfold reusable. apply _. Defined.

Definition fresh_engine (w : World) : positive :=
  fresh (dom (w_engines w) : gset positive).

Lemma fresh_engine_free w : w_engines w !! fresh_engine w = None.
Proof.
  apply (not_elem_of_dom (D := gset positive)). unfold fresh_engine.
  apply is_fresh.
Qed.

Lemma TonemapperFactory_GetInstance_view cfg w :
  (head (w_factory_script w) = Some true
   ∧ TonemapperFactory_GetInstance cfg w
     = (Some (fresh_engine w),
        set_factory_script (tail (w_factory_script w))
          (set_engines (<[fresh_engine w := cfg]> (w_engines w)) w)))
  ∨ (head (w_factory_script w) ≠ Some true
     ∧ TonemapperFactory_GetInstance cfg w
       = (None, set_factory_script (tail (w_factory_script w)) w)).
Proof.
  unfold TonemapperFactory_GetInstance.
  destruct w as [bufs engs blits dumps script fs bs ms]. simpl.
  destruct fs as [|[] rest]; simpl.
  - right. by split.
  - left. by split.
  - right. by split.
Qed.

(** Case split on what the factory answers to the call in the goal. *)
Ltac factory_answers H :=
  match goal with
  | |- context [TonemapperFactory_GetInstance ?cfg ?w] =>
      destruct (TonemapperFactory_GetInstance_view cfg w) as [[H ->]|[H ->]]
  end.

Section Acquire.

Variable N : nat.
Variables (w : World) (layer : Layer) (cs : PrimariesTransfer).

Let advance (s : ToneMapSession) : ToneMapSession :=
  set_acquired true
    (set_current_buffer_index
       (UINT8 (Z.rem (current_buffer_index_ s + 1) (Z.of_nat N))) s).

Lemma reusable_test s :
  negb (acquired_ s) && IsSameToneMapConfig w layer cs s = true ↔ reusable w layer cs s.
Proof.
  unfold reusable. rewrite andb_true_iff, negb_true_iff. reflexivity.
Qed.

Lemma AcquireToneMapSession_scan_first (v : list ToneMapSession) : ∀ (i0 j : nat) s,
  v !! j = Some s → reusable w layer cs s →
  (∀ j' t, (j' < j)%nat → v !! j' = Some t → ¬ reusable w layer cs t) →
  AcquireToneMapSession_scan N w layer cs i0 v = Some ((i0 + j)%nat, advance s).
Proof.
  induction v as [|t v IH]; intros i0 j s Hj Hs Hfirst; [done|]. simpl.
  destruct j as [|j]; simpl in Hj.
  - simplify_eq. apply reusable_test in Hs. rewrite Hs, Nat.add_0_r. reflexivity.
  - destruct (negb (acquired_ t) && IsSameToneMapConfig w layer cs t) eqn:Ht.
    + apply reusable_test in Ht. destruct (Hfirst 0%nat t); [lia|done|done].
    + rewrite (IH (S i0) j s Hj Hs); [f_equal; f_equal; lia|].
      intros j' t' Hj' Ht'. apply (Hfirst (S j') t'); [lia|done].
Qed.

Lemma AcquireToneMapSession_scan_none (v : list ToneMapSession) : ∀ (i0 : nat),
  (∀ t, t ∈ v → ¬ reusable w layer cs t) →
  AcquireToneMapSession_scan N w layer cs i0 v = None.
Proof.
  induction v as [|t v IH]; intros i0 Hnone; [done|]. simpl.
  destruct (negb (acquired_ t) && IsSameToneMapConfig w layer cs t) eqn:Ht.
  - apply reusable_test in Ht. destruct (Hnone t); [by left|done].
  - apply IH. intros t' Ht'. apply Hnone. by right.
Qed.

Lemma advance_cursor (c : Z) :
  (0 < N ≤ 255)%nat → 0 <= c →
  UINT8 (Z.rem (c + 1) (Z.of_nat N)) = (c + 1) mod Z.of_nat N.
Proof.
  intros HN Hc. rewrite Z.rem_mod_nonneg by lia. unfold UINT8.
  apply Z.mod_small.
  pose proof (Z.mod_pos_bound (c + 1) (Z.of_nat N)). lia.
Qed.

Lemma lut_check_valid :
  lutEntries (lut_3d layer) ≠ None → dim (lut_3d layer) ≠ 0 →
  bool_decide (lutEntries (lut_3d layer) = None) || (dim (lut_3d layer) =? 0) = false.
Proof.
  intros H1 H2. rewrite bool_decide_eq_false_2 by done.
  by apply Z.eqb_neq in H2 as ->.
Qed.

Lemma lut_check_invalid :
  lutEntries (lut_3d layer) = None ∨ dim (lut_3d layer) = 0 →
  bool_decide (lutEntries (lut_3d layer) = None) || (dim (lut_3d layer) =? 0) = true.
Proof.
  intros [H|H].
  - by rewrite bool_decide_eq_true_2.
  - rewrite H. apply orb_true_r.
Qed.

(** The session that [AcquireToneMapSession] builds when none can be used
    again, before its engine is requested. *)
Let configured : ToneMapSession := SetToneMapConfig layer cs (ToneMapSession_new N).

Lemma configured_pool :
  length (buffer_info_ configured) = N ∧ held (buffer_info_ configured) = [].
Proof.
  unfold configured. cbn. split; [apply length_replicate|].
  apply held_empty, Forall_replicate. reflexivity.
Qed.

(** Deleting a session whose slots are empty only deletes its engine. *)
Lemma ToneMapSession_delete_empty s w0 :
  length (buffer_info_ s) = N →
  Forall (λ b, private_data b = None) (buffer_info_ s) →
  ToneMapSession_delete N s w0 = Tonemapper_delete (gpu_tone_mapper_ s) w0.
Proof.
  intros Hlen Hnone. unfold ToneMapSession_delete.
  rewrite FreeIntermediateBuffers_spec by done. cbn [snd].
  rewrite (held_empty _ Hnone). apply set_buffers_id.
Qed.

(** C7.  With a usable lookup table, [AcquireToneMapSession] takes the first
    session, in the order of the collection, that can be used again: it
    returns that session's index, marks it acquired and moves its cursor to
    the previous value plus one modulo [kNumIntermediateBuffers]; the other
    sessions and the world are untouched.  When no session can be used again
    and the call succeeds, one session is appended, acquired and with its
    cursor on the initial slot [0]. *)
Theorem AcquireToneMapSession_reuse_or_create (session_index : Z)
  (m : HWCToneMapper) :
  (0 < N ≤ 255)%nat →
  lutEntries (lut_3d layer) ≠ None → dim (lut_3d layer) ≠ 0 →
  let v := tone_map_sessions_ m in
  let r := AcquireToneMapSession N layer session_index cs m w in
  (∀ (i : nat) s,
     v !! i = Some s → reusable w layer cs s → 0 <= current_buffer_index_ s →
     (∀ (j : nat) t, (j < i)%nat → v !! j = Some t → ¬ reusable w layer cs t) →
     r = (kErrorNone, UINT32 (Z.of_nat i),
          set_sessions
            (<[i := set_acquired true
                      (set_current_buffer_index
                         ((current_buffer_index_ s + 1) mod Z.of_nat N) s)]> v) m,
          w))
  ∧ ((∀ t, t ∈ v → ¬ reusable w layer cs t) → r.1.1.1 = kErrorNone →
     ∃ s_new,
       r.1.2 = set_sessions (v ++ [s_new]) m
       ∧ r.1.1.2 = UINT32 (Z.of_nat (length v))
       ∧ current_buffer_index_ s_new = 0
       ∧ acquired_ s_new = true).
Proof.
  intros HN Hlut Hdim v r. subst v r. unfold AcquireToneMapSession.
  rewrite lut_check_valid by done. split.
  - intros i s Hi Hs Hc Hfirst.
    rewrite (AcquireToneMapSession_scan_first _ 0 i s Hi Hs Hfirst).
    cbn [Nat.add]. unfold advance. by rewrite advance_cursor.
  - intros Hnone. rewrite AcquireToneMapSession_scan_none by done.
    fold configured. unfold OnTask_GetInstance.
    destruct (TonemapperFactory_GetInstance _ w) as [[e|] w1]; cbn; [|done].
    destruct (AllocateIntermediateBuffers N layer _ w1) as [[err s2] w2] eqn:Halloc.
    destruct (decide (err = kErrorNone)) as [->|]; cbn; [|done].
    intros _. eexists. split; [reflexivity|]. split.
    { rewrite length_app. cbn. f_equal. lia. }
    apply AllocateIntermediateBuffers_loop_session in Halloc.
    2:{ cbn. apply length_replicate. }
    rewrite Halloc. by cbn.
Qed.

(** Whatever the reason of a failure, nothing of the call is left behind. *)
Lemma AcquireToneMapSession_rollback (session_index : Z) (m : HWCToneMapper) :
  let r := AcquireToneMapSession N layer session_index cs m w in
  r.1.1.1 ≠ kErrorNone →
  r.1.2 = m ∧ r.1.1.2 = session_index
  ∧ w_buffers r.2 = w_buffers w ∧ w_engines r.2 = w_engines w
  ∧ w_blits r.2 = w_blits w.
Proof.
  intros r. subst r. unfold AcquireToneMapSession.
  destruct configured_pool as [Hlen Hheld].
  destruct (bool_decide _ || _); [done|].
  destruct (AcquireToneMapSession_scan _ _ _ _ _ _) as [[i t]|]; [by cbn|].
  fold configured. unfold OnTask_GetInstance.
  factory_answers Hfactory; cbn [gpu_tone_mapper_ set_gpu_tone_mapper].
  - destruct (AllocateIntermediateBuffers N layer _ _) as [[err s2] w2] eqn:Halloc.
    destruct (decide (err = kErrorNone)) as [->|Herr]; [by cbn|]. cbn [fst snd].
    intros _.
    pose proof (AllocateIntermediateBuffers_loop_session N layer N 0
                  (set_gpu_tone_mapper (Some (fresh_engine w)) configured)
                  _ _ _ _ Hlen Halloc) as Hs2.
    destruct (AllocateIntermediateBuffers_loop_rollback N layer N 0
                (set_gpu_tone_mapper (Some (fresh_engine w)) configured)
                _ _ _ _ eq_refl Hlen Halloc Herr)
      as (Hlen2 & Hnone & _ & Hexact & Heng & Hblits).
    rewrite ToneMapSession_delete_empty by done.
    rewrite Hs2. cbn. rewrite Hexact, Heng, Hblits by (by rewrite drop_0). cbn.
    by rewrite delete_insert_eq, (delete_id _ _ (fresh_engine_free w)).
  - intros _. rewrite ToneMapSession_delete_empty; [done|done|].
    cbn. apply Forall_replicate. reflexivity.
Qed.

(** C1.  A failed [AcquireToneMapSession] changes nothing that lives on:
    the manager (the collection with every session's flags and cursor, the
    remembered index) is as before, the out-parameter is not written, and
    the buffers and engines that are live are those that were live before,
    so that the session under construction is freed completely.  The error
    is [kErrorParameters] when the lookup table is absent or has dimension
    zero, [kErrorNotSupported] when the factory gives no engine, and the
    allocator's error when an allocation for the pool fails. *)
Theorem AcquireToneMapSession_failure (session_index : Z) (m : HWCToneMapper) :
  let lut := lut_3d layer in
  let r := AcquireToneMapSession N layer session_index cs m w in
  let no_reuse := ∀ t, t ∈ tone_map_sessions_ m → ¬ reusable w layer cs t in
  (r.1.1.1 ≠ kErrorNone →
     r.1.2 = m ∧ r.1.1.2 = session_index
     ∧ w_buffers r.2 = w_buffers w ∧ w_engines r.2 = w_engines w
     ∧ w_blits r.2 = w_blits w)
  ∧ (lutEntries lut = None ∨ dim lut = 0 →
     r = (kErrorParameters, session_index, m, w))
  ∧ (lutEntries lut ≠ None → dim lut ≠ 0 → no_reuse →
     head (w_factory_script w) ≠ Some true →
     r.1.1.1 = kErrorNotSupported)
  ∧ (lutEntries lut ≠ None → dim lut ≠ 0 → no_reuse →
     head (w_factory_script w) = Some true →
     ∀ k : nat, (1 ≤ k ≤ N)%nat →
       (∀ j, (j < k - 1)%nat → script_answer (w_alloc_script w) j = kErrorNone) →
       script_answer (w_alloc_script w) (k - 1) ≠ kErrorNone →
       r.1.1.1 = script_answer (w_alloc_script w) (k - 1)).
Proof.
  intros lut r no_reuse. subst lut r no_reuse. unfold AcquireToneMapSession.
  destruct configured_pool as [Hlen Hheld].
  split; [|split; [|split]].
  - apply AcquireToneMapSession_rollback.
  - intros Hbad. by rewrite lut_check_invalid.
  - intros Hlut Hdim Hnone Hfactory.
    rewrite lut_check_valid, AcquireToneMapSession_scan_none by done.
    fold configured. unfold OnTask_GetInstance.
    factory_answers Hanswer; done.
  - intros Hlut Hdim Hnone Hfactory k Hk Hbefore Hat.
    rewrite lut_check_valid, AcquireToneMapSession_scan_none by done.
    fold configured. unfold OnTask_GetInstance.
    factory_answers Hanswer; [|done]. cbn [gpu_tone_mapper_ set_gpu_tone_mapper].
    match goal with
    | |- context [AllocateIntermediateBuffers N layer ?s1 ?w1] =>
        pose proof (AllocateIntermediateBuffers_loop_error N layer N 0 s1 w1
                      (k - 1) ltac:(lia) Hbefore Hat) as Herr
    end.
    unfold AllocateIntermediateBuffers.
    destruct (AllocateIntermediateBuffers_loop N N 0 layer _ _) as [[err s2] w2].
    cbn [fst snd] in Herr. subst err.
    by rewrite decide_False.
Qed.

End Acquire.

(** ** PostCommit *)

Lemma at_Some {A} (v : list A) (i : Z) (x : A) :
  0 <= i → v !! Z.to_nat i = Some x → at_ v i = Ok x.
Proof.
  intros Hi Hx. unfold at_. rewrite Hx.
  by destruct (Z.leb_spec 0 i); [|lia].
Qed.

Lemma UINT32_nonneg z : 0 <= UINT32 z.
Proof. unfold UINT32. apply Z.mod_pos_bound. lia. Qed.

(** The layer that a session is bound to, as [PostCommit] looks it up. *)
Definition bound_layer (layers' : list Layer) (s : ToneMapSession) : option Layer :=
  layers' !! Z.to_nat (UINT32 (layer_index_ s)).

(** What [PostCommit] makes of a session that was acquired. *)
Definition retire (layers' : list Layer) (s : ToneMapSession) : ToneMapSession :=
  set_acquired false
    (SetReleaseFence
       (from_option (λ l, release_fence (input_buffer l)) NullFence
                    (bound_layer layers' s)) s).

Section PostCommit.

Variable N : nat.
Variable layers' : list Layer.

(** Sessions that are acquired and bound are moved to the kept ones, and
    the remembered index is not touched. *)
Lemma PostCommit_loop_kept (rest : list ToneMapSession) : ∀ kept f w,
  Forall (λ t, acquired_ t = true ∧ is_Some (bound_layer layers' t)) rest →
  PostCommit_loop N layers' kept rest f w
  = Ok (kept ++ (retire layers' <$> rest), f, w).
Proof.
  induction rest as [|t rest IH]; intros kept f w Hrest.
  - cbn. by rewrite app_nil_r.
  - apply Forall_cons in Hrest as [[Hacq [l Hl]] Hrest]. cbn [PostCommit_loop].
    rewrite Hacq, (at_Some _ _ l (UINT32_nonneg _) Hl). cbn [mbind Result_bind].
    rewrite IH by done. rewrite fmap_cons, <- app_assoc.
    replace (retire layers' t)
      with (set_acquired false (SetReleaseFence (release_fence (input_buffer l)) t));
      [done|]. unfold retire. by rewrite Hl.
Qed.

(** C6.  When [PostCommit] removes the session [s] at index [d] (below
    [2^31]) while [f] is the remembered frame-buffer index, the session is
    deleted and the remembered index becomes [-1] if [d = f], [f - 1] if
    [d < f], and stays [f] if [d > f].  This is stated three times: the loop
    goes on with that index, whatever sessions follow; if no session that
    follows is removed, that index is the one the loop ends with; and a
    [PostCommit] on a collection [pre ++ s :: rest] in which [s] is the only
    session that is not acquired returns with that index, for [d] the length
    of [pre]. *)
Theorem PostCommit_loop_compaction (kept rest : list ToneMapSession)
  (s : ToneMapSession) (f : Z) (w : World) :
  acquired_ s = false →
  Z.of_nat (length kept) < 2 ^ 31 →
  let d := Z.of_nat (length kept) in
  let w' := ToneMapSession_delete N s w in
  let run := PostCommit_loop N layers' kept (s :: rest) f w in
  let go_on f' := PostCommit_loop N layers' kept rest f' w' in
  let ends f' := Ok (kept ++ (retire layers' <$> rest), f', w') in
  let all_kept v :=
    Forall (λ t, acquired_ t = true ∧ is_Some (bound_layer layers' t)) v in
  ((d = f → run = go_on (-1))
   ∧ (d < f → run = go_on (f - 1))
   ∧ (d > f → run = go_on f))
  ∧ (all_kept rest →
     (d = f → run = ends (-1))
     ∧ (d < f → run = ends (f - 1))
     ∧ (d > f → run = ends f))
  ∧ (∀ (cs : PrimariesTransfer) (m : HWCToneMapper) (pre : list ToneMapSession),
       tone_map_sessions_ m = pre ++ s :: rest →
       fb_session_index_ m = f →
       length pre = length kept →
       all_kept pre → all_kept rest →
       let returns f' :=
         Ok (set_fb_session_index f'
               (set_sessions (retire layers' <$> (pre ++ rest)) m), w') in
       let post_commit := PostCommit N {| layers := layers'; blend_cs := cs |} m w in
       (d = f → post_commit = returns (-1))
       ∧ (d < f → post_commit = returns (f - 1))
       ∧ (d > f → post_commit = returns f)).
Proof.
  intros Hs Hd d w' run go_on ends all_kept.
  assert (Hstep : ∀ kept0, length kept0 = length kept →
            PostCommit_loop N layers' kept0 (s :: rest) f w
            = PostCommit_loop N layers' kept0 rest
                (if d =? f then -1 else if d <? f then f - 1 else f) w').
  { intros kept0 Hlen. cbn [PostCommit_loop]. rewrite Hs, Hlen.
    by rewrite INT_UINT32_small by lia. }
  assert (Hcases : ∀ (P : Z → Prop),
            P (if d =? f then -1 else if d <? f then f - 1 else f) →
            (d = f → P (-1)) ∧ (d < f → P (f - 1)) ∧ (d > f → P f)).
  { intros P HP. split; [|split]; intros Hcmp.
    - by rewrite (proj2 (Z.eqb_eq _ _) Hcmp) in HP.
    - rewrite (proj2 (Z.eqb_neq _ _)) in HP by lia.
      by rewrite (proj2 (Z.ltb_lt _ _) Hcmp) in HP.
    - rewrite (proj2 (Z.eqb_neq _ _)) in HP by lia.
      by rewrite (proj2 (Z.ltb_ge _ _)) in HP by lia. }
  split; [|split].
  - apply (Hcases (λ f', run = go_on f')). by apply Hstep.
  - intros Hrest. apply (Hcases (λ f', run = ends f')).
    unfold run, ends. rewrite Hstep by done. by apply PostCommit_loop_kept.
  - intros cs m pre Hv Hf Hlen Hpre Hrest returns post_commit.
    apply (Hcases (λ f', post_commit = returns f')).
    unfold post_commit, returns, PostCommit. cbn [layers]. rewrite Hv, Hf.
    assert (Hsplit : ∀ kept0 f0 w0,
              PostCommit_loop N layers' kept0 (pre ++ s :: rest) f0 w0
              = PostCommit_loop N layers' (kept0 ++ (retire layers' <$> pre))
                  (s :: rest) f0 w0).
    { clear -Hpre. induction pre as [|t pre IH]; intros kept0 f0 w0.
      - cbn. by rewrite app_nil_r.
      - apply Forall_cons in Hpre as [[Hacq [l Hl]] Hpre].
        cbn [app PostCommit_loop].
        rewrite Hacq, (at_Some _ _ l (UINT32_nonneg _) Hl). cbn [mbind Result_bind].
        rewrite IH by done. rewrite fmap_cons, <- app_assoc.
        replace (retire layers' t)
          with (set_acquired false
                  (SetReleaseFence (release_fence (input_buffer l)) t));
          [done|]. unfold retire. by rewrite Hl. }
    rewrite Hsplit. cbn [app].
    rewrite Hstep by (by rewrite length_fmap).
    rewrite PostCommit_loop_kept by done. cbn [mbind Result_bind].
    by rewrite fmap_app.
Qed.

Lemma PostCommit_loop_spec (rest : list ToneMapSession) : ∀ kept f w,
  Forall (λ s, acquired_ s = true → is_Some (bound_layer layers' s)) rest →
  ∃ f',
    PostCommit_loop N layers' kept rest f w
    = Ok (kept ++ (retire layers' <$> filter (λ s, acquired_ s = true) rest),
          f',
          foldl (λ w s, ToneMapSession_delete N s w) w
                (filter (λ s, acquired_ s = false) rest)).
Proof.
  induction rest as [|s rest IH]; intros kept f w Hbound.
  - exists f. cbn. by rewrite app_nil_r.
  - apply Forall_cons in Hbound as [Hs Hbound]. cbn [PostCommit_loop].
    destruct (acquired_ s) eqn:Hacq.
    + destruct (Hs eq_refl) as [l Hl].
      rewrite (at_Some _ _ l (UINT32_nonneg _) Hl). cbn [mbind Result_bind].
      destruct (IH (kept ++ [set_acquired false
                               (SetReleaseFence (release_fence (input_buffer l)) s)])
                   f w Hbound) as [f' ->].
      exists f'. rewrite filter_cons_True by done.
      rewrite filter_cons_False by (rewrite Hacq; done).
      rewrite fmap_cons, <- app_assoc. unfold retire at 2. rewrite Hl. reflexivity.
    + destruct (IH kept
                   (if INT (UINT32 (Z.of_nat (length kept))) =? f then -1
                    else if INT (UINT32 (Z.of_nat (length kept))) <? f then f - 1 else f)
                   (ToneMapSession_delete N s w) Hbound) as [f' ->].
      exists f'. rewrite filter_cons_False by (rewrite Hacq; done).
      rewrite filter_cons_True by done. reflexivity.
Qed.

End PostCommit.

(** ** HandleToneMap *)

(** The test that lets [HandleToneMap] use the frame-buffer session again
    without a blit, for a layer met with [gpu_count] GPU layers before it. *)
Definition short_circuits (gpu_count : Z) (layer : Layer) (m : HWCToneMapper) : bool :=
  bool_decide (composition layer = kCompositionGPUTarget)
  && ((gpu_count =? 0)
      && (negb (length (tone_map_sessions_ m) =? 0)%nat
          && (0 <=? fb_session_index_ m))).

Section HandleToneMap.

Variable N : nat.
Variable cs : PrimariesTransfer.

Lemma Terminate_eq (m : HWCToneMapper) (w : World) :
  Terminate N m w
  = (if decide (tone_map_sessions_ m = []) then m
     else set_fb_session_index (-1) (set_sessions [] m),
     foldr (ToneMapSession_delete N) w (tone_map_sessions_ m)).
Proof.
  unfold Terminate. destruct (tone_map_sessions_ m) as [|s v] eqn:Hv.
  - by rewrite decide_True.
  - rewrite Terminate_loop_all, decide_False by done. reflexivity.
Qed.




(** [Reaches m0 w0 todo0 done g todo m w]: started on the layers [todo0]
    with manager [m0] in world [w0], the loop of [HandleToneMap] comes to
    the head of [todo] with [done] behind it, [g] in [gpu_count], manager
    [m] and world [w]. *)
Inductive Reaches (m0 : HWCToneMapper) (w0 : World) (todo0 : list Layer)
  : list Layer → Z → list Layer → HWCToneMapper → World → Prop :=
| Reaches_start : Reaches m0 w0 todo0 [] 0 todo0 m0 w0
| Reaches_step done g layer rest m w g' layer' m' w' :
    Reaches m0 w0 todo0 done g (layer :: rest) m w →
    HandleToneMap_layer N cs (length done) g layer m w
    = Ok (Continue g', layer', m', w') →
    Reaches m0 w0 todo0 (done ++ [layer']) g' rest m' w'.

Lemma Reaches_loop m0 w0 todo0 done g todo m w :
  Reaches m0 w0 todo0 done g todo m w →
  HandleToneMap_loop N cs [] 0 todo0 m0 w0 = HandleToneMap_loop N cs done g todo m w.
Proof.
  induction 1 as [|done g layer rest m w g' layer' m' w' _ IH Hstep]; [done|].
  rewrite IH. cbn [HandleToneMap_loop]. rewrite Hstep. reflexivity.
Qed.


End HandleToneMap.

Section HandleToneMap_whole.

Variable N : nat.


(** C5, as the code has it.  Let the loop of [HandleToneMap] come to a layer
    that asks for tone mapping and for which [AcquireToneMapSession] is
    called and fails.  Then [HandleToneMap] returns [-1], the collection is
    empty and every session that was live has been deleted.  The failing
    layer and the layers after it are as they were; the layers before it
    are as their visit left them, tone-mapped ones included. *)
Theorem HandleToneMap_acquire_failure (ls : LayerStack) (m0 : HWCToneMapper)
  (w0 : World) (done : list Layer) (g : Z) (layer : Layer) (rest : list Layer)
  (m : HWCToneMapper) (w : World) :
  Reaches N (blend_cs ls) m0 w0 (layers ls) done g (layer :: rest) m w →
  tone_map (rq_flags (request layer)) = true →
  short_circuits g layer m = false →
  let a := AcquireToneMapSession N layer 0 (blend_cs ls) m w in
  a.1.1.1 ≠ kErrorNone →
  ∃ m' w',
    HandleToneMap N ls m0 w0
    = Ok (-1, {| layers := done ++ layer :: rest; blend_cs := blend_cs ls |}, m', w')
    ∧ tone_map_sessions_ m' = []
    ∧ w' = foldr (ToneMapSession_delete N) a.2 (tone_map_sessions_ m)
    ∧ w_buffers a.2 = w_buffers w ∧ w_engines a.2 = w_engines w.
Proof.
  intros Hreach Htm Hshort a Hfail. subst a.
  destruct (AcquireToneMapSession_rollback N w layer (blend_cs ls) 0 m Hfail)
    as (Hm & _ & Hbuf & Heng & _).
  unfold HandleToneMap. rewrite (Reaches_loop _ _ _ _ _ _ _ _ _ _ Hreach).
  cbn [HandleToneMap_loop]. unfold HandleToneMap_layer. rewrite Htm.
  destruct (AcquireToneMapSession N layer 0 (blend_cs ls) m w)
    as [[[err idx] m1] w1] eqn:Hacq.
  cbn [fst snd] in *. subst m1.
  unfold short_circuits in Hshort.
  assert (∀ m2 g2,
            tone_map_sessions_ m2 = tone_map_sessions_ m →
            ∃ m' w',
              (r ← HandleToneMap_acquired N (length done) g2 layer err idx m2 w1;
               match r with
               | (Continue gpu_count', layer', m', w') =>
                   HandleToneMap_loop N (blend_cs ls) (done ++ [layer']) gpu_count'
                                      rest m' w'
               | (Return status, layer', m', w') =>
                   Ok (status, done ++ layer' :: rest, m', w')
               end) ≫= (λ '(status, layers', m', w'),
                          Ok (status,
                              {| layers := layers'; blend_cs := blend_cs ls |},
                              m', w'))
              = Ok (-1, {| layers := done ++ layer :: rest; blend_cs := blend_cs ls |},
                    m', w')
              ∧ tone_map_sessions_ m' = []
              ∧ w' = foldr (ToneMapSession_delete N) w1 (tone_map_sessions_ m)
              ∧ w_buffers w1 = w_buffers w ∧ w_engines w1 = w_engines w) as Hfinish.
  { intros m2 g2 Hm2. unfold HandleToneMap_acquired.
    rewrite decide_False by done. rewrite Terminate_eq. cbn.
    eexists _, _. split; [reflexivity|]. rewrite Hm2.
    repeat split; try done. destruct (decide _); [congruence|done]. }
  destruct (composition layer) eqn:Hc.
  1-3: by apply Hfinish.
  rewrite bool_decide_eq_true_2 in Hshort by done. cbn [andb] in Hshort.
  rewrite decide_False by done. rewrite Hshort. by apply Hfinish.
Qed.

End HandleToneMap_whole.

(** * One frame after the other

    [HandleToneMap] and [PostCommit] are called in turn on the same layer
    stack.  [PostCommit] leaves no session acquired; from such a state a
    [HandleToneMap] that returns binds every session it acquires to a layer
    of the stack, so that the [PostCommit] that follows finds each layer it
    looks up. *)

(** An acquired session is bound to one of the first [k] layers. *)
Definition bound_below (k : Z) (s : ToneMapSession) : Prop :=
  acquired_ s = true → 0 <= layer_index_ s < k.

#[global] Instance bound_below_dec k s : Decision (bound_below k s).
Proof. unfold bound_below. apply _. Defined.

Section Frames.

Variable N : nat.
Variable cs : PrimariesTransfer.

Lemma AcquireToneMapSession_scan_inv w layer (v : list ToneMapSession) :
  ∀ (i0 i : nat) s',
    AcquireToneMapSession_scan N w layer cs i0 v = Some (i, s') →
    (i0 ≤ i < i0 + length v)%nat ∧ acquired_ s' = true.
Proof.
  induction v as [|t v IH]; intros i0 i s' Hscan; [done|]. cbn in Hscan.
  destruct (negb (acquired_ t) && IsSameToneMapConfig w layer cs t).
  - simplify_eq. cbn. split; [lia|done].
  - apply IH in Hscan as [Hi Hacq]. cbn. split; [lia|done].
Qed.

Lemma AcquireToneMapSession_success layer si m w idx m1 w1 :
  AcquireToneMapSession N layer si cs m w = (kErrorNone, idx, m1, w1) →
  (∃ (j : nat) s',
      (j < length (tone_map_sessions_ m))%nat ∧ idx = UINT32 (Z.of_nat j)
      ∧ acquired_ s' = true
      ∧ tone_map_sessions_ m1 = <[j := s']> (tone_map_sessions_ m))
  ∨ (∃ s',
      idx = UINT32 (Z.of_nat (length (tone_map_sessions_ m)))
      ∧ acquired_ s' = true
      ∧ tone_map_sessions_ m1 = tone_map_sessions_ m ++ [s']).
Proof.
  unfold AcquireToneMapSession. destruct (_ || _); [done|].
  destruct (AcquireToneMapSession_scan _ _ _ _ _ _) as [[j s']|] eqn:Hscan.
  - intros ?. simplify_eq. left. apply AcquireToneMapSession_scan_inv in Hscan as [? ?].
    exists j, s'. repeat split; [lia|done].
  - destruct (OnTask_GetInstance _ _ _) as [s1 w2].
    destruct (gpu_tone_mapper_ s1); [|done].
    destruct (AllocateIntermediateBuffers _ _ _ _) as [[err s2] w3].
    destruct (decide (err = kErrorNone)); [|intros ?; by simplify_eq].
    intros ?. simplify_eq. right. eexists. split; [|split; [|reflexivity]].
    + rewrite length_app. cbn. f_equal. lia.
    + reflexivity.
Qed.

Lemma ToneMap_manager layer s m w layer' s' m' w' :
  ToneMap layer s m w = Ok (layer', s', m', w') →
  s' = s ∧ tone_map_sessions_ m' = tone_map_sessions_ m.
Proof.
  unfold ToneMap. destruct (OnTask_Blit _ _ _ _) as [[fence w1]|]; [|done].
  cbn. unfold DumpToneMapOutput.
  destruct (dump_frame_count_ m =? 0); [intros ?; by simplify_eq|].
  destruct (w_map_script w1) as [|answer ?]; [intros ?; by simplify_eq|].
  destruct (decide _); [destruct (_ && _)|]; intros ?; by simplify_eq.
Qed.

Lemma bound_below_mono (k k' : Z) s : k <= k' → bound_below k s → bound_below k' s.
Proof. intros Hk Hs Hacq. specialize (Hs Hacq). lia. Qed.

Lemma HandleToneMap_acquired_bound (i : nat) g layer idx m0 m w flow layer' m' w' :
  Z.of_nat i < 2 ^ 31 →
  Z.of_nat (length (tone_map_sessions_ m0)) < 2 ^ 32 - 1 →
  Forall (bound_below (Z.of_nat i)) (tone_map_sessions_ m0) →
  (∃ (j : nat) s',
      (j < length (tone_map_sessions_ m0))%nat ∧ idx = UINT32 (Z.of_nat j)
      ∧ acquired_ s' = true
      ∧ tone_map_sessions_ m = <[j := s']> (tone_map_sessions_ m0))
  ∨ (∃ s',
      idx = UINT32 (Z.of_nat (length (tone_map_sessions_ m0)))
      ∧ acquired_ s' = true
      ∧ tone_map_sessions_ m = tone_map_sessions_ m0 ++ [s']) →
  HandleToneMap_acquired N i g layer kErrorNone idx m w = Ok (flow, layer', m', w') →
  Forall (bound_below (Z.of_nat i + 1)) (tone_map_sessions_ m')
  ∧ (length (tone_map_sessions_ m') ≤ length (tone_map_sessions_ m0) + 1)%nat.
Proof.
  intros Hi Hlen Hinv Hacq. unfold HandleToneMap_acquired.
  rewrite decide_True by done.
  destruct (at_ _ _) as [s|]; [|done]. cbn.
  destruct (ToneMap layer s m w) as [[[[l1 s1] m1] w1]|] eqn:Htm; [|done].
  cbn. intros ?. simplify_eq.
  apply ToneMap_manager in Htm as [-> Hsame].
  cbn [tone_map_sessions_ set_sessions]. rewrite Hsame.
  assert (Hnew : bound_below (Z.of_nat i + 1)
                   (set_layer_index (INT (Z.of_nat i)) s)).
  { intros _. cbn. rewrite INT_small by lia. lia. }
  assert (Hold : Forall (bound_below (Z.of_nat i + 1)) (tone_map_sessions_ m0)).
  { eapply Forall_impl; [exact Hinv|]. intros t. apply bound_below_mono. lia. }
  destruct Hacq as [(j & s' & Hj & -> & _ & ->)|(s' & -> & _ & ->)].
  - rewrite UINT32_small, Nat2Z.id by lia. rewrite list_insert_insert_eq.
    split; [by apply Forall_insert | by rewrite length_insert; lia].
  - rewrite UINT32_small, Nat2Z.id by lia.
    rewrite insert_app_r_alt, Nat.sub_diag by lia. cbn.
    split; [|rewrite length_app; cbn; lia].
    apply Forall_app. split; [done|]. by constructor.
Qed.

Lemma HandleToneMap_layer_bound (i : nat) g layer m w flow layer' m' w' :
  Z.of_nat i < 2 ^ 31 →
  Z.of_nat (length (tone_map_sessions_ m)) < 2 ^ 32 - 1 →
  Forall (bound_below (Z.of_nat i)) (tone_map_sessions_ m) →
  HandleToneMap_layer N cs i g layer m w = Ok (flow, layer', m', w') →
  Forall (bound_below (Z.of_nat i + 1)) (tone_map_sessions_ m')
  ∧ (length (tone_map_sessions_ m') ≤ length (tone_map_sessions_ m) + 1)%nat.
Proof.
  intros Hi Hlen Hinv.
  assert (Hold : Forall (bound_below (Z.of_nat i + 1)) (tone_map_sessions_ m)).
  { eapply Forall_impl; [exact Hinv|]. intros t. apply bound_below_mono. lia. }
  assert (Hafter : ∀ g2 err idx m1 w1 (fb : option Z),
            AcquireToneMapSession N layer 0 cs m w = (err, idx, m1, w1) →
            HandleToneMap_acquired N i g2 layer err idx
              (from_option (λ f, set_fb_session_index f m1) m1 fb) w1
            = Ok (flow, layer', m', w') →
            Forall (bound_below (Z.of_nat i + 1)) (tone_map_sessions_ m')
            ∧ (length (tone_map_sessions_ m') ≤ length (tone_map_sessions_ m) + 1)%nat).
  { intros g2 err idx m1 w1 fb Hacq Hrun.
    destruct (decide (err = kErrorNone)) as [->|Herr].
    - apply AcquireToneMapSession_success in Hacq.
      eapply (HandleToneMap_acquired_bound i g2 layer idx m
                (from_option (λ f, set_fb_session_index f m1) m1 fb));
        [done|done|done| |exact Hrun].
      by destruct fb.
    - unfold HandleToneMap_acquired in Hrun. rewrite decide_False in Hrun by done.
      rewrite Terminate_eq in Hrun. simplify_eq.
      assert (tone_map_sessions_
                (if decide (tone_map_sessions_
                              (from_option (λ f, set_fb_session_index f m1) m1 fb) = [])
                 then from_option (λ f, set_fb_session_index f m1) m1 fb
                 else set_fb_session_index (-1)
                        (set_sessions []
                           (from_option (λ f, set_fb_session_index f m1) m1 fb)))
              = []) as ->.
      { by destruct (decide _). }
      split; [constructor | cbn; lia]. }
  unfold HandleToneMap_layer.
  destruct (tone_map _); [|intros ?; simplify_eq; split; [done|lia]].
  destruct (composition layer).
  1-3: destruct (AcquireToneMapSession N layer 0 cs m w) as [[[err idx] m1] w1] eqn:Hacq;
       apply (Hafter _ err idx m1 w1 None eq_refl).
  destruct (_ && _) eqn:Hcond.
  - destruct (at_ _ _) as [fbs|]; [|done]. cbn. intros ?. simplify_eq.
    cbn [tone_map_sessions_ set_sessions]. rewrite length_insert.
    split; [|lia]. apply Forall_insert; [done|].
    intros _. cbn. rewrite INT_small by lia. lia.
  - destruct (AcquireToneMapSession N layer 0 cs m w) as [[[err idx] m1] w1] eqn:Hacq.
    apply (Hafter _ err idx m1 w1 (Some (INT idx)) eq_refl).
Qed.

Lemma HandleToneMap_loop_bound (todo : list Layer) : ∀ done g m w st layers' m' w',
  Z.of_nat (length done + length todo) < 2 ^ 31 →
  Z.of_nat (length (tone_map_sessions_ m) + length todo) < 2 ^ 32 →
  Forall (bound_below (Z.of_nat (length done))) (tone_map_sessions_ m) →
  HandleToneMap_loop N cs done g todo m w = Ok (st, layers', m', w') →
  length layers' = (length done + length todo)%nat
  ∧ Forall (bound_below (Z.of_nat (length layers'))) (tone_map_sessions_ m').
Proof.
  induction todo as [|layer rest IH]; intros done g m w st layers' m' w' Hn Hs Hinv Hrun;
    cbn [HandleToneMap_loop] in Hrun.
  { simplify_eq. cbn. by rewrite Nat.add_0_r. }
  cbn [length] in Hn, Hs.
  destruct (HandleToneMap_layer N cs (length done) g layer m w)
    as [[[[flow l1] m1] w1]|] eqn:Hstep; [|done].
  apply HandleToneMap_layer_bound in Hstep as [Hinv1 Hlen1]; [|lia|lia|done].
  cbn in Hrun. destruct flow as [g1|st1].
  - apply IH in Hrun as [Hlen Hinv'].
    + rewrite length_app in Hlen. cbn in Hlen. split; [cbn; lia|done].
    + rewrite length_app. cbn. lia.
    + lia.
    + rewrite length_app. cbn. by rewrite Nat2Z.inj_add.
  - simplify_eq. rewrite length_app. cbn [length]. split; [done|].
    eapply Forall_impl; [exact Hinv1|]. intros t. apply bound_below_mono. lia.
Qed.

End Frames.

Section Frames_whole.

Variable N : nat.

(** X1.  From a manager in which no session is acquired, a [HandleToneMap]
    that returns leaves every acquired session bound to a layer of the
    stack (whose length it keeps), and the [PostCommit] that follows on that
    stack returns. *)
Theorem HandleToneMap_then_PostCommit (ls : LayerStack) (m : HWCToneMapper)
  (w : World) (status : Z) (ls' : LayerStack) (m' : HWCToneMapper) (w' : World) :
  Z.of_nat (length (layers ls)) < 2 ^ 31 →
  Z.of_nat (length (tone_map_sessions_ m)) < 2 ^ 31 →
  Forall (λ s, acquired_ s = false) (tone_map_sessions_ m) →
  HandleToneMap N ls m w = Ok (status, ls', m', w') →
  length (layers ls') = length (layers ls)
  ∧ Forall (λ s, acquired_ s = true → is_Some (bound_layer (layers ls') s))
           (tone_map_sessions_ m')
  ∧ ∃ r, PostCommit N ls' m' w' = Ok r.
Proof.
  intros Hn Hs Hfree Hrun. unfold HandleToneMap in Hrun.
  destruct (HandleToneMap_loop N (blend_cs ls) [] 0 (layers ls) m w)
    as [[[[st layers'] m1] w1]|] eqn:Hloop; [|done].
  cbn in Hrun. simplify_eq.
  apply HandleToneMap_loop_bound in Hloop as [Hlen Hinv]; cbn [length Nat.add]; [|lia|lia|].
  2:{ eapply Forall_impl; [exact Hfree|]. intros t Ht Hacq. congruence. }
  cbn [layers]. cbn in Hlen.
  assert (Hbound : Forall (λ s, acquired_ s = true → is_Some (bound_layer layers' s))
                          (tone_map_sessions_ m')).
  { eapply Forall_impl; [exact Hinv|]. intros t Ht Hacq. specialize (Ht Hacq).
    unfold bound_layer. apply lookup_lt_is_Some. rewrite UINT32_small by lia. lia. }
  repeat split; [done|done|].
  unfold PostCommit. cbn [layers].
  destruct (PostCommit_loop_spec N layers' (tone_map_sessions_ m') []
              (fb_session_index_ m') w' Hbound) as [f' ->].
  cbn. eauto.
Qed.

End Frames_whole.

Section Stale_index.

Variable N : nat.

(** X2.  Let the loop of [HandleToneMap] come, with an empty collection, to
    a layer that asks for tone mapping and is the GPU composition target,
    and let [AcquireToneMapSession] fail for it.  [HandleToneMap] has
    stored the session index before it looks at the error, and [Terminate]
    does nothing on an empty collection: the call returns [-1] with the
    collection still empty and the remembered frame-buffer index [0]. *)
Theorem HandleToneMap_failure_stale_index (ls : LayerStack) (m0 : HWCToneMapper)
  (w0 : World) (done : list Layer) (g : Z) (layer : Layer) (rest : list Layer)
  (m : HWCToneMapper) (w : World) :
  Reaches N (blend_cs ls) m0 w0 (layers ls) done g (layer :: rest) m w →
  tone_map (rq_flags (request layer)) = true →
  composition layer = kCompositionGPUTarget →
  tone_map_sessions_ m = [] →
  let a := AcquireToneMapSession N layer 0 (blend_cs ls) m w in
  a.1.1.1 ≠ kErrorNone →
  HandleToneMap N ls m0 w0
  = Ok (-1, {| layers := done ++ layer :: rest; blend_cs := blend_cs ls |},
        set_fb_session_index 0 m, a.2).
Proof.
  intros Hreach Htm Hc Hempty a Hfail. subst a.
  destruct (AcquireToneMapSession_rollback N w layer (blend_cs ls) 0 m Hfail)
    as (Hm & Hidx & _).
  unfold HandleToneMap. rewrite (Reaches_loop _ _ _ _ _ _ _ _ _ _ Hreach).
  cbn [HandleToneMap_loop]. unfold HandleToneMap_layer. rewrite Htm, Hc, Hempty.
  rewrite decide_False by done. cbn [length Nat.eqb negb andb].
  rewrite andb_false_r.
  destruct (AcquireToneMapSession N layer 0 (blend_cs ls) m w)
    as [[[err idx] m1] w1] eqn:Hacq.
  cbn [fst snd] in *. subst m1 idx.
  unfold HandleToneMap_acquired. rewrite decide_False by done.
  rewrite Terminate_eq. cbn [tone_map_sessions_ set_fb_session_index].
  rewrite Hempty, decide_True by done. reflexivity.
Qed.

End Stale_index.

(** * The remembered index across PostCommit *)

(** The sessions among the first [k] that [PostCommit] keeps. *)
Definition survivors_before (k : nat) (v : list ToneMapSession) : nat :=
  length (filter (λ s, acquired_ s = true) (take k v)).

Section Compaction.

Variable N : nat.
Variable layers' : list Layer.

Lemma PostCommit_loop_sessions (rest : list ToneMapSession) : ∀ kept f w v' f' w',
  PostCommit_loop N layers' kept rest f w = Ok (v', f', w') →
  v' = kept ++ (retire layers' <$> filter (λ s, acquired_ s = true) rest).
Proof.
  induction rest as [|s rest IH]; intros kept f w v' f' w' Hrun;
    cbn [PostCommit_loop] in Hrun.
  { simplify_eq. by rewrite app_nil_r. }
  destruct (acquired_ s) eqn:Hacq.
  - destruct (at_ layers' (UINT32 (layer_index_ s))) as [l|] eqn:Hat; [|done].
    cbn in Hrun. apply IH in Hrun as ->.
    rewrite filter_cons_True by done. rewrite fmap_cons, <- app_assoc.
    unfold retire at 2, bound_layer. unfold at_ in Hat.
    destruct (0 <=? UINT32 (layer_index_ s)); [|done].
    destruct (layers' !! Z.to_nat (UINT32 (layer_index_ s))); [|done].
    by simplify_eq.
  - apply IH in Hrun as ->. by rewrite filter_cons_False by (rewrite Hacq; done).
Qed.

Lemma survivors_before_cons (k : nat) s v :
  survivors_before (S k) (s :: v)
  = ((if acquired_ s then 1 else 0) + survivors_before k v)%nat.
Proof.
  unfold survivors_before. cbn [take]. destruct (acquired_ s) eqn:Hacq.
  - by rewrite filter_cons_True.
  - by rewrite filter_cons_False by (rewrite Hacq; done).
Qed.

Lemma PostCommit_loop_index (rest : list ToneMapSession) : ∀ kept f w v' f' w',
  Z.of_nat (length kept + length rest) < 2 ^ 31 →
  PostCommit_loop N layers' kept rest f w = Ok (v', f', w') →
  (f < Z.of_nat (length kept) → f' = f)
  ∧ (∀ (k : nat) s, f = Z.of_nat (length kept + k) → rest !! k = Some s →
       if acquired_ s
       then f' = Z.of_nat (length kept + survivors_before k rest)
       else f' = -1).
Proof.
  induction rest as [|s0 rest IH]; intros kept f w v' f' w' Hlen Hrun;
    cbn [PostCommit_loop] in Hrun.
  { simplify_eq. split; [done|]. intros k s _ Hk. done. }
  cbn [length] in Hlen.
  destruct (acquired_ s0) eqn:Hacq.
  - destruct (at_ layers' (UINT32 (layer_index_ s0))) as [l|]; [|done].
    cbn in Hrun. apply IH in Hrun as [Hbelow Hat].
    2:{ rewrite length_app. cbn. lia. }
    rewrite length_app in Hbelow, Hat. cbn [length] in Hbelow, Hat.
    split.
    + intros Hf. apply Hbelow. lia.
    + intros [|k] s Hf Hk; cbn in Hk.
      * simplify_eq. rewrite Hacq. unfold survivors_before. cbn.
        apply Hbelow. lia.
      * specialize (Hat k s ltac:(lia) Hk). rewrite survivors_before_cons, Hacq.
        destruct (acquired_ s); [|done]. rewrite Hat. lia.
  - rewrite INT_UINT32_small in Hrun by lia.
    apply IH in Hrun as [Hbelow Hat]; [|lia].
    split.
    + intros Hf. rewrite (proj2 (Z.eqb_neq _ _)) in Hbelow by lia.
      rewrite (proj2 (Z.ltb_ge _ _)) in Hbelow by lia. by apply Hbelow.
    + intros [|k] s Hf Hk; cbn in Hk.
      * simplify_eq. rewrite Hacq.
        rewrite (proj2 (Z.eqb_eq _ _)) in Hbelow by lia. apply Hbelow. lia.
      * rewrite (proj2 (Z.eqb_neq _ _)) in Hat by lia.
        rewrite (proj2 (Z.ltb_lt _ _)) in Hat by lia.
        specialize (Hat k s ltac:(lia) Hk). rewrite survivors_before_cons, Hacq.
        destruct (acquired_ s); [|done]. rewrite Hat. lia.
Qed.

Lemma lookup_survivor (v : list ToneMapSession) : ∀ (k : nat) s,
  v !! k = Some s → acquired_ s = true →
  filter (λ s, acquired_ s = true) v !! survivors_before k v = Some s.
Proof.
  induction v as [|s0 v IH]; intros k s Hk Hacq; [done|].
  destruct k as [|k]; cbn in Hk.
  - simplify_eq. rewrite filter_cons_True by done. reflexivity.
  - rewrite survivors_before_cons. destruct (acquired_ s0) eqn:Hacq0.
    + rewrite filter_cons_True by done. cbn. by apply IH.
    + rewrite filter_cons_False by (rewrite Hacq0; done). cbn. by apply IH.
Qed.

End Compaction.

Section Compaction_whole.

Variable N : nat.

(** X3.  Across a [PostCommit] that returns (on fewer than [2^31]
    sessions), the remembered frame-buffer index follows its session: a
    negative index is kept; an index that names an acquired session names
    the same session, as retired, afterwards; an index that names a session
    that is not acquired becomes [-1]. *)
Theorem PostCommit_keeps_frame_buffer_session (ls : LayerStack)
  (m : HWCToneMapper) (w : World) (m' : HWCToneMapper) (w' : World) :
  Z.of_nat (length (tone_map_sessions_ m)) < 2 ^ 31 →
  PostCommit N ls m w = Ok (m', w') →
  (fb_session_index_ m < 0 → fb_session_index_ m' = fb_session_index_ m)
  ∧ (∀ s, 0 <= fb_session_index_ m →
       tone_map_sessions_ m !! Z.to_nat (fb_session_index_ m) = Some s →
       if acquired_ s
       then 0 <= fb_session_index_ m'
            ∧ tone_map_sessions_ m' !! Z.to_nat (fb_session_index_ m')
              = Some (retire (layers ls) s)
       else fb_session_index_ m' = -1).
Proof.
  intros Hlen Hrun. unfold PostCommit in Hrun.
  destruct (PostCommit_loop N (layers ls) [] (tone_map_sessions_ m)
              (fb_session_index_ m) w) as [[[v f'] w1]|] eqn:Hloop; [|done].
  cbn in Hrun. simplify_eq. cbn [fb_session_index_ set_fb_session_index
                                  tone_map_sessions_ set_sessions].
  pose proof (PostCommit_loop_sessions _ _ _ _ _ _ _ _ _ Hloop) as Hv.
  apply PostCommit_loop_index in Hloop as [Hbelow Hat]; [|cbn; lia].
  cbn [length app Nat.add] in *. split; [done|].
  intros s Hf Hs.
  specialize (Hat (Z.to_nat (fb_session_index_ m)) s ltac:(lia) Hs).
  destruct (acquired_ s) eqn:Hacq; [|done].
  subst f'. split; [lia|]. rewrite Nat2Z.id, Hv.
  rewrite list_lookup_fmap. by rewrite (lookup_survivor _ _ _ Hs Hacq).
Qed.

End Compaction_whole.

(** * More of the session: freeing, blitting, dumping *)

Section Session_more.

Variable N : nat.

(** X4.  [FreeIntermediateBuffers] on a pool of [kNumIntermediateBuffers]
    slots empties every slot, releases in gralloc exactly the buffers the
    slots held and leaves every other buffer as it was; a second call
    changes nothing. *)
Theorem FreeIntermediateBuffers_idempotent (s : ToneMapSession) (w : World) :
  length (buffer_info_ s) = N →
  let r := FreeIntermediateBuffers N s w in
  Forall (λ b, private_data b = None) (buffer_info_ r.1)
  ∧ (∀ h, h ∈ held (buffer_info_ s) → w_buffers r.2 !! h = None)
  ∧ (∀ h, h ∉ held (buffer_info_ s) → w_buffers r.2 !! h = w_buffers w !! h)
  ∧ w_engines r.2 = w_engines w
  ∧ FreeIntermediateBuffers N r.1 r.2 = r.
Proof.
  intros Hlen r. subst r. rewrite FreeIntermediateBuffers_spec by done.
  cbn [fst snd buffer_info_ set_buffer_info w_buffers set_buffers w_engines].
  assert (Hnone : Forall (λ b, private_data b = None) (clear_slot <$> buffer_info_ s)).
  { apply Forall_fmap, Forall_true. done. }
  split; [exact Hnone|]. split; [|split; [|split; [reflexivity|]]].
  - intros h Hh. rewrite lookup_release_all. by rewrite decide_True.
  - intros h Hh. rewrite lookup_release_all. by rewrite decide_False.
  - rewrite FreeIntermediateBuffers_spec by (cbn; by rewrite length_fmap).
    cbn [buffer_info_ set_buffer_info w_buffers set_buffers].
    rewrite (held_empty _ Hnone). f_equal. unfold set_buffer_info. cbn. f_equal.
    apply list_eq. intros i. rewrite !list_lookup_fmap.
    by destruct (buffer_info_ s !! i).
Qed.


End Session_more.

(** * More of the manager: what a frame does to the layers *)

(** What [HandleToneMap] may make of a layer: nothing, or, for a layer that
    asks for tone mapping, the buffer record that [UpdateBuffer] publishes
    from some session. *)
Definition published (l l' : Layer) : Prop :=
  l' = l
  ∨ (tone_map (rq_flags (request l)) = true
     ∧ ∃ fence s, l' = set_input_buffer (UpdateBuffer fence (input_buffer l) s).2 l).

Section Manager_more.

Variable N : nat.

Lemma ToneMap_published layer s m w layer' s' m' w' :
  ToneMap layer s m w = Ok (layer', s', m', w') →
  ∃ fence, layer' = set_input_buffer (UpdateBuffer fence (input_buffer layer) s).2 layer.
Proof.
  unfold ToneMap. destruct (OnTask_Blit _ _ _ _) as [[fence w1]|]; [|done].
  cbn. destruct (DumpToneMapOutput _ _ _ _). intros ?. simplify_eq. by exists fence.
Qed.

Lemma HandleToneMap_acquired_published i g layer err idx m w flow layer' m' w' :
  tone_map (rq_flags (request layer)) = true →
  HandleToneMap_acquired N i g layer err idx m w = Ok (flow, layer', m', w') →
  published layer layer'.
Proof.
  intros Htm. unfold HandleToneMap_acquired. destruct (decide (err = kErrorNone)).
  - destruct (at_ _ _) as [s|]; [|done]. cbn.
    destruct (ToneMap layer s m w) as [[[[l1 s1] m1] w1]|] eqn:Hrun; [|done].
    cbn. intros ?. simplify_eq. apply ToneMap_published in Hrun as [fence ->].
    right. eauto.
  - destruct (Terminate N m w). intros ?. simplify_eq. by left.
Qed.

Lemma HandleToneMap_layer_published cs i g layer m w flow layer' m' w' :
  HandleToneMap_layer N cs i g layer m w = Ok (flow, layer', m', w') →
  published layer layer'.
Proof.
  unfold HandleToneMap_layer.
  destruct (tone_map _) eqn:Htm; [|intros ?; simplify_eq; by left].
  destruct (composition layer).
  1-3: destruct (AcquireToneMapSession _ _ _ _ _ _) as [[[err idx] m1] w1];
       by apply HandleToneMap_acquired_published.
  destruct (_ && _).
  - destruct (at_ _ _) as [s|]; [|done]. cbn. intros ?. simplify_eq.
    right. eauto.
  - destruct (AcquireToneMapSession _ _ _ _ _ _) as [[[err idx] m1] w1].
    by apply HandleToneMap_acquired_published.
Qed.

Lemma published_refl : ∀ l, published l l.
Proof. intros l. by left. Qed.

Lemma HandleToneMap_loop_published cs (todo : list Layer) :
  ∀ done g m w st layers' m' w',
    HandleToneMap_loop N cs done g todo m w = Ok (st, layers', m', w') →
    ∃ todo', layers' = done ++ todo' ∧ Forall2 published todo todo'.
Proof.
  induction todo as [|layer rest IH]; intros done g m w st layers' m' w' Hrun;
    cbn [HandleToneMap_loop] in Hrun.
  { simplify_eq. exists []. by rewrite app_nil_r. }
  destruct (HandleToneMap_layer N cs (length done) g layer m w)
    as [[[[flow l1] m1] w1]|] eqn:Hstep; [|done].
  apply HandleToneMap_layer_published in Hstep. cbn in Hrun.
  destruct flow as [g1|st1].
  - apply IH in Hrun as (todo' & -> & Hrest). exists (l1 :: todo').
    rewrite <- app_assoc. split; [done|]. by constructor.
  - simplify_eq. exists (l1 :: rest). split; [done|]. constructor; [done|].
    apply Forall_Forall2_diag, Forall_true, published_refl.
Qed.

(** X6.  A [HandleToneMap] that returns keeps the blend colour space and
    the number and order of the layers; each layer is either untouched or,
    if it asks for tone mapping, has the buffer record that [UpdateBuffer]
    publishes from a session, and nothing else of it is changed. *)
Theorem HandleToneMap_layers (ls : LayerStack) (m : HWCToneMapper) (w : World)
  (status : Z) (ls' : LayerStack) (m' : HWCToneMapper) (w' : World) :
  HandleToneMap N ls m w = Ok (status, ls', m', w') →
  blend_cs ls' = blend_cs ls
  ∧ Forall2 published (layers ls) (layers ls')
  ∧ Forall2 (λ l l', composition l' = composition l ∧ request l' = request l
                     ∧ lut_3d l' = lut_3d l) (layers ls) (layers ls').
Proof.
  unfold HandleToneMap. intros Hrun.
  destruct (HandleToneMap_loop N (blend_cs ls) [] 0 (layers ls) m w)
    as [[[[st layers'] m1] w1]|] eqn:Hloop; [|done].
  cbn in Hrun. simplify_eq. cbn [blend_cs layers].
  apply HandleToneMap_loop_published in Hloop as (todo' & -> & Hpub).
  cbn [app]. split; [done|]. split; [done|].
  eapply Forall2_impl; [exact Hpub|].
  intros l l' [->|(_ & fence & s & ->)]; [done|]. by cbn.
Qed.

Lemma HandleToneMap_loop_idle cs (todo : list Layer) : ∀ done g m w,
  Forall (λ l, tone_map (rq_flags (request l)) = false) todo →
  ∃ g', HandleToneMap_loop N cs done g todo m w = Ok (0, done ++ todo, m, w)
        ∧ g' = g.
Proof.
  induction todo as [|layer rest IH]; intros done g m w Hidle.
  { exists g. cbn. by rewrite app_nil_r. }
  apply Forall_cons in Hidle as [Hl Hrest]. cbn [HandleToneMap_loop].
  unfold HandleToneMap_layer. rewrite Hl. cbn.
  destruct (IH (done ++ [layer])
               (if decide (composition layer = kCompositionGPU)
                then UINT32 (g + 1) else g) m w Hrest) as (g' & -> & _).
  exists g. by rewrite <- app_assoc.
Qed.

(** X7.  When no layer of the stack asks for tone mapping (an empty stack
    included), [HandleToneMap] returns [0] and changes nothing: not the
    layers, not the manager, not the world (sessions acquired earlier stay
    as they are, and the remembered index is not touched). *)
Theorem HandleToneMap_idle (ls : LayerStack) (m : HWCToneMapper) (w : World) :
  Forall (λ l, tone_map (rq_flags (request l)) = false) (layers ls) →
  HandleToneMap N ls m w = Ok (0, ls, m, w).
Proof.
  intros Hidle. unfold HandleToneMap.
  destruct (HandleToneMap_loop_idle (blend_cs ls) (layers ls) [] 0 m w Hidle)
    as (g' & -> & _).
  cbn. by destruct ls.
Qed.

Lemma PostCommit_loop_unused layers' (rest : list ToneMapSession) : ∀ f w,
  Forall (λ s, acquired_ s = false) rest →
  PostCommit_loop N layers' [] rest f w
  = Ok ([],
        (if f <? 0 then f
         else if f <? Z.of_nat (length rest) then -1
         else f - Z.of_nat (length rest)),
        foldl (λ w s, ToneMapSession_delete N s w) w rest).
Proof.
  induction rest as [|s rest IH]; intros f w Hfree.
  { cbn. destruct (f <? 0) eqn:Hf; [done|].
    apply Z.ltb_ge in Hf. rewrite (proj2 (Z.ltb_ge _ _)) by lia.
    by rewrite Z.sub_0_r. }
  apply Forall_cons in Hfree as [Hs Hfree]. cbn [PostCommit_loop].
  rewrite Hs, (IH _ _ Hfree). cbn [length foldl].
  change (INT (UINT32 (Z.of_nat 0))) with 0.
  do 3 f_equal.
  destruct (Z.eqb_spec 0 f) as [<-|Hne]; [reflexivity|].
  destruct (Z.ltb_spec 0 f) as [Hpos|Hneg].
  - rewrite (proj2 (Z.ltb_ge _ _)) by lia.
    rewrite (proj2 (Z.ltb_ge f 0)) by lia.
    destruct (Z.ltb_spec (f - 1) (Z.of_nat (length rest)));
      destruct (Z.ltb_spec f (Z.of_nat (S (length rest)))); lia.
  - by rewrite (proj2 (Z.ltb_lt f 0)) by lia.
Qed.

(** X8.  [PostCommit] on a collection in which no session is acquired (as
    after a [PostCommit] with no [HandleToneMap] in between) never looks at
    the layers and never throws: it deletes every session, in order, and
    leaves the collection empty.  The remembered index becomes [-1] when it
    named a session, and is kept when it was negative. *)
Theorem PostCommit_unused (ls : LayerStack) (m : HWCToneMapper) (w : World) :
  Forall (λ s, acquired_ s = false) (tone_map_sessions_ m) →
  ∃ m',
    PostCommit N ls m w
    = Ok (m', foldl (λ w s, ToneMapSession_delete N s w) w (tone_map_sessions_ m))
    ∧ tone_map_sessions_ m' = []
    ∧ (fb_session_index_ m < 0 → fb_session_index_ m' = fb_session_index_ m)
    ∧ (0 <= fb_session_index_ m < Z.of_nat (length (tone_map_sessions_ m)) →
       fb_session_index_ m' = -1)
    ∧ dump_frame_count_ m' = dump_frame_count_ m
    ∧ dump_frame_index_ m' = dump_frame_index_ m.
Proof.
  intros Hfree. unfold PostCommit. rewrite PostCommit_loop_unused by done.
  cbn. eexists. split; [reflexivity|]. cbn. repeat split.
  - intros Hf. by rewrite (proj2 (Z.ltb_lt _ _) Hf).
  - intros [Hf Hlen]. rewrite (proj2 (Z.ltb_ge _ _) Hf).
    by rewrite (proj2 (Z.ltb_lt _ _) Hlen).
Qed.

End Manager_more.

(** * Every buffer and engine is accounted for

    The sessions of the collection own the gralloc buffers and the GPU
    engines that are live: each live buffer is in exactly one slot of one
    session, each live engine belongs to exactly one session.  The entry
    points keep this, on every path. *)

(** A session as the tone mapper keeps them in its collection: the pool and
    the fence array have [N] entries, the cursor is inside them, there is an
    engine, and every slot holds a buffer. *)
Definition session_ok (N : nat) (s : ToneMapSession) : Prop :=
  length (buffer_info_ s) = N
  ∧ length (release_fence_ s) = N
  ∧ 0 <= current_buffer_index_ s < Z.of_nat N
  ∧ is_Some (gpu_tone_mapper_ s)
  ∧ Forall (λ b, is_Some (private_data b)) (buffer_info_ s).

(** The handles in the pools of the sessions, and the sessions' engines. *)
Definition session_handles (v : list ToneMapSession) : list positive :=
  v ≫= (λ s, held (buffer_info_ s)).

Definition session_engines (v : list ToneMapSession) : list positive :=
  omap gpu_tone_mapper_ v.

Definition accounted (v : list ToneMapSession) (w : World) : Prop :=
  NoDup (session_handles v)
  ∧ (∀ h, h ∈ session_handles v ↔ is_Some (w_buffers w !! h))
  ∧ NoDup (session_engines v)
  ∧ (∀ e, e ∈ session_engines v ↔ is_Some (w_engines w !! e)).

(** The remembered index is [-1] or the index of a session; with an empty
    collection it may also be [0]. *)
Definition fb_in_range (m : HWCToneMapper) : Prop :=
  -1 <= fb_session_index_ m
  <= Z.max 0 (Z.of_nat (length (tone_map_sessions_ m)) - 1).

Definition consistent (N : nat) (m : HWCToneMapper) (w : World) : Prop :=
  Forall (session_ok N) (tone_map_sessions_ m)
  ∧ accounted (tone_map_sessions_ m) w
  ∧ fb_in_range m.

(** The session that the scan of [AcquireToneMapSession] hands out again. *)
Definition reused (N : nat) (s : ToneMapSession) : ToneMapSession :=
  set_acquired true
    (set_current_buffer_index
       (UINT8 (Z.rem (current_buffer_index_ s + 1) (Z.of_nat N))) s).

Lemma session_handles_cons s v :
  session_handles (s :: v) = held (buffer_info_ s) ++ session_handles v.
Proof. reflexivity. Qed.

Lemma session_handles_app v1 v2 :
  session_handles (v1 ++ v2) = session_handles v1 ++ session_handles v2.
Proof. apply bind_app. Qed.

Lemma session_engines_app v1 v2 :
  session_engines (v1 ++ v2) = session_engines v1 ++ session_engines v2.
Proof. apply omap_app. Qed.

Lemma session_handles_insert (v : list ToneMapSession) : ∀ (i : nat) s s',
  v !! i = Some s → buffer_info_ s' = buffer_info_ s →
  session_handles (<[i:=s']> v) = session_handles v.
Proof.
  induction v as [|t v IH]; intros i s s' Hi Hsame; [done|].
  destruct i as [|i]; cbn in Hi.
  - simplify_eq. cbn [insert list_insert]. by rewrite !session_handles_cons, Hsame.
  - change (<[S i:=s']> (t :: v)) with (t :: <[i:=s']> v).
    by rewrite !session_handles_cons, (IH i s s' Hi Hsame).
Qed.

Lemma session_engines_insert (v : list ToneMapSession) : ∀ (i : nat) s s',
  v !! i = Some s → gpu_tone_mapper_ s' = gpu_tone_mapper_ s →
  session_engines (<[i:=s']> v) = session_engines v.
Proof.
  induction v as [|t v IH]; intros i s s' Hi Hsame; [done|].
  destruct i as [|i]; cbn in Hi.
  - simplify_eq. unfold session_engines. cbn. by rewrite Hsame.
  - change (<[S i:=s']> (t :: v)) with (t :: <[i:=s']> v).
    unfold session_engines in *. cbn. by rewrite (IH i s s' Hi Hsame).
Qed.

Lemma accounted_insert v w (i : nat) s s' :
  v !! i = Some s → buffer_info_ s' = buffer_info_ s →
  gpu_tone_mapper_ s' = gpu_tone_mapper_ s →
  accounted v w → accounted (<[i:=s']> v) w.
Proof.
  intros Hi Hb He. unfold accounted.
  by rewrite (session_handles_insert v i s s' Hi Hb),
             (session_engines_insert v i s s' Hi He).
Qed.

Lemma accounted_world v w w' :
  w_buffers w' = w_buffers w → w_engines w' = w_engines w →
  accounted v w → accounted v w'.
Proof. unfold accounted. by intros -> ->. Qed.

Lemma accounted_nil w : accounted [] w ↔ w_buffers w = ∅ ∧ w_engines w = ∅.
Proof.
  unfold accounted. cbn. split.
  - intros (_ & Hb & _ & He). split; apply map_empty; intros x.
    + apply eq_None_not_Some. rewrite <- Hb. apply not_elem_of_nil.
    + apply eq_None_not_Some. rewrite <- He. apply not_elem_of_nil.
  - intros [-> ->]. repeat split; try constructor.
    + by intros ?%elem_of_nil.
    + rewrite lookup_empty. by intros [? ?].
    + by intros ?%elem_of_nil.
    + rewrite lookup_empty. by intros [? ?].
Qed.

Section Accounting.

Variable N : nat.

Lemma ToneMapSession_delete_resources s w :
  length (buffer_info_ s) = N →
  w_buffers (ToneMapSession_delete N s w)
  = release_all (held (buffer_info_ s)) (w_buffers w)
  ∧ w_engines (ToneMapSession_delete N s w)
    = match gpu_tone_mapper_ s with
      | Some e => delete e (w_engines w)
      | None => w_engines w
      end.
Proof.
  intros Hlen. unfold ToneMapSession_delete.
  rewrite FreeIntermediateBuffers_spec by done. cbn.
  by destruct (gpu_tone_mapper_ s).
Qed.

Lemma lookup_delete_sessions (ss : list ToneMapSession) : ∀ w,
  Forall (λ s, length (buffer_info_ s) = N) ss →
  (∀ h, w_buffers (foldl (λ w s, ToneMapSession_delete N s w) w ss) !! h
        = if decide (h ∈ session_handles ss) then None else w_buffers w !! h)
  ∧ (∀ e, w_engines (foldl (λ w s, ToneMapSession_delete N s w) w ss) !! e
          = if decide (e ∈ session_engines ss) then None else w_engines w !! e).
Proof.
  induction ss as [|s ss IH]; intros w Hlen.
  { split; intros x; by rewrite decide_False by apply not_elem_of_nil. }
  apply Forall_cons in Hlen as [Hs Hlen]. cbn [foldl].
  destruct (IH (ToneMapSession_delete N s w) Hlen) as [IHb IHe].
  destruct (ToneMapSession_delete_resources s w Hs) as [Hb He].
  split.
  - intros h. rewrite IHb, Hb, lookup_release_all, session_handles_cons.
    destruct (decide (h ∈ session_handles ss)) as [Hin|Hin].
    + rewrite decide_True; [done|]. apply elem_of_app. by right.
    + destruct (decide (h ∈ held (buffer_info_ s))) as [Hin'|Hin'].
      * rewrite decide_True; [done|]. apply elem_of_app. by left.
      * rewrite decide_False; [done|]. rewrite elem_of_app. tauto.
  - intros e. rewrite IHe, He. unfold session_engines. cbn [omap list_omap].
    fold (session_engines ss).
    destruct (gpu_tone_mapper_ s) as [e0|].
    + destruct (decide (e ∈ session_engines ss)) as [Hin|Hin].
      * rewrite decide_True; [done|]. by right.
      * destruct (decide (e = e0)) as [->|Hne].
        -- rewrite lookup_delete_eq. rewrite decide_True; [done|]. by left.
        -- rewrite lookup_delete_ne by done. rewrite decide_False; [done|].
           rewrite elem_of_cons. tauto.
    + done.
Qed.

Lemma foldr_delete_sessions (ss : list ToneMapSession) w :
  foldr (ToneMapSession_delete N) w ss
  = foldl (λ w s, ToneMapSession_delete N s w) w (reverse ss).
Proof.
  rewrite <- (reverse_involutive ss) at 1. generalize (reverse ss). clear ss.
  intros ss. revert w. induction ss as [|s ss IH]; intros w; [done|].
  rewrite reverse_cons, foldr_app. cbn. apply IH.
Qed.

Lemma session_handles_reverse ss h :
  h ∈ session_handles (reverse ss) ↔ h ∈ session_handles ss.
Proof.
  unfold session_handles. rewrite !list_elem_of_bind.
  split; intros (s & ? & ?); exists s; by rewrite elem_of_reverse in *.
Qed.

Lemma session_engines_reverse ss e :
  e ∈ session_engines (reverse ss) ↔ e ∈ session_engines ss.
Proof.
  unfold session_engines. rewrite !list_elem_of_omap.
  split; intros (s & ? & ?); exists s; by rewrite elem_of_reverse in *.
Qed.

(** Deleting all the sessions of an accounted collection leaves nothing. *)
Lemma delete_all_accounted v w :
  Forall (λ s, length (buffer_info_ s) = N) v → accounted v w →
  w_buffers (foldr (ToneMapSession_delete N) w v) = ∅
  ∧ w_engines (foldr (ToneMapSession_delete N) w v) = ∅.
Proof.
  intros Hlen (_ & Hb & _ & He). rewrite foldr_delete_sessions.
  destruct (lookup_delete_sessions (reverse v) w) as [Lb Le].
  { by apply Forall_reverse. }
  split; apply map_empty; intros x.
  - rewrite Lb. destruct (decide _) as [|Hn]; [done|].
    apply eq_None_not_Some. rewrite <- Hb. by rewrite <- session_handles_reverse.
  - rewrite Le. destruct (decide _) as [|Hn]; [done|].
    apply eq_None_not_Some. rewrite <- He. by rewrite <- session_engines_reverse.
Qed.

End Accounting.

Section PostCommit_whole.

Variable N : nat.


End PostCommit_whole.

Section Outcome.

Variable N : nat.

(** Outside the slots it fills, a successful allocation of the pool leaves
    gralloc as it was. *)
Lemma AllocateIntermediateBuffers_loop_elsewhere layer (n : nat) :
  ∀ (i : nat) s w s' w',
    (i + n = N)%nat → length (buffer_info_ s) = N →
    AllocateIntermediateBuffers_loop N n i layer s w = (kErrorNone, s', w') →
    ∀ x, x ∉ held (drop i (buffer_info_ s')) →
         w_buffers w' !! x = w_buffers w !! x.
Proof.
  induction n as [|n IH]; intros i s w s' w' Hin Hlen Hrun x Hx.
  { cbn in Hrun. by simplify_eq. }
  pose proof Hrun as Hwhole. cbn [AllocateIntermediateBuffers_loop] in Hrun.
  destruct (AllocateBuffer_view
              {| buffer_config := request_config layer;
                 alloc_buffer_info := alloc_buffer_info (buffer_info_at s i);
                 private_data := private_data (buffer_info_at s i) |} w)
    as [(info & uw & uh & rest & Hscript & Heq)|[Hfail Heq]];
    rewrite Heq in Hrun; clear Heq.
  2:{ rewrite decide_False in Hrun by done.
      destruct (FreeIntermediateBuffers _ _ _). by simplify_eq. }
  rewrite decide_True in Hrun by done.
  assert (Hlen1 : length (buffer_info_
                            (set_buffer_info
                               (<[i:={| buffer_config := request_config layer;
                                        alloc_buffer_info := info;
                                        private_data := Some (fresh_handle w) |}]>
                                  (buffer_info_ s)) s)) = N).
  { cbn. by rewrite length_insert. }
  destruct (AllocateIntermediateBuffers_loop_success N layer n (S i) _ _ _ _
              ltac:(lia) Hlen1 Hrun) as (_ & Htake & _).
  cbn [buffer_info_ set_buffer_info] in Htake.
  assert (Hi : buffer_info_ s' !! i
               = Some {| buffer_config := request_config layer;
                         alloc_buffer_info := info;
                         private_data := Some (fresh_handle w) |}).
  { rewrite <- (lookup_take_lt _ (S i)) by lia. rewrite Htake.
    rewrite lookup_take_lt by lia. apply list_lookup_insert_eq. lia. }
  rewrite (drop_S _ _ _ Hi) in Hx.
  change (held (?b :: ?bs)) with (fresh_handle w :: held bs) in Hx.
  apply not_elem_of_cons in Hx as [Hne Hx].
  rewrite (IH (S i) _ _ _ _ ltac:(lia) Hlen1 Hrun x Hx). cbn.
  by rewrite lookup_insert_ne.
Qed.

Lemma AcquireToneMapSession_scan_found w layer cs (v : list ToneMapSession) :
  ∀ (i0 i : nat) s',
    AcquireToneMapSession_scan N w layer cs i0 v = Some (i, s') →
    ∃ s, (i0 ≤ i)%nat ∧ v !! (i - i0)%nat = Some s ∧ acquired_ s = false
         ∧ s' = reused N s.
Proof.
  induction v as [|t v IH]; intros i0 i s' Hscan; [done|]. cbn in Hscan.
  destruct (negb (acquired_ t) && IsSameToneMapConfig w layer cs t) eqn:Ht.
  - simplify_eq. apply andb_true_iff in Ht as [Ht%negb_true_iff _].
    exists t. rewrite Nat.sub_diag. by repeat split.
  - apply IH in Hscan as (s & Hi & Hs & Hacq & ->). exists s.
    replace (i - i0)%nat with (S (i - S i0)) by lia. repeat split; [lia|done..].
Qed.

(** What a session that [AcquireToneMapSession] has just built is like. *)
Definition created (s : ToneMapSession) (w w1 : World) : Prop :=
  acquired_ s = true
  ∧ current_buffer_index_ s = 0
  ∧ layer_index_ s = -1
  ∧ length (buffer_info_ s) = N
  ∧ release_fence_ s = replicate N NullFence
  ∧ Forall (λ b, is_Some (private_data b)) (buffer_info_ s)
  ∧ NoDup (held (buffer_info_ s))
  ∧ (∀ h, h ∈ held (buffer_info_ s) →
          w_buffers w !! h = None ∧ is_Some (w_buffers w1 !! h))
  ∧ (∀ h, h ∉ held (buffer_info_ s) → w_buffers w1 !! h = w_buffers w !! h)
  ∧ ∃ e cfg, gpu_tone_mapper_ s = Some e
             ∧ w_engines w !! e = None
             ∧ w_engines w1 = <[e:=cfg]> (w_engines w).

(** The three ways [AcquireToneMapSession] ends: it fails and nothing is
    changed; it hands out a session that was not acquired; it appends a
    session it has built. *)
Lemma AcquireToneMapSession_outcome layer si cs m w err idx m1 w1 :
  AcquireToneMapSession N layer si cs m w = (err, idx, m1, w1) →
  (err ≠ kErrorNone ∧ m1 = m ∧ idx = si
   ∧ w_buffers w1 = w_buffers w ∧ w_engines w1 = w_engines w)
  ∨ (err = kErrorNone
     ∧ ∃ (j : nat) s,
         tone_map_sessions_ m !! j = Some s ∧ acquired_ s = false
         ∧ idx = UINT32 (Z.of_nat j) ∧ w1 = w
         ∧ m1 = set_sessions (<[j:=reused N s]> (tone_map_sessions_ m)) m)
  ∨ (err = kErrorNone
     ∧ ∃ s,
         idx = UINT32 (Z.of_nat (length (tone_map_sessions_ m)))
         ∧ m1 = set_sessions (tone_map_sessions_ m ++ [s]) m
         ∧ created s w w1).
Proof.
  intros Hrun. destruct (decide (err = kErrorNone)) as [->|Herr].
  2:{ left. pose proof (AcquireToneMapSession_rollback N w layer cs si m) as Hroll.
      rewrite Hrun in Hroll. cbn in Hroll.
      destruct (Hroll Herr) as (? & ? & ? & ? & _). done. }
  right. revert Hrun. unfold AcquireToneMapSession.
  destruct (_ || _); [done|].
  destruct (AcquireToneMapSession_scan _ _ _ _ _ _) as [[j s']|] eqn:Hscan.
  { intros ?. simplify_eq. left. split; [done|].
    apply AcquireToneMapSession_scan_found in Hscan as (s & _ & Hs & Hacq & ->).
    rewrite Nat.sub_0_r in Hs. by exists j, s. }
  unfold OnTask_GetInstance.
  match goal with
  | |- context [TonemapperFactory_GetInstance ?cfg ?w] =>
      destruct (TonemapperFactory_GetInstance_view cfg w) as [[_ ->]|[_ ->]];
      [set (engine_cfg := cfg)|]
  end; cbn [gpu_tone_mapper_ set_gpu_tone_mapper]; [|done].
  unfold AllocateIntermediateBuffers.
  destruct (AllocateIntermediateBuffers_loop N N 0 layer _ _) as [[err s2] w2] eqn:Halloc.
  destruct (decide (err = kErrorNone)) as [->|]; [|intros ?; by simplify_eq].
  intros ?. simplify_eq. right. split; [done|]. eexists. split.
  { rewrite length_app. cbn. do 2 f_equal. lia. }
  split; [reflexivity|].
  assert (Hlen0 : length (buffer_info_
                            (set_gpu_tone_mapper (Some (fresh_engine w))
                               (SetToneMapConfig layer cs (ToneMapSession_new N)))) = N).
  { cbn. apply length_replicate. }
  pose proof (AllocateIntermediateBuffers_loop_session N layer _ _ _ _ _ _ _
                Hlen0 Halloc) as Hs2.
  pose proof (AllocateIntermediateBuffers_loop_elsewhere layer N 0 _ _ _ _
                eq_refl Hlen0 Halloc) as Helse.
  destruct (AllocateIntermediateBuffers_loop_success N layer N 0 _ _ _ _
              eq_refl Hlen0 Halloc)
    as (Hlen2 & _ & Hmono & Hslots & Hfresh & Hnodup & Heng & _).
  rewrite drop_0 in Helse, Hfresh, Hnodup.
  cbn [w_buffers w_engines set_factory_script set_engines] in *.
  unfold created. rewrite Hs2. cbn.
  split_and!; try done.
  - apply Forall_lookup. intros j b Hj.
    destruct (Hslots j) as (h & info & uw & uh & Hb & _).
    { apply lookup_lt_Some in Hj. lia. }
    rewrite Hb in Hj. simplify_eq. by eexists.
  - intros h Hh. split; [by apply Hfresh|].
    apply list_elem_of_omap in Hh as (b & Hb & Hpd).
    apply list_elem_of_lookup in Hb as [j Hj].
    destruct (Hslots j) as (h' & info & uw & uh & Hb' & Hlive & _).
    { apply lookup_lt_Some in Hj. lia. }
    rewrite Hb' in Hj. simplify_eq. cbn in Hpd. simplify_eq. by eexists.
  - exists (fresh_engine w), engine_cfg. split; [done|].
    split; [apply fresh_engine_free | done].
Qed.

End Outcome.

Section Consistency.

Variable N : nat.
Hypothesis N_range : (0 < N ≤ 255)%nat.

Lemma session_ok_reused s : session_ok N s → session_ok N (reused N s).
Proof.
  intros (Hb & Hf & Hc & He & Hfull). unfold session_ok, reused. cbn.
  split_and!; try done; rewrite advance_cursor by (done || lia).
  - apply Z.mod_pos_bound. lia.
  - apply Z.mod_pos_bound. lia.
Qed.

Lemma session_ok_created s w w1 : created N s w w1 → session_ok N s.
Proof.
  intros (_ & Hc & _ & Hb & Hf & Hfull & _ & _ & _ & e & cfg & He & _).
  unfold session_ok. rewrite Hc, Hf, He, length_replicate.
  split_and!; try done; lia.
Qed.

Lemma fb_in_range_grow m v :
  (length (tone_map_sessions_ m) ≤ length v)%nat →
  fb_in_range m → fb_in_range (set_sessions v m).
Proof. unfold fb_in_range. cbn. lia. Qed.

Lemma accounted_created v s w w1 :
  created N s w w1 → accounted v w → accounted (v ++ [s]) w1.
Proof.
  intros (_ & _ & _ & _ & _ & _ & Hnodup & Hnew & Helse & e & cfg & He & Hefresh & Hengs)
         (Hvn & Hvb & Hen & Hve).
  unfold accounted. rewrite session_handles_app, session_engines_app.
  unfold session_engines at 2 4. cbn [omap list_omap]. rewrite He.
  unfold session_handles at 2 4. cbn. rewrite app_nil_r.
  split_and!.
  - apply NoDup_app. split_and!; [done| |done].
    intros h Hh Hh'. apply Hvb in Hh as [? Hh]. apply Hnew in Hh' as [Hh' _].
    congruence.
  - intros h. rewrite elem_of_app.
    destruct (decide (h ∈ held (buffer_info_ s))) as [Hin|Hin].
    + split; [|by right]. intros _. by apply Hnew.
    + rewrite (Helse h Hin), <- Hvb. tauto.
  - apply NoDup_app. split_and!; [done| |apply NoDup_singleton].
    intros x Hx ->%list_elem_of_singleton. apply Hve in Hx as [? Hx]. congruence.
  - intros x. rewrite elem_of_app, list_elem_of_singleton, Hengs.
    destruct (decide (x = e)) as [->|Hne].
    + rewrite lookup_insert_eq. split; [by eexists | by right].
    + rewrite lookup_insert_ne by done. rewrite <- Hve. tauto.
Qed.

(** [AcquireToneMapSession] keeps the collection consistent, and on success
    its index names a session that is acquired. *)
Lemma AcquireToneMapSession_keeps layer si cs m w err idx m1 w1 :
  consistent N m w →
  AcquireToneMapSession N layer si cs m w = (err, idx, m1, w1) →
  consistent N m1 w1
  ∧ fb_session_index_ m1 = fb_session_index_ m
  ∧ (length (tone_map_sessions_ m) ≤ length (tone_map_sessions_ m1)
     ≤ length (tone_map_sessions_ m) + 1)%nat
  ∧ (err ≠ kErrorNone → m1 = m ∧ idx = si)
  ∧ (err = kErrorNone →
     ∃ (j : nat) s, idx = UINT32 (Z.of_nat j)
                    ∧ tone_map_sessions_ m1 !! j = Some s ∧ acquired_ s = true).
Proof.
  intros (Hok & Hacc & Hfb) Hrun.
  apply AcquireToneMapSession_outcome in Hrun
    as [(Herr & -> & -> & Hb & He)
       |[(-> & j & s & Hj & Hfree & -> & -> & ->)|(-> & s & -> & -> & Hnew)]].
  - split_and!; try done; [|lia..].
    split; [done|]. split; [|done]. by eapply accounted_world.
  - cbn [tone_map_sessions_ set_sessions fb_session_index_]. rewrite length_insert.
    split_and!; try done; [|lia..|].
    + split; [|split].
      * apply Forall_insert; [done|]. apply session_ok_reused.
        by eapply Forall_lookup_1.
      * by eapply accounted_insert.
      * apply fb_in_range_grow; [by rewrite length_insert | done].
    + intros _. exists j, (reused N s). split; [done|]. split; [|done].
      apply list_lookup_insert_eq. by eapply lookup_lt_Some.
  - cbn [tone_map_sessions_ set_sessions fb_session_index_]. rewrite length_app.
    cbn [length]. split_and!; try done; [|lia..|].
    + split; [|split].
      * apply Forall_app. split; [done|]. constructor; [|done].
        by eapply session_ok_created.
      * by eapply accounted_created.
      * apply fb_in_range_grow; [rewrite length_app; cbn; lia | done].
    + intros _. exists (length (tone_map_sessions_ m)), s. split; [done|].
      split; [|by destruct Hnew]. by apply list_lookup_middle.
Qed.

Lemma ToneMap_returns layer s m w :
  is_Some (gpu_tone_mapper_ s) →
  ∃ layer' m' w',
    ToneMap layer s m w = Ok (layer', s, m', w')
    ∧ tone_map_sessions_ m' = tone_map_sessions_ m
    ∧ fb_session_index_ m' = fb_session_index_ m
    ∧ w_buffers w' = w_buffers w ∧ w_engines w' = w_engines w.
Proof.
  intros [e He]. unfold ToneMap, OnTask_Blit. rewrite He.
  unfold Tonemapper_blit, DumpToneMapOutput.
  destruct w as [bufs engs blits dumps als fs bs ms]. cbn.
  destruct bs as [|raw bs]; cbn;
    (destruct (dump_frame_count_ m =? 0); [by eexists _, _, _|]);
    (destruct ms as [|answer ms]; cbn; [by eexists _, _, _|]);
    (destruct (decide _); [destruct (_ && _)|]); by eexists _, _, _.
Qed.

Lemma consistent_bind m w (j : nat) s s' :
  tone_map_sessions_ m !! j = Some s →
  buffer_info_ s' = buffer_info_ s →
  gpu_tone_mapper_ s' = gpu_tone_mapper_ s →
  release_fence_ s' = release_fence_ s →
  current_buffer_index_ s' = current_buffer_index_ s →
  consistent N m w →
  consistent N (set_sessions (<[j:=s']> (tone_map_sessions_ m)) m) w.
Proof.
  intros Hj Hb He Hf Hc (Hok & Hacc & Hfb). split; [|split].
  - cbn. apply Forall_insert; [done|].
    pose proof (Forall_lookup_1 _ _ _ _ Hok Hj) as Hs.
    unfold session_ok in *. by rewrite Hb, He, Hf, Hc.
  - cbn. by eapply accounted_insert.
  - apply fb_in_range_grow; [by rewrite length_insert | done].
Qed.

Lemma consistent_frame m m' w w' :
  tone_map_sessions_ m' = tone_map_sessions_ m →
  fb_session_index_ m' = fb_session_index_ m →
  w_buffers w' = w_buffers w → w_engines w' = w_engines w →
  consistent N m w → consistent N m' w'.
Proof.
  intros Hs Hf Hb He (Hok & Hacc & Hfb). unfold consistent, fb_in_range.
  rewrite Hs, Hf. split; [done|]. split; [|done]. by eapply accounted_world.
Qed.

Lemma Terminate_consistent_aux m w :
  consistent N m w →
  tone_map_sessions_ (Terminate N m w).1 = []
  ∧ w_buffers (Terminate N m w).2 = ∅
  ∧ w_engines (Terminate N m w).2 = ∅
  ∧ consistent N (Terminate N m w).1 (Terminate N m w).2.
Proof.
  intros (Hok & Hacc & Hfb). rewrite Terminate_eq. cbn [fst snd].
  destruct (delete_all_accounted N (tone_map_sessions_ m) w) as [Hb He]; [|done|].
  { eapply Forall_impl; [exact Hok|]. by intros s (? & _). }
  assert (Hempty : tone_map_sessions_
                     (if decide (tone_map_sessions_ m = []) then m
                      else set_fb_session_index (-1) (set_sessions [] m)) = []).
  { by destruct (decide _). }
  split; [done|]. split; [done|]. split; [done|].
  unfold consistent, fb_in_range. rewrite Hempty.
  split; [constructor|]. split; [by apply accounted_nil|].
  destruct (decide _) as [Hnil|]; cbn; [|lia].
  unfold fb_in_range in Hfb. rewrite Hnil in Hfb. cbn in Hfb. lia.
Qed.

(** One turn of the loop on a consistent state returns and keeps it. *)
Lemma HandleToneMap_layer_consistent cs (i : nat) g layer m w :
  Z.of_nat i < 2 ^ 31 →
  Z.of_nat (length (tone_map_sessions_ m)) < 2 ^ 31 - 1 →
  consistent N m w →
  ∃ flow layer' m' w',
    HandleToneMap_layer N cs i g layer m w = Ok (flow, layer', m', w')
    ∧ consistent N m' w'
    ∧ (length (tone_map_sessions_ m') ≤ length (tone_map_sessions_ m) + 1)%nat
    ∧ match flow with
      | Continue _ => True
      | Return status => status = 0 ∨ (status = -1 ∧ tone_map_sessions_ m' = [])
      end.
Proof.
  intros Hi Hlen Hcons.
  assert (Hafter : ∀ g2 (target : bool),
            ∃ flow layer' m' w',
              (let '(error, session_index, m1, w1) :=
                 AcquireToneMapSession N layer 0 cs m w in
               HandleToneMap_acquired N i g2 layer error session_index
                 (if target then set_fb_session_index (INT session_index) m1 else m1) w1)
              = Ok (flow, layer', m', w')
              ∧ consistent N m' w'
              ∧ (length (tone_map_sessions_ m') ≤ length (tone_map_sessions_ m) + 1)%nat
              ∧ match flow with
                | Continue _ => True
                | Return status =>
                    status = 0 ∨ (status = -1 ∧ tone_map_sessions_ m' = [])
                end).
  { intros g2 target.
    destruct (AcquireToneMapSession N layer 0 cs m w) as [[[err idx] m1] w1] eqn:Hacq.
    destruct (AcquireToneMapSession_keeps _ _ _ _ _ _ _ _ _ Hcons Hacq)
      as (Hcons1 & Hfb1 & Hlen1 & Hfail & Hsucc).
    set (m2 := if target then set_fb_session_index (INT idx) m1 else m1).
    assert (Hs2 : tone_map_sessions_ m2 = tone_map_sessions_ m1).
    { unfold m2. by destruct target. }
    unfold HandleToneMap_acquired. destruct (decide (err = kErrorNone)) as [->|Herr].
    - destruct (Hsucc eq_refl) as (j & s & -> & Hj & Hacq').
      assert (Hjlt : (j < length (tone_map_sessions_ m1))%nat)
        by by eapply lookup_lt_Some.
      assert (Hcons2 : consistent N m2 w1).
      { destruct Hcons1 as (Hok & Hacc & Hfb). unfold m2. destruct target; [|done].
        split; [done|]. split; [done|]. unfold fb_in_range. cbn.
        rewrite INT_UINT32_small by lia. lia. }
      rewrite UINT32_small by lia. rewrite Hs2, (at_Some _ _ s) by (lia || by rewrite Nat2Z.id).
      cbn [mbind Result_bind].
      destruct (ToneMap_returns layer s m2 w1) as (l' & m3 & w3 & -> & Hs3 & Hf3 & Hb3 & He3).
      { destruct Hcons1 as (Hok & _). by destruct (Forall_lookup_1 _ _ _ _ Hok Hj) as (_ & _ & _ & ? & _). }
      cbn [mbind Result_bind]. eexists _, _, _, _. split; [reflexivity|].
      rewrite Nat2Z.id.
      assert (Hcons3 : consistent N m3 w3).
      { eapply consistent_frame; [exact Hs3|exact Hf3|exact Hb3|exact He3|exact Hcons2]. }
      split; [|split; [cbn; rewrite length_insert, Hs3, Hs2; lia|done]].
      rewrite <- Hs2, <- Hs3 in Hj. by apply (consistent_bind _ _ _ s).
    - destruct (Hfail Herr) as [-> ->].
      assert (Hcons2 : consistent N m2 w1).
      { destruct Hcons1 as (Hok & Hacc & Hfb). unfold m2. destruct target; [|done].
        split; [done|]. split; [done|]. unfold fb_in_range in *. cbn.
        change (INT 0) with 0. lia. }
      destruct (Terminate N m2 w1) as [m3 w3] eqn:Hterm.
      destruct (Terminate_consistent_aux m2 w1 Hcons2) as (Hnil & _ & _ & Hcons3).
      rewrite Hterm in Hnil, Hcons3. cbn in Hnil, Hcons3.
      eexists _, _, _, _. split; [reflexivity|].
      split; [done|]. split; [rewrite Hnil; cbn; lia|]. by right. }
  unfold HandleToneMap_layer.
  destruct (tone_map _).
  2:{ eexists _, _, _, _. split; [reflexivity|]. split; [done|]. split; [lia|done]. }
  destruct (composition layer).
  1-3: apply (Hafter _ false).
  destruct (_ && _) eqn:Hcond; [|apply (Hafter _ true)].
  apply andb_true_iff in Hcond as [_ [Hne Hfb0]%andb_true_iff].
  apply negb_true_iff, Nat.eqb_neq in Hne. apply Z.leb_le in Hfb0.
  destruct Hcons as (Hok & Hacc & Hfb). pose proof Hfb as Hfb'.
  unfold fb_in_range in Hfb'.
  destruct (lookup_lt_is_Some_2 (tone_map_sessions_ m)
              (Z.to_nat (fb_session_index_ m))) as [fbs Hfbs]; [lia|].
  rewrite UINT32_small by lia. rewrite (at_Some _ _ fbs) by done.
  cbn [mbind Result_bind]. eexists _, _, _, _. split; [reflexivity|].
  split; [|split; [cbn; rewrite length_insert; lia|by left]].
  by apply (consistent_bind _ _ _ fbs).
Qed.

Lemma HandleToneMap_loop_consistent cs (todo : list Layer) : ∀ done g m w,
  Z.of_nat (length done + length todo) < 2 ^ 31 →
  Z.of_nat (length (tone_map_sessions_ m) + length todo) < 2 ^ 31 →
  consistent N m w →
  ∃ status layers' m' w',
    HandleToneMap_loop N cs done g todo m w = Ok (status, layers', m', w')
    ∧ consistent N m' w'
    ∧ (status = 0 ∨ (status = -1 ∧ tone_map_sessions_ m' = [])).
Proof.
  induction todo as [|layer rest IH]; intros done g m w Hn Hs Hcons;
    cbn [HandleToneMap_loop].
  { eexists _, _, _, _. split; [reflexivity|]. split; [done|by left]. }
  cbn [length] in Hn, Hs.
  destruct (HandleToneMap_layer_consistent cs (length done) g layer m w)
    as (flow & l1 & m1 & w1 & -> & Hcons1 & Hlen1 & Hflow); [lia|lia|done|].
  cbn [mbind Result_bind]. destruct flow as [g1|st1].
  - apply IH; [rewrite length_app; cbn; lia | lia | done].
  - eexists _, _, _, _. split; [reflexivity|]. by split.
Qed.

End Consistency.

(** * Splitting a collection into its acquired and its other sessions *)

Section Partition.

Context {A : Type}.
Variable f : ToneMapSession → list A.

Lemma elem_of_bind_partition (v : list ToneMapSession) x :
  x ∈ v ≫= f
  ↔ x ∈ filter (λ s, acquired_ s = true) v ≫= f
    ∨ x ∈ filter (λ s, acquired_ s = false) v ≫= f.
Proof.
  rewrite !list_elem_of_bind. split.
  - intros (s & Hx & Hs). destruct (acquired_ s) eqn:Hacq.
    + left. exists s. split; [done|]. by apply list_elem_of_filter.
    + right. exists s. split; [done|]. by apply list_elem_of_filter.
  - intros [(s & Hx & Hs)|(s & Hx & Hs)]; exists s; split; try done;
      by apply list_elem_of_filter in Hs as [_ Hs].
Qed.

Lemma NoDup_bind_filter (P : ToneMapSession → Prop) `{!∀ s, Decision (P s)}
    (v : list ToneMapSession) :
  NoDup (v ≫= f) → NoDup (filter P v ≫= f).
Proof.
  induction v as [|s v IH]; [done|]. rewrite bind_cons.
  intros (Hs & Hdisj & Hv)%NoDup_app.
  destruct (decide (P s)) as [HP|HP].
  - rewrite filter_cons_True by done. rewrite bind_cons. apply NoDup_app.
    split; [done|]. split; [|by apply IH].
    intros x Hx Hx'. apply (Hdisj x Hx).
    apply list_elem_of_bind in Hx' as (t & Hxt & Ht).
    apply list_elem_of_bind. exists t. split; [done|].
    by apply list_elem_of_filter in Ht as [_ Ht].
  - rewrite filter_cons_False by done. by apply IH.
Qed.

Lemma bind_partition_disjoint (v : list ToneMapSession) x :
  NoDup (v ≫= f) →
  x ∈ filter (λ s, acquired_ s = true) v ≫= f →
  x ∉ filter (λ s, acquired_ s = false) v ≫= f.
Proof.
  induction v as [|s v IH]; [by intros _ ?%elem_of_nil|]. rewrite bind_cons.
  intros (Hs & Hdisj & Hv)%NoDup_app.
  assert (Hsub : ∀ (P : ToneMapSession → Prop) `{!∀ s, Decision (P s)},
            x ∈ filter P v ≫= f → x ∈ v ≫= f).
  { intros P ? (t & Hxt & Ht)%list_elem_of_bind. apply list_elem_of_bind.
    exists t. split; [done|]. by apply list_elem_of_filter in Ht as [_ Ht]. }
  destruct (acquired_ s) eqn:Hacq.
  - rewrite filter_cons_True by done.
    rewrite (filter_cons_False (λ s, acquired_ s = false)) by (rewrite Hacq; done).
    rewrite bind_cons. intros [Hx|Hx]%elem_of_app; [|by apply IH].
    intros Hx'%Hsub. by apply (Hdisj x).
  - rewrite filter_cons_False by (rewrite Hacq; done).
    rewrite (filter_cons_True (λ s, acquired_ s = false)) by done.
    rewrite bind_cons. intros Hx [Hx'|Hx']%elem_of_app.
    + apply Hsub in Hx. by apply (Hdisj x).
    + by apply (IH Hv Hx).
Qed.

Lemma bind_fmap_same (g : ToneMapSession → ToneMapSession) (v : list ToneMapSession) :
  (∀ s, f (g s) = f s) → (g <$> v) ≫= f = v ≫= f.
Proof.
  intros Hg. induction v as [|s v IH]; [done|].
  by rewrite fmap_cons, !bind_cons, Hg, IH.
Qed.

End Partition.

Lemma session_engines_bind (v : list ToneMapSession) :
  session_engines v = v ≫= (λ s, option_list (gpu_tone_mapper_ s)).
Proof.
  induction v as [|s v IH]; [done|]. rewrite bind_cons, <- IH.
  unfold session_engines. cbn. by destruct (gpu_tone_mapper_ s).
Qed.

Section Compaction_consistent.

Variable N : nat.

Lemma PostCommit_loop_world layers' (rest : list ToneMapSession) :
  ∀ kept f w v' f' w',
  PostCommit_loop N layers' kept rest f w = Ok (v', f', w') →
  w' = foldl (λ w s, ToneMapSession_delete N s w) w
             (filter (λ s, acquired_ s = false) rest).
Proof.
  induction rest as [|s rest IH]; intros kept f w v' f' w' Hrun;
    cbn [PostCommit_loop] in Hrun.
  { by simplify_eq. }
  destruct (acquired_ s) eqn:Hacq.
  - destruct (at_ layers' (UINT32 (layer_index_ s))) as [l|]; [|done].
    cbn in Hrun. apply IH in Hrun as ->.
    by rewrite filter_cons_False by (rewrite Hacq; done).
  - apply IH in Hrun as ->. by rewrite filter_cons_True by done.
Qed.

Lemma session_ok_retire layers' s : session_ok N s → session_ok N (retire layers' s).
Proof.
  intros (Hb & Hf & Hc & He & Hfull). unfold session_ok, retire, SetReleaseFence.
  cbn. by rewrite length_insert.
Qed.

(** The sessions that [PostCommit] keeps own exactly what is left of the
    world after the other sessions were deleted. *)
Lemma accounted_survivors layers' v w :
  Forall (session_ok N) v → accounted v w →
  accounted (retire layers' <$> filter (λ s, acquired_ s = true) v)
            (foldl (λ w s, ToneMapSession_delete N s w) w
                   (filter (λ s, acquired_ s = false) v)).
Proof.
  intros Hok (Hbn & Hb & Hen & He).
  destruct (lookup_delete_sessions N (filter (λ s, acquired_ s = false) v) w)
    as [Hwb Hwe].
  { apply Forall_forall. intros s [_ Hs]%list_elem_of_filter.
    by destruct (proj1 (Forall_forall _ _) Hok s Hs) as (? & _). }
  assert (Hh : session_handles (retire layers' <$> filter (λ s, acquired_ s = true) v)
               = session_handles (filter (λ s, acquired_ s = true) v)).
  { unfold session_handles. by apply bind_fmap_same. }
  assert (Hg : session_engines (retire layers' <$> filter (λ s, acquired_ s = true) v)
               = session_engines (filter (λ s, acquired_ s = true) v)).
  { rewrite !session_engines_bind. by apply bind_fmap_same. }
  unfold accounted. rewrite Hh, Hg. split; [|split; [|split]].
  - by apply NoDup_bind_filter.
  - intros h. rewrite Hwb. destruct (decide _) as [Hin|Hin].
    + split; [|by intros [? ?]]. intros Hin'.
      by eapply bind_partition_disjoint in Hin'.
    + rewrite <- Hb. unfold session_handles in *.
      rewrite (elem_of_bind_partition _ v). tauto.
  - rewrite session_engines_bind. apply NoDup_bind_filter.
    by rewrite <- session_engines_bind.
  - intros e. rewrite Hwe. destruct (decide _) as [Hin|Hin].
    + split; [|by intros [? ?]]. intros Hin'.
      rewrite session_engines_bind in Hin, Hin', Hen.
      by eapply bind_partition_disjoint in Hin'.
    + rewrite <- He. rewrite !session_engines_bind in *.
      rewrite (elem_of_bind_partition _ v). tauto.
Qed.

Lemma PostCommit_keeps ls m w m' w' :
  Z.of_nat (length (tone_map_sessions_ m)) < 2 ^ 31 →
  consistent N m w →
  PostCommit N ls m w = Ok (m', w') →
  consistent N m' w'
  ∧ Forall (λ s, acquired_ s = false) (tone_map_sessions_ m')
  ∧ (length (tone_map_sessions_ m') ≤ length (tone_map_sessions_ m))%nat.
Proof.
  intros Hlen (Hok & Hacc & Hfb) Hrun. unfold PostCommit in Hrun.
  destruct (decide (tone_map_sessions_ m = [])) as [Hnil|Hsome].
  { rewrite Hnil in Hrun. cbn in Hrun. simplify_eq. cbn.
    unfold consistent, fb_in_range in *. cbn. rewrite Hnil in Hfb, Hacc. cbn in Hfb.
    split; [|split; [constructor|cbn; lia]].
    split; [constructor|]. split; [done|lia]. }
  destruct (PostCommit_loop N (layers ls) [] (tone_map_sessions_ m)
              (fb_session_index_ m) w) as [[[v' f'] w'']|] eqn:Hloop; [|done].
  cbn in Hrun. simplify_eq.
  pose proof (PostCommit_loop_sessions _ _ _ _ _ _ _ _ _ Hloop) as Hv.
  pose proof (PostCommit_loop_world _ _ _ _ _ _ _ _ Hloop) as Hw.
  apply PostCommit_loop_index in Hloop as [Hbelow Hat]; [|cbn; lia].
  cbn [app length Nat.add] in Hv, Hbelow, Hat. subst v' w'.
  cbn [tone_map_sessions_ set_sessions set_fb_session_index].
  split; [split; [|split]|split].
  - cbn. apply Forall_fmap, Forall_forall. intros s [_ Hs]%list_elem_of_filter.
    apply session_ok_retire. by apply (proj1 (Forall_forall _ _) Hok s Hs).
  - cbn. by apply accounted_survivors.
  - unfold fb_in_range in *. cbn. rewrite length_fmap.
    destruct (decide (fb_session_index_ m < 0)) as [Hneg|Hpos].
    { rewrite Hbelow by done. lia. }
    destruct (tone_map_sessions_ m !! Z.to_nat (fb_session_index_ m))
      as [s|] eqn:Hs.
    + specialize (Hat (Z.to_nat (fb_session_index_ m)) s ltac:(lia) Hs). destruct (acquired_ s) eqn:Hacq; [|lia].
      pose proof (lookup_survivor _ _ _ Hs Hacq) as Hin%lookup_lt_Some. lia.
    + apply lookup_ge_None in Hs.
      destruct (tone_map_sessions_ m) as [|s0 v] eqn:Hm; [done|].
      cbn [length] in Hs, Hfb. lia.
  - apply Forall_fmap, Forall_true. done.
  - rewrite length_fmap. apply length_filter.
Qed.

End Compaction_consistent.

(** * The collection and the world stay consistent *)

Lemma consistent_start (N : nat) m w :
  tone_map_sessions_ m = [] → -1 <= fb_session_index_ m <= 0 →
  w_buffers w = ∅ → w_engines w = ∅ → consistent N m w.
Proof.
  intros Hv Hfb Hb He. unfold consistent, fb_in_range. rewrite Hv.
  split; [constructor|]. split; [by apply accounted_nil|]. cbn. lia.
Qed.

Lemma map_eq_world (bufs bufs' : gmap positive GrallocBuffer) :
  (∀ h, bufs !! h = bufs' !! h) → bufs = bufs'.
Proof. apply map_eq. Qed.

Section Consistency_whole.

Variable N : nat.

(** X9.  From a consistent state, with a pool size between 1 and 255,
    [AcquireToneMapSession] leaves a consistent state and the remembered
    frame-buffer index as it was.  When it fails, the manager and the live
    buffers and engines are what they were and the index variable keeps its
    value; when it succeeds, the index names a session of the collection that
    is acquired, has an engine, and has a full pool with its cursor inside. *)
Theorem AcquireToneMapSession_consistent layer si cs m w err idx m1 w1 :
  (0 < N ≤ 255)%nat →
  consistent N m w →
  AcquireToneMapSession N layer si cs m w = (err, idx, m1, w1) →
  consistent N m1 w1
  ∧ fb_session_index_ m1 = fb_session_index_ m
  ∧ (err ≠ kErrorNone →
     m1 = m ∧ idx = si
     ∧ w_buffers w1 = w_buffers w ∧ w_engines w1 = w_engines w)
  ∧ (err = kErrorNone →
     ∃ (j : nat) s,
       idx = UINT32 (Z.of_nat j)
       ∧ tone_map_sessions_ m1 !! j = Some s
       ∧ acquired_ s = true ∧ session_ok N s).
Proof.
  intros HN Hcons Hrun.
  destruct (AcquireToneMapSession_keeps N HN _ _ _ _ _ _ _ _ _ Hcons Hrun)
    as (Hcons1 & Hfb & _ & Hfail & Hsucc).
  split; [done|]. split; [done|]. split.
  - intros Herr. destruct (Hfail Herr) as [-> ->].
    apply AcquireToneMapSession_outcome in Hrun
      as [(_ & _ & _ & Hb & He)|[(-> & _)|(-> & _)]]; done.
  - intros Herr. destruct (Hsucc Herr) as (j & s & -> & Hj & Hacq).
    exists j, s. split; [done|]. split; [done|]. split; [done|].
    destruct Hcons1 as (Hok & _). by eapply Forall_lookup_1.
Qed.

(** X10.  From a consistent state, with a pool size between 1 and 255 and
    fewer than [2^31] layers and sessions in all, [HandleToneMap] returns: no
    [at] is out of range and no blit finds a session without engine.  The
    status is [0] or [-1], the state it leaves is consistent, and with [-1]
    the collection is empty and no buffer and no engine is live. *)
Theorem HandleToneMap_consistent ls m w :
  (0 < N ≤ 255)%nat →
  Z.of_nat (length (layers ls)) + Z.of_nat (length (tone_map_sessions_ m)) < 2 ^ 31 →
  consistent N m w →
  ∃ status ls' m' w',
    HandleToneMap N ls m w = Ok (status, ls', m', w')
    ∧ consistent N m' w'
    ∧ (status = 0
       ∨ (status = -1 ∧ tone_map_sessions_ m' = []
          ∧ w_buffers w' = ∅ ∧ w_engines w' = ∅)).
Proof.
  intros HN Hlen Hcons. unfold HandleToneMap.
  destruct (HandleToneMap_loop_consistent N HN (blend_cs ls) (layers ls) [] 0 m w)
    as (status & layers' & m' & w' & -> & Hcons' & Hstatus); [cbn; lia|lia|done|].
  cbn [mbind Result_bind]. eexists _, _, _, _. split; [reflexivity|].
  split; [done|]. destruct Hstatus as [->|[-> Hnil]]; [by left|right].
  split; [done|]. split; [done|].
  destruct Hcons' as (_ & Hacc & _). rewrite Hnil in Hacc.
  by apply accounted_nil in Hacc.
Qed.

(** X11.  When [PostCommit] returns from a consistent state with fewer than
    [2^31] sessions, the state it leaves is consistent: the sessions it kept
    own exactly the buffers and engines that are live, so everything the
    deleted sessions owned is gone and nothing of a kept session is; the
    remembered index is [-1] or the index of a kept session.  No kept session
    is acquired, and there are no more sessions than before. *)
Theorem PostCommit_consistent ls m w m' w' :
  Z.of_nat (length (tone_map_sessions_ m)) < 2 ^ 31 →
  consistent N m w →
  PostCommit N ls m w = Ok (m', w') →
  consistent N m' w'
  ∧ Forall (λ s, acquired_ s = false) (tone_map_sessions_ m')
  ∧ (length (tone_map_sessions_ m') ≤ length (tone_map_sessions_ m))%nat
  ∧ (tone_map_sessions_ m ≠ [] →
     fb_session_index_ m' = -1
     ∨ 0 <= fb_session_index_ m' < Z.of_nat (length (tone_map_sessions_ m'))).
Proof.
  intros Hlen Hcons Hrun.
  destruct (PostCommit_keeps N ls m w m' w' Hlen Hcons Hrun)
    as (Hcons' & Hfree & Hle).
  split; [done|]. split; [done|]. split; [done|].
  intros Hsome. destruct Hcons as (_ & _ & Hfb). unfold fb_in_range in Hfb.
  revert Hrun. unfold PostCommit.
  destruct (PostCommit_loop N (layers ls) [] (tone_map_sessions_ m)
              (fb_session_index_ m) w) as [[[v' f'] w'']|] eqn:Hloop; [|done].
  cbn. intros ?. simplify_eq. cbn.
  pose proof (PostCommit_loop_sessions _ _ _ _ _ _ _ _ _ Hloop) as Hv.
  apply PostCommit_loop_index in Hloop as [Hbelow Hat]; [|cbn; lia].
  cbn [app length Nat.add] in Hv, Hbelow, Hat. subst v'. rewrite length_fmap.
  destruct (decide (fb_session_index_ m < 0)) as [Hneg|Hpos].
  { left. rewrite Hbelow by done. lia. }
  destruct (tone_map_sessions_ m !! Z.to_nat (fb_session_index_ m))
    as [s|] eqn:Hs.
  - specialize (Hat (Z.to_nat (fb_session_index_ m)) s ltac:(lia) Hs).
    destruct (acquired_ s) eqn:Hacq; [right|by left].
    pose proof (lookup_survivor _ _ _ Hs Hacq) as Hin%lookup_lt_Some. lia.
  - apply lookup_ge_None in Hs.
    destruct (tone_map_sessions_ m) as [|s0 v] eqn:Hm; [done|].
    cbn [length] in Hs, Hfb. lia.
Qed.

(** X12.  [Terminate] from a consistent state leaves no session, no live
    buffer and no live engine, and the state it leaves is consistent. *)
Theorem Terminate_releases_all m w :
  consistent N m w →
  tone_map_sessions_ (Terminate N m w).1 = []
  ∧ w_buffers (Terminate N m w).2 = ∅
  ∧ w_engines (Terminate N m w).2 = ∅
  ∧ consistent N (Terminate N m w).1 (Terminate N m w).2.
Proof.
  intros (Hok & Hacc & Hfb). rewrite Terminate_eq. cbn [fst snd].
  destruct (delete_all_accounted N (tone_map_sessions_ m) w) as [Hb He]; [|done|].
  { eapply Forall_impl; [exact Hok|]. by intros s (? & _). }
  split; [by destruct (decide _)|]. split; [done|]. split; [done|].
  apply consistent_start; [by destruct (decide _)| |done|done].
  destruct (decide _) as [Hnil|]; cbn; [|lia].
  unfold fb_in_range in Hfb. rewrite Hnil in Hfb. cbn in Hfb. lia.
Qed.

(** X13.  A session that [AcquireToneMapSession] has built and appended can
    be taken back: deleting it in the world that the call left restores the
    live buffers and the live engines of the world before the call. *)
Theorem AcquireToneMapSession_then_delete layer si cs m w idx m1 w1 :
  AcquireToneMapSession N layer si cs m w = (kErrorNone, idx, m1, w1) →
  length (tone_map_sessions_ m1) = S (length (tone_map_sessions_ m)) →
  ∃ s,
    tone_map_sessions_ m1 = tone_map_sessions_ m ++ [s]
    ∧ idx = UINT32 (Z.of_nat (length (tone_map_sessions_ m)))
    ∧ w_buffers (ToneMapSession_delete N s w1) = w_buffers w
    ∧ w_engines (ToneMapSession_delete N s w1) = w_engines w.
Proof.
  intros Hrun Hlen.
  apply AcquireToneMapSession_outcome in Hrun
    as [(Herr & _)|[(_ & j & s & _ & _ & _ & _ & ->)|(_ & s & -> & -> & Hnew)]].
  - done.
  - cbn in Hlen. rewrite length_insert in Hlen. lia.
  - exists s. split; [done|]. split; [done|].
    destruct Hnew as (_ & _ & _ & Hb & _ & _ & _ & Hfresh & Helse
                      & e & cfg & He & Hefresh & Hengs).
    destruct (ToneMapSession_delete_resources N s w1 Hb) as [-> ->].
    split.
    + apply map_eq_world. intros h. rewrite lookup_release_all.
      destruct (decide _) as [Hin|Hin].
      * by destruct (Hfresh h Hin) as [-> _].
      * by apply Helse.
    + rewrite He, Hengs. by apply delete_insert_id.
Qed.

End Consistency_whole.

(** * A session that serves the same layer frame after frame *)


Section Steady_frames.

Variable N : nat.
Variables (layer : Layer) (cs : PrimariesTransfer).

Hypothesis N_range : (0 < N ≤ 255)%nat.
Hypothesis layer_flagged : tone_map (rq_flags (request layer)) = true.
Hypothesis layer_not_target : composition layer ≠ kCompositionGPUTarget.
Hypothesis layer_lut : lutEntries (lut_3d layer) ≠ None ∧ dim (lut_3d layer) ≠ 0.




End Steady_frames.

(** * A session built for a layer and the layer's next frame *)

Section Steady.

Variable N : nat.

Lemma AllocateIntermediateBuffers_loop_first layer (n : nat) s w s' w'
    info uw uh rest :
  (1 + n = N)%nat → length (buffer_info_ s) = N →
  w_alloc_script w = AllocOk info uw uh :: rest →
  AllocateIntermediateBuffers_loop N (S n) 0 layer s w = (kErrorNone, s', w') →
  ∃ h, private_data (buffer_info_at s' 0) = Some h
       ∧ w_buffers w' !! h
         = Some {| gb_config := request_config layer;
                   gb_unaligned_width := uw; gb_unaligned_height := uh |}.
Proof.
  intros Hn Hlen Hscript Hrun. cbn [AllocateIntermediateBuffers_loop] in Hrun.
  match type of Hrun with
  | context [AllocateBuffer ?bi w] =>
      destruct (AllocateBuffer_view bi w)
        as [(info' & uw' & uh' & rest' & Hscript' & Hcall)|[Hans Hcall]];
      rewrite Hcall in Hrun; clear Hcall
  end.
  2:{ rewrite decide_False in Hrun by done.
      destruct (FreeIntermediateBuffers _ _ _) in Hrun. by simplify_eq. }
  rewrite Hscript in Hscript'. injection Hscript' as <- <- <- <-.
  rewrite decide_True in Hrun by done.
  match type of Hrun with
  | AllocateIntermediateBuffers_loop _ _ _ _ ?s1 _ = _ =>
      assert (Hlen1 : length (buffer_info_ s1) = N)
        by (by cbn; rewrite length_insert)
  end.
  destruct (AllocateIntermediateBuffers_loop_success N layer n 1 _ _ _ _
              Hn Hlen1 Hrun)
    as (_ & Htake & Hmono & _).
  exists (fresh_handle w). split.
  - unfold buffer_info_at.
    assert (Hfirst : buffer_info_ s' !! 0%nat
                     = take 1 (buffer_info_ s') !! 0%nat).
    { by rewrite lookup_take_lt by lia. }
    rewrite Hfirst, Htake, lookup_take_lt by lia. cbn.
    rewrite list_lookup_insert_eq by lia. reflexivity.
  - apply Hmono. cbn. by rewrite lookup_insert_eq.
Qed.

Lemma AcquireToneMapSession_created_first layer si cs m w idx m1 w1
    info uw uh rest :
  (0 < N)%nat →
  w_alloc_script w = AllocOk info uw uh :: rest →
  AcquireToneMapSession N layer si cs m w = (kErrorNone, idx, m1, w1) →
  length (tone_map_sessions_ m1) = S (length (tone_map_sessions_ m)) →
  ∃ s h,
    tone_map_sessions_ m1 = tone_map_sessions_ m ++ [s]
    ∧ tone_map_config_ s
      = tone_map_config_ (SetToneMapConfig layer cs (ToneMapSession_new N))
    ∧ private_data (buffer_info_at s 0) = Some h
    ∧ w_buffers w1 !! h
      = Some {| gb_config := request_config layer;
                gb_unaligned_width := uw; gb_unaligned_height := uh |}.
Proof.
  intros HN Hscript. unfold AcquireToneMapSession.
  destruct (_ || _); [done|].
  destruct (AcquireToneMapSession_scan _ _ _ _ _ _) as [[j s']|] eqn:Hscan.
  { intros ? Hlen. simplify_eq. cbn in Hlen. rewrite length_insert in Hlen. lia. }
  unfold OnTask_GetInstance.
  match goal with
  | |- context [TonemapperFactory_GetInstance ?cfg ?w] =>
      destruct (TonemapperFactory_GetInstance_view cfg w) as [[_ ->]|[_ ->]]
  end; cbn [gpu_tone_mapper_ set_gpu_tone_mapper]; [|done].
  unfold AllocateIntermediateBuffers.
  destruct (Nat.lt_exists_pred 0 N HN) as (n & HNn & _).
  destruct (AllocateIntermediateBuffers_loop N N 0 layer _ _) as [[err s2] w2] eqn:Halloc.
  destruct (decide (err = kErrorNone)) as [->|]; [|intros ?; by simplify_eq].
  intros Heq _. injection Heq as <- <- <-.
  assert (Hlen0 : length (buffer_info_
                            (set_gpu_tone_mapper (Some (fresh_engine w))
                               (SetToneMapConfig layer cs (ToneMapSession_new N)))) = N).
  { cbn. apply length_replicate. }
  pose proof (AllocateIntermediateBuffers_loop_session N layer _ _ _ _ _ _ _
                Hlen0 Halloc) as Hs2.
  rewrite HNn in Halloc at 2.
  eapply AllocateIntermediateBuffers_loop_first in Halloc
    as (h & Hh & Hlive); [|lia|exact Hlen0|exact Hscript].
  exists (set_acquired true s2), h. split; [done|]. split; [|by split].
  rewrite Hs2. reflexivity.
Qed.

(** X15.  When [AcquireToneMapSession] builds a session for a layer, and the
    allocator's answer for the first buffer reports the unaligned width [uw]
    and height [uh], then once [PostCommit] has retired the session it can
    serve the same layer with the same blend colour space again exactly when
    [uw] and [uh] are the width and height the layer requests; the world may
    have changed in between as long as the live buffers are the same. *)
Theorem created_session_reusable layer si cs m w idx m1 w1 info uw uh rest :
  (0 < N)%nat →
  w_alloc_script w = AllocOk info uw uh :: rest →
  AcquireToneMapSession N layer si cs m w = (kErrorNone, idx, m1, w1) →
  length (tone_map_sessions_ m1) = S (length (tone_map_sessions_ m)) →
  ∃ s,
    tone_map_sessions_ m1 = tone_map_sessions_ m ++ [s]
    ∧ ∀ layers' w2,
        w_buffers w2 = w_buffers w1 →
        (reusable w2 layer cs (retire layers' s)
         ↔ rq_width (request layer) = uw ∧ rq_height (request layer) = uh).
Proof.
  intros HN Hscript Hrun Hlen.
  destruct (AcquireToneMapSession_created_first _ _ _ _ _ _ _ _ _ _ _ _
              HN Hscript Hrun Hlen) as (s & h & Hv & Hcfg & Hh & Hlive).
  exists s. split; [done|]. intros layers' w2 Hw2.
  unfold reusable, IsSameToneMapConfig, retire, SetReleaseFence.
  cbn [acquired_ set_acquired set_release_fence tone_map_config_ buffer_info_at
       buffer_info_].
  change (buffer_info_at (set_acquired false (set_release_fence ?f s)) 0)
    with (buffer_info_at s 0).
  rewrite Hcfg, Hh. cbn. rewrite Hw2, Hlive. cbn.
  rewrite !bool_decide_eq_true_2 by done. rewrite !Z.eqb_refl. cbn.
  rewrite andb_true_iff, !Z.eqb_eq. tauto.
Qed.

End Steady.

(** * The frame dump budget *)

(** The buffer that [DumpToneMapOutput] maps for a session. *)
Definition dump_target (s : ToneMapSession) : option positive :=
  private_data (buffer_info_at s (Z.to_nat (current_buffer_index_ s))).

(** The frames that end in the dump directory when every call of [cas]
    finds a dump pending and a [MapBuffer] that succeeds: a call counts for
    a frame number whether or not its file is written. *)
Fixpoint dumped (index : Z)
  (cas : list (ToneMapSession * FencePtr * MapAnswer)) : list (option positive * Z) :=
  match cas with
  | [] => []
  | (s, _, answer) :: rest =>
      (if map_base_ptr answer && map_fopen answer
       then [(dump_target s, index)] else [])
      ++ dumped (index + 1) rest
  end.

Lemma DumpToneMapOutput_run (calls : list (ToneMapSession * FencePtr)) :
  ∀ m w,
    0 <= dump_frame_count_ m → 0 <= dump_frame_index_ m →
    dump_frame_count_ m + dump_frame_index_ m < 2 ^ 32 →
    (length calls ≤ length (w_map_script w))%nat →
    Forall (λ answer, map_error answer = kErrorNone) (w_map_script w) →
    let r := foldl (λ mw c, DumpToneMapOutput c.1 c.2 mw.1 mw.2) (m, w) calls in
    let done := Z.of_nat (Z.to_nat (dump_frame_count_ m) `min` length calls) in
    w_dumps r.2
    = w_dumps w
      ++ dumped (dump_frame_index_ m)
                (take (Z.to_nat (dump_frame_count_ m)) (zip calls (w_map_script w)))
    ∧ dump_frame_count_ r.1 = dump_frame_count_ m - done
    ∧ dump_frame_index_ r.1 = dump_frame_index_ m + done
    ∧ tone_map_sessions_ r.1 = tone_map_sessions_ m
    ∧ fb_session_index_ r.1 = fb_session_index_ m.
Proof.
  induction calls as [|[s f] calls IH]; intros m w Hc Hi Hsum Hn Hok.
  { cbn. rewrite take_nil, app_nil_r, Nat.min_0_r. cbn.
    split; [done|]. split; [lia|]. split; [lia|done]. }
  cbn [foldl fst snd length] in *. unfold DumpToneMapOutput at 2 4 6 8 10.
  destruct (dump_frame_count_ m =? 0) eqn:Hzero.
  - apply Z.eqb_eq in Hzero.
    destruct (IH m w Hc Hi Hsum ltac:(lia) Hok) as (Hd & Hcount & Hindex & Hv & Hfb).
    rewrite Hzero in *. change (Z.to_nat 0) with 0%nat in *. cbn in *.
    by rewrite Hd, Hcount, Hindex, Hv, Hfb.
  - apply Z.eqb_neq in Hzero.
    destruct (w_map_script w) as [|answer script] eqn:Hscript; [cbn in Hn; lia|].
    apply Forall_cons in Hok as [Hanswer Hok]. cbn [length] in Hn.
    rewrite decide_True by done. unfold UINT32.
    rewrite !(Z.mod_small (dump_frame_count_ m - 1)) by lia.
    rewrite !(Z.mod_small (dump_frame_index_ m + 1)) by lia.
    match goal with
    | |- context [foldl _ (?m1, ?w1) calls] =>
        destruct (IH m1 w1) as (Hd & Hcount & Hindex & Hv & Hfb)
    end.
    { cbn. lia. }
    { cbn. lia. }
    { cbn. lia. }
    { destruct (_ && _); cbn; lia. }
    { by destruct (_ && _). }
    cbn [dump_frame_count_ dump_frame_index_ set_dump tone_map_sessions_
         fb_session_index_] in Hd, Hcount, Hindex, Hv, Hfb.
    rewrite Hd, Hcount, Hindex, Hv, Hfb.
    replace (Z.to_nat (dump_frame_count_ m))
      with (S (Z.to_nat (dump_frame_count_ m - 1))) by lia.
    cbn [zip zip_with take dumped].
    split; [|split; [lia|split; [lia|done]]].
    unfold dump_target.
    destruct (map_base_ptr answer && map_fopen answer); cbn;
      by rewrite <- ?app_assoc.
Qed.

(** X16.  After [SetFrameDumpConfig count], while [MapBuffer] succeeds, the
    first [count] calls of [DumpToneMapOutput] each take one frame number,
    from [0] in the order of the calls, and the calls after them take none
    and write nothing.  Of the first [count] calls, exactly those for which
    the base pointer is non-null and [fopen] succeeds write the current
    buffer of their session under their frame number; the others move the
    counters all the same.  The pending count ends at [count] less the
    number of calls counted and the next frame number is that number. *)
Theorem SetFrameDumpConfig_budget (count : Z)
    (calls : list (ToneMapSession * FencePtr)) (m : HWCToneMapper) (w : World) :
  0 <= count < 2 ^ 32 →
  (length calls ≤ length (w_map_script w))%nat →
  Forall (λ answer, map_error answer = kErrorNone) (w_map_script w) →
  let r := foldl (λ mw c, DumpToneMapOutput c.1 c.2 mw.1 mw.2)
                 (SetFrameDumpConfig count m, w) calls in
  let done := Z.of_nat (Z.to_nat count `min` length calls) in
  w_dumps r.2
  = w_dumps w ++ dumped 0 (take (Z.to_nat count) (zip calls (w_map_script w)))
  ∧ dump_frame_count_ r.1 = count - done
  ∧ dump_frame_index_ r.1 = done
  ∧ tone_map_sessions_ r.1 = tone_map_sessions_ m
  ∧ fb_session_index_ r.1 = fb_session_index_ m.
Proof.
  intros Hcount Hlen Hok.
  destruct (DumpToneMapOutput_run calls (SetFrameDumpConfig count m) w)
    as (Hd & Hc & Hi & Hv & Hfb); cbn; try lia; try done.
Qed.

(** * Concrete frames *)

(** An HDR layer of 1920 x 1080 whose buffer record still names the
    client's buffer ([handle_id] 78). *)
Definition example_buffer : LayerBuffer :=
  let plane := {| fd := 40; offset := 0; stride := 7680 |} in
  {| width := 1920; height := 1080;
     unaligned_width := 1920; unaligned_height := 1080;
     size := 8294400; format := 1;
     color_metadata := {| colorPrimaries := 9; transfer := 16 |};
     planes0 := plane; planes1 := plane; planes2 := plane; planes3 := plane;
     acquire_fence := PipelineFence 1; release_fence := PipelineFence 2;
     flags := {| hdr := true; lb_secure := false; video := true |};
     buffer_id := 77; handle_id := 78 |}.

Definition example_layer (c : LayerComposition) (lut_dim : Z) : Layer :=
  {| composition := c;
     input_buffer := example_buffer;
     request := {| rq_flags := {| tone_map := true; secure := false |};
                   rq_format := 3; rq_width := 1920; rq_height := 1080 |};
     lut_3d := {| lutEntries := Some 1%positive; dim := lut_dim;
                  validGridEntries := false; gridEntries := None;
                  gridSize := 0 |} |}.

Definition example_cs : PrimariesTransfer := {| primaries := 1; pt_transfer := 1 |}.

Definition example_frame (ls : list Layer) : LayerStack :=
  {| layers := ls; blend_cs := example_cs |}.

(** A world with nothing live, in which gralloc and the factory answer as
    the scripts say. *)
Definition example_world (alloc : list AllocOutcome) (factory : list bool) : World :=
  {| w_buffers := ∅; w_engines := ∅; w_blits := []; w_dumps := [];
     w_alloc_script := alloc; w_factory_script := factory;
     w_blit_script := [5; 6]; w_map_script := [] |}.

Definition example_alloc (n : Z) : AllocOutcome :=
  AllocOk {| ab_fd := 50 + n; ab_size := 8294400; ab_id := n |} 1920 1080.

(** The manager as constructed: no session, no frame-buffer session. *)
Definition example_manager : HWCToneMapper :=
  {| tone_map_sessions_ := []; fb_session_index_ := -1;
     dump_frame_count_ := 0; dump_frame_index_ := 0 |}.

(** The state after one frame with a single tone-mapped GPU target layer has
    been handled and committed: one session, remembered as the frame-buffer
    session, with its two buffers live. *)
Definition example_after_frame : HWCToneMapper * World :=
  Eval vm_compute in
    match
      HandleToneMap 2 (example_frame [example_layer kCompositionGPUTarget 17])
        example_manager (example_world [example_alloc 1; example_alloc 2] [true])
      ≫= (λ '(_, ls, m, w), PostCommit 2 ls m w)
    with
    | Ok r => r
    | Throw _ => (example_manager, example_world [] [])
    end.

Definition example_session : ToneMapSession :=
  Eval vm_compute in
    default (ToneMapSession_new 2) (tone_map_sessions_ example_after_frame.1 !! 0%nat).

Lemma example_after_frame_live :
  tone_map_sessions_ example_after_frame.1 = [example_session]
  ∧ fb_session_index_ example_after_frame.1 = 0
  ∧ acquired_ example_session = false
  ∧ current_buffer_index_ example_session = 0
  ∧ held (buffer_info_ example_session) = [1%positive; 2%positive]
  ∧ dom (w_buffers example_after_frame.2) = {[1%positive; 2%positive]}
  ∧ dom (w_engines example_after_frame.2) = {[1%positive]}.
Proof. repeat split; try reflexivity; by vm_compute. Qed.

(** ** The theorems at concrete inputs *)

(** The lookup table has dimension zero: [kErrorParameters], nothing touched.
    The second allocation fails: the allocator's error, and the manager and
    the live buffers and engines are those of before. *)
Lemma AcquireToneMapSession_failure_witness :
  AcquireToneMapSession 2 (example_layer kCompositionSDE 0) 0 example_cs
    example_after_frame.1 example_after_frame.2
  = (kErrorParameters, 0, example_after_frame.1, example_after_frame.2)
  ∧ (let w := example_world [example_alloc 1; AllocFail kErrorResources] [true] in
     let r := AcquireToneMapSession 2 (example_layer kCompositionSDE 17) 0
                example_cs example_manager w in
     r.1.1.1 = kErrorResources ∧ r.1.2 = example_manager
     ∧ w_buffers r.2 = w_buffers w ∧ w_engines r.2 = w_engines w).
Proof.
  split.
  - apply (AcquireToneMapSession_failure 2 example_after_frame.2
             (example_layer kCompositionSDE 0) example_cs 0 example_after_frame.1).
    right. reflexivity.
  - cbv zeta.
    pose proof (AcquireToneMapSession_failure 2
                  (example_world [example_alloc 1; AllocFail kErrorResources] [true])
                  (example_layer kCompositionSDE 17) example_cs 0 example_manager)
      as (Hframe & _ & _ & Hcode).
    cbv zeta in Hframe, Hcode.
    assert (Herr : (AcquireToneMapSession 2 (example_layer kCompositionSDE 17) 0
                      example_cs example_manager
                      (example_world [example_alloc 1; AllocFail kErrorResources]
                                     [true])).1.1.1
                   = kErrorResources).
    { apply (Hcode ltac:(discriminate) ltac:(discriminate)
                   ltac:(intros t Ht; inversion Ht) eq_refl 2%nat).
      - lia.
      - intros [|j] Hj; [reflexivity|lia].
      - discriminate. }
    split; [exact Herr|].
    destruct Hframe as (Hm & _ & Hb & He & _).
    { rewrite Herr. discriminate. }
    repeat split; assumption.
Defined.





(** The second of two allocations fails with [kErrorResources]. *)
Lemma AllocateIntermediateBuffers_all_or_nothing_witness :
  let w := example_world [example_alloc 1; AllocFail kErrorResources] [] in
  let r := AllocateIntermediateBuffers 2 (example_layer kCompositionSDE 17)
             (ToneMapSession_new 2) w in
  r.1.1 = kErrorResources
  ∧ Forall (λ b, private_data b = None) (buffer_info_ r.1.2)
  ∧ w_buffers r.2 = w_buffers w.
Proof.
  cbv zeta.
  destruct (AllocateIntermediateBuffers_all_or_nothing 2
              (example_layer kCompositionSDE 17) (ToneMapSession_new 2)
              (example_world [example_alloc 1; AllocFail kErrorResources] [])
              eq_refl) as [Hfail _].
  destruct (Hfail 2%nat) as (Herr & Hnone & _ & Hexact).
  - lia.
  - intros [|j] Hj; [reflexivity|lia].
  - discriminate.
  - split; [exact Herr|]. split; [exact Hnone|]. apply Hexact. reflexivity.
Defined.

(** A session that is not acquired at index 0, followed by the
    frame-buffer session (index 1), which is acquired: removing the first
    moves the remembered index from 1 to 0. *)
Lemma PostCommit_loop_compaction_witness :
  let kept_session := set_acquired true example_session in
  let m := set_fb_session_index 1
             (set_sessions [example_session; kept_session] example_after_frame.1) in
  let ls := example_frame [example_layer kCompositionGPUTarget 17] in
  PostCommit 2 ls m example_after_frame.2
  = Ok (set_fb_session_index 0
          (set_sessions [retire (layers ls) kept_session] m),
        ToneMapSession_delete 2 example_session example_after_frame.2).
Proof.
  intros kept_session m ls.
  destruct (PostCommit_loop_compaction 2 (layers ls) [] [kept_session]
              example_session 1 example_after_frame.2 eq_refl eq_refl)
    as (_ & _ & Hwhole).
  destruct (Hwhole example_cs m [] eq_refl eq_refl eq_refl) as (_ & Hbelow & _).
  - constructor.
  - repeat constructor. by eexists.
  - apply Hbelow. reflexivity.
Defined.

(** The next frame asks for the same configuration while no GPU layer has
    been seen before a layer that is not the GPU target: the session is used
    again and its cursor moves from 0 to 1. *)
Lemma AcquireToneMapSession_reuse_or_create_witness :
  AcquireToneMapSession 2 (example_layer kCompositionSDE 17) 0 example_cs
    example_after_frame.1 example_after_frame.2
  = (kErrorNone, 0,
     set_sessions
       [set_acquired true (set_current_buffer_index 1 example_session)]
       example_after_frame.1,
     example_after_frame.2).
Proof.
  pose proof (AcquireToneMapSession_reuse_or_create 2 example_after_frame.2
                (example_layer kCompositionSDE 17) example_cs 0 example_after_frame.1)
    as Hthm.
  destruct Hthm as [Hreuse _].
  - lia.
  - discriminate.
  - discriminate.
  - apply (Hreuse 0%nat example_session eq_refl).
    + split; reflexivity.
    + discriminate.
    + intros j t Hj. inversion Hj.
Defined.


(** A frame of two layers in a fresh manager: the first is tone-mapped, the
    lookup table of the second has dimension zero. *)
Definition example_failing_frame : LayerStack :=
  example_frame [example_layer kCompositionSDE 17; example_layer kCompositionSDE 0].

Definition example_failing_world : World :=
  example_world [example_alloc 1; example_alloc 2] [true].

Lemma HandleToneMap_acquire_failure_witness :
  ∃ l0 m' w',
    HandleToneMap 2 example_failing_frame example_manager example_failing_world
    = Ok (-1, example_frame [l0; example_layer kCompositionSDE 0], m', w')
    ∧ tone_map_sessions_ m' = [].
Proof.
  assert (Hreach : ∃ l0 m w,
             Reaches 2 (blend_cs example_failing_frame) example_manager
               example_failing_world
               (layers example_failing_frame) ([] ++ [l0]) 0
               [example_layer kCompositionSDE 0] m w
             ∧ (AcquireToneMapSession 2 (example_layer kCompositionSDE 0) 0
                  (blend_cs example_failing_frame) m w).1.1.1 = kErrorParameters).
  { eexists _, _, _. split.
    - eapply Reaches_step; [apply Reaches_start|]. vm_compute. reflexivity.
    - reflexivity. }
  destruct Hreach as (l0 & m & w & Hreach & Herr).
  destruct (HandleToneMap_acquire_failure 2 example_failing_frame example_manager
              example_failing_world _ _ _ _ _ _ Hreach eq_refl eq_refl)
    as (m' & w' & Hrun & Hempty & _).
  { cbv zeta. rewrite Herr. discriminate. }
  exists l0, m', w'. split; [exact Hrun | exact Hempty].
Defined.

(** The frame of [example_after_frame], handled from the fresh manager. *)
Lemma HandleToneMap_then_PostCommit_witness :
  ∃ ls' m' w',
    HandleToneMap 2 (example_frame [example_layer kCompositionGPUTarget 17])
      example_manager (example_world [example_alloc 1; example_alloc 2] [true])
    = Ok (0, ls', m', w')
    ∧ ∃ r, PostCommit 2 ls' m' w' = Ok r.
Proof.
  eexists _, _, _. split; [vm_compute; reflexivity|].
  eapply (HandleToneMap_then_PostCommit 2
            (example_frame [example_layer kCompositionGPUTarget 17])
            example_manager
            (example_world [example_alloc 1; example_alloc 2] [true])).
  - reflexivity.
  - reflexivity.
  - constructor.
  - vm_compute. reflexivity.
Defined.

(** The first frame of a fresh manager, with a lookup table of dimension
    zero on its GPU target layer. *)
Lemma HandleToneMap_failure_stale_index_witness :
  HandleToneMap 2 (example_frame [example_layer kCompositionGPUTarget 0])
    example_manager (example_world [] [])
  = Ok (-1, example_frame [example_layer kCompositionGPUTarget 0],
        set_fb_session_index 0 example_manager, example_world [] []).
Proof.
  apply (HandleToneMap_failure_stale_index 2
           (example_frame [example_layer kCompositionGPUTarget 0])
           example_manager (example_world [] []) [] 0
           (example_layer kCompositionGPUTarget 0) []
           example_manager (example_world [] [])).
  - apply Reaches_start.
  - reflexivity.
  - reflexivity.
  - reflexivity.
  - discriminate.
Defined.

(** The frame-buffer session of [example_after_frame], acquired again and
    preceded by a session that is not acquired: the index moves from 1 to 0
    and still names it. *)
Lemma PostCommit_keeps_frame_buffer_session_witness :
  let m := set_fb_session_index 1
             (set_sessions [example_session; set_acquired true example_session]
                           example_after_frame.1) in
  ∃ m' w',
    PostCommit 2 (example_frame [example_layer kCompositionGPUTarget 17]) m
               example_after_frame.2 = Ok (m', w')
    ∧ fb_session_index_ m' = 0
    ∧ tone_map_sessions_ m' !! Z.to_nat (fb_session_index_ m')
      = Some (retire [example_layer kCompositionGPUTarget 17]
                     (set_acquired true example_session)).
Proof.
  cbv zeta.
  destruct (PostCommit 2 (example_frame [example_layer kCompositionGPUTarget 17])
              (set_fb_session_index 1
                 (set_sessions [example_session; set_acquired true example_session]
                               example_after_frame.1))
              example_after_frame.2) as [[m' w']|] eqn:Hrun.
  2:{ vm_compute in Hrun. discriminate. }
  exists m', w'. split; [reflexivity|].
  destruct (PostCommit_keeps_frame_buffer_session 2
              (example_frame [example_layer kCompositionGPUTarget 17])
              (set_fb_session_index 1
                 (set_sessions [example_session; set_acquired true example_session]
                               example_after_frame.1))
              example_after_frame.2 m' w' eq_refl Hrun)
    as [_ Hat].
  specialize (Hat (set_acquired true example_session) ltac:(discriminate) eq_refl).
  cbn [acquired_ set_acquired] in Hat. destruct Hat as [_ Hat].
  split; [|exact Hat].
  vm_compute in Hrun. injection Hrun as <- _. reflexivity.
Defined.

(** ** Where the code departs from the specification *)

(** C5 as specified fails.  In [example_failing_frame] the acquisition for
    the second layer fails: [HandleToneMap] returns [-1] with no session
    and no buffer left, and yet the record of the first layer has been
    rewritten by its blit and names the intermediate buffer (id 1), which is
    no longer live.  The frame is left with one layer tone-mapped and one
    not. *)
Lemma HandleToneMap_failure_keeps_blitted_layers :
  ∃ ls' m' w',
    HandleToneMap 2 example_failing_frame example_manager example_failing_world
    = Ok (-1, ls', m', w')
    ∧ tone_map_sessions_ m' = []
    ∧ w_buffers w' = ∅
    ∧ (handle_id ∘ input_buffer) <$> layers example_failing_frame = [78; 78]
    ∧ (handle_id ∘ input_buffer) <$> layers ls' = [1; 78]
    ∧ (acquire_fence ∘ input_buffer) <$> layers ls'
      = [Fence_Create 5; PipelineFence 1]
    ∧ length (w_blits w') = 1%nat.
Proof.
  eexists _, _, _. split; [vm_compute; reflexivity|].
  repeat split.
Qed.

(** C9 as specified fails.  [Terminate] on an empty collection does nothing,
    so a remembered index that is not [-1] stays. *)
Lemma Terminate_empty_keeps_index :
  let m := {| tone_map_sessions_ := []; fb_session_index_ := 0;
              dump_frame_count_ := 0; dump_frame_index_ := 0 |} in
  Terminate 2 m (example_world [] []) = (m, example_world [] [])
  ∧ fb_session_index_ (Terminate 2 m (example_world [] [])).1 = 0.
Proof. split; reflexivity. Qed.

(** ** More concrete frames *)

(** An SDR layer that does not ask for tone mapping. *)
Definition example_plain_layer : Layer :=
  {| composition := kCompositionGPU;
     input_buffer := example_buffer;
     request := {| rq_flags := {| tone_map := false; secure := false |};
                   rq_format := 3; rq_width := 1920; rq_height := 1080 |};
     lut_3d := {| lutEntries := None; dim := 0;
                  validGridEntries := false; gridEntries := None;
                  gridSize := 0 |} |}.

(** The state in which [HandleToneMap] leaves the first frame of
    [example_after_frame], before [PostCommit]: one session, acquired and
    bound to layer 0. *)
Definition example_handled : Z * list Layer * HWCToneMapper * World :=
  Eval vm_compute in
    match
      HandleToneMap_loop 2 example_cs [] 0 [example_layer kCompositionGPUTarget 17]
        example_manager (example_world [example_alloc 1; example_alloc 2] [true])
    with
    | Ok r => r
    | Throw _ => (0, [], example_manager, example_world [] [])
    end.

Lemma example_start_consistent alloc factory :
  consistent 2 example_manager (example_world alloc factory).
Proof. apply consistent_start; [reflexivity|cbn; lia|reflexivity|reflexivity]. Qed.

Lemma example_handled_consistent :
  consistent 2 example_handled.1.2 example_handled.2.
Proof.
  destruct (HandleToneMap_loop_consistent 2 ltac:(lia) example_cs
              [example_layer kCompositionGPUTarget 17] [] 0 example_manager
              (example_world [example_alloc 1; example_alloc 2] [true]))
    as (st & ls' & m' & w' & Hrun & Hcons & _);
    [cbn; lia|cbn; lia|apply example_start_consistent|].
  vm_compute in Hrun. injection Hrun as <- <- <- <-. exact Hcons.
Qed.

(** Freeing the pool of [example_session] twice. *)
Lemma FreeIntermediateBuffers_idempotent_witness :
  let r := FreeIntermediateBuffers 2 example_session example_after_frame.2 in
  FreeIntermediateBuffers 2 r.1 r.2 = r.
Proof.
  exact (proj2 (proj2 (proj2 (proj2
           (FreeIntermediateBuffers_idempotent 2 example_session
              example_after_frame.2 eq_refl))))).
Defined.

(** The first frame of a fresh manager: the layer's buffer record is the one
    a session publishes. *)
Lemma HandleToneMap_layers_witness :
  match
    HandleToneMap 2 (example_frame [example_layer kCompositionGPUTarget 17])
      example_manager (example_world [example_alloc 1; example_alloc 2] [true])
  with
  | Ok (_, ls', _, _) =>
      Forall2 published [example_layer kCompositionGPUTarget 17] (layers ls')
  | Throw _ => False
  end.
Proof.
  destruct (HandleToneMap 2 (example_frame [example_layer kCompositionGPUTarget 17])
              example_manager
              (example_world [example_alloc 1; example_alloc 2] [true]))
    as [[[[st ls'] m'] w']|e] eqn:Hrun.
  - exact (proj1 (proj2 (HandleToneMap_layers 2 _ _ _ _ _ _ _ Hrun))).
  - vm_compute in Hrun. discriminate Hrun.
Defined.

(** A frame of two layers that do not ask for tone mapping, with the session
    of [example_after_frame] in the collection. *)
Lemma HandleToneMap_idle_witness :
  HandleToneMap 2 (example_frame [example_plain_layer; example_plain_layer])
    example_after_frame.1 example_after_frame.2
  = Ok (0, example_frame [example_plain_layer; example_plain_layer],
        example_after_frame.1, example_after_frame.2).
Proof.
  apply (HandleToneMap_idle 2
           (example_frame [example_plain_layer; example_plain_layer])).
  repeat constructor.
Defined.

(** A second [PostCommit] on [example_after_frame]: its session goes. *)
Lemma PostCommit_unused_witness :
  ∃ m',
    PostCommit 2 (example_frame []) example_after_frame.1 example_after_frame.2
    = Ok (m', ToneMapSession_delete 2 example_session example_after_frame.2)
    ∧ tone_map_sessions_ m' = [] ∧ fb_session_index_ m' = -1.
Proof.
  destruct (PostCommit_unused 2 (example_frame []) example_after_frame.1
              example_after_frame.2)
    as (m' & Hrun & Hnil & _ & Hfb & _).
  - repeat constructor.
  - exists m'. split; [exact Hrun|]. split; [exact Hnil|].
    apply Hfb. cbn. lia.
Defined.

(** The first acquisition of a fresh manager. *)
Lemma AcquireToneMapSession_consistent_witness :
  let r := AcquireToneMapSession 2 (example_layer kCompositionGPU 17) 0 example_cs
             example_manager
             (example_world [example_alloc 1; example_alloc 2] [true]) in
  consistent 2 r.1.2 r.2.
Proof.
  intros r. subst r.
  destruct (AcquireToneMapSession 2 (example_layer kCompositionGPU 17) 0 example_cs
              example_manager
              (example_world [example_alloc 1; example_alloc 2] [true]))
    as [[[err idx] m1] w1] eqn:Hrun.
  refine (proj1 (AcquireToneMapSession_consistent 2 _ _ _ _ _ _ _ _ _ _ _ Hrun)).
  - lia.
  - apply example_start_consistent.
Defined.

(** The first frame of a fresh manager. *)
Lemma HandleToneMap_consistent_witness :
  ∃ status ls' m' w',
    HandleToneMap 2 (example_frame [example_layer kCompositionGPUTarget 17])
      example_manager (example_world [example_alloc 1; example_alloc 2] [true])
    = Ok (status, ls', m', w')
    ∧ consistent 2 m' w'.
Proof.
  destruct (HandleToneMap_consistent 2
              (example_frame [example_layer kCompositionGPUTarget 17])
              example_manager
              (example_world [example_alloc 1; example_alloc 2] [true]))
    as (status & ls' & m' & w' & Hrun & Hcons & _).
  - lia.
  - cbn. lia.
  - apply example_start_consistent.
  - by exists status, ls', m', w'.
Defined.

(** [PostCommit] after the frame of [example_handled]. *)
Lemma PostCommit_consistent_witness :
  match
    PostCommit 2 (example_frame example_handled.1.1.2) example_handled.1.2
      example_handled.2
  with
  | Ok (m', w') => consistent 2 m' w'
  | Throw _ => False
  end.
Proof.
  destruct (PostCommit 2 (example_frame example_handled.1.1.2) example_handled.1.2
              example_handled.2) as [[m' w']|e] eqn:Hrun.
  - refine (proj1 (PostCommit_consistent 2 _ _ _ _ _ _ _ Hrun)).
    + cbn. lia.
    + apply example_handled_consistent.
  - vm_compute in Hrun. discriminate Hrun.
Defined.

(** [Terminate] in the state of [example_handled]. *)
Lemma Terminate_releases_all_witness :
  w_buffers (Terminate 2 example_handled.1.2 example_handled.2).2 = ∅
  ∧ w_engines (Terminate 2 example_handled.1.2 example_handled.2).2 = ∅.
Proof.
  destruct (Terminate_releases_all 2 example_handled.1.2 example_handled.2
              example_handled_consistent) as (_ & Hb & He & _).
  by split.
Defined.

(** The session that the first acquisition of a fresh manager builds. *)
Lemma AcquireToneMapSession_then_delete_witness :
  let w := example_world [example_alloc 1; example_alloc 2] [true] in
  let r := AcquireToneMapSession 2 (example_layer kCompositionGPU 17) 0 example_cs
             example_manager w in
  ∃ s, tone_map_sessions_ r.1.2 = [s]
       ∧ w_buffers (ToneMapSession_delete 2 s r.2) = ∅
       ∧ w_engines (ToneMapSession_delete 2 s r.2) = ∅.
Proof.
  intros w r. subst w r.
  destruct (AcquireToneMapSession 2 (example_layer kCompositionGPU 17) 0 example_cs
              example_manager
              (example_world [example_alloc 1; example_alloc 2] [true]))
    as [[[err idx] m1] w1] eqn:Hrun.
  pose proof Hrun as Hval. vm_compute in Hval. injection Hval as <- <- <- <-.
  destruct (AcquireToneMapSession_then_delete 2 _ _ _ _ _ _ _ _ Hrun eq_refl)
    as (s & Hv & _ & Hb & He).
  exists s. split; [exact Hv|]. split; [exact Hb|exact He].
Defined.


(** The allocator reports 1920 x 1080 for the first buffer, which is what
    the layer requests. *)
Lemma created_session_reusable_witness :
  let w := example_world [example_alloc 1; example_alloc 2] [true] in
  let r := AcquireToneMapSession 2 (example_layer kCompositionGPU 17) 0 example_cs
             example_manager w in
  ∃ s, tone_map_sessions_ r.1.2 = [s]
       ∧ reusable r.2 (example_layer kCompositionGPU 17) example_cs (retire [] s).
Proof.
  intros w r. subst w r.
  destruct (AcquireToneMapSession 2 (example_layer kCompositionGPU 17) 0 example_cs
              example_manager
              (example_world [example_alloc 1; example_alloc 2] [true]))
    as [[[err idx] m1] w1] eqn:Hrun.
  pose proof Hrun as Hval. vm_compute in Hval. injection Hval as <- <- <- <-.
  destruct (created_session_reusable 2 (example_layer kCompositionGPU 17) 0
              example_cs example_manager
              (example_world [example_alloc 1; example_alloc 2] [true]) _ _ _
              {| ab_fd := 51; ab_size := 8294400; ab_id := 1 |} 1920 1080
              [example_alloc 2] ltac:(lia) eq_refl Hrun eq_refl)
    as (s & Hv & Hre).
  exists s. split; [exact Hv|]. apply (Hre [] _ eq_refl). by split.
Defined.

(** Two dumps asked for and three blits, the first of which finds no file
    to write to: the second is dumped as frame 1, the third is not counted. *)
Lemma SetFrameDumpConfig_budget_witness :
  let ok := {| map_error := kErrorNone; map_base_ptr := true; map_fopen := true |} in
  let no_file := {| map_error := kErrorNone; map_base_ptr := true; map_fopen := false |} in
  let w := set_map_script [no_file; ok; ok] example_after_frame.2 in
  let calls := [(example_session, NullFence); (reused 2 example_session, NullFence);
                (example_session, NullFence)] in
  let r := foldl (λ mw c, DumpToneMapOutput c.1 c.2 mw.1 mw.2)
                 (SetFrameDumpConfig 2 example_after_frame.1, w) calls in
  w_dumps r.2 = [(Some 2%positive, 1)]
  ∧ dump_frame_count_ r.1 = 0 ∧ dump_frame_index_ r.1 = 2.
Proof.
  intros ok no_file w calls r. subst r.
  destruct (SetFrameDumpConfig_budget 2 calls example_after_frame.1 w)
    as (Hd & Hc & Hi & _).
  - lia.
  - cbn. lia.
  - repeat constructor.
  - split; [exact Hd|]. split; [exact Hc|exact Hi].
Defined.

